(** * examples/applies.py: the batch recommendation pipeline

    A shallow embedding of [examples/applies.py]: the registry [MODELS] and
    [get_model], the loader [read_data], the two report generators
    [calculate_similar_jobs] and [calculate_recommendations], and the
    command-line entry point.

    What the script delegates to libraries is kept behind four interfaces:
    - [Numpy]: the float32 values of the matrix, the float64 values of a
      column of floats, the conversions to float32 (that of text raises
      [ValueError] on the empty string and on text that is not a number), and
      float32 addition;
    - [Pandas]: the type [read_csv] infers for a column from its fields;
    - [Implicit]: the opaque models ([fit], [similar_items], [recommend]),
      the approximate flags their classes expose, and the per-entry
      rescaling done by [bm25_weight];
    - [Codecs]: whether the utf8 stream writer accepts a line.

    Effects are explicit: every computation returns the list of events it
    performed (file reads, calls into the model, file opens, written lines)
    together with either an exception or a value.

    The input is the list of the lines of the file as the tokenizer of
    [read_csv] splits them, each with one to three fields. *)

From Stdlib Require Import ZArith QArith.
From stdpp Require Import base tactics option list strings sorting pretty.

(** ** Python values that appear as hyper-parameters *)

Inductive pyval :=
| PyInt (z : Z)
| PyFloat (q : Q)
| PyBool (b : bool)
| PyDtype (name : string).

(** ** Exceptions the script can end with *)

Inductive exn :=
| IOError (filename : string)
    (* pandas.read_csv: the source cannot be read *)
| ValueError_float (field : string)
    (* astype(numpy.float32): could not convert string to float *)
| ValueError_empty
    (* coo_matrix: cannot infer dimensions from zero sized index arrays *)
| ValueError_unknown_model (name : string)
    (* get_model: "Unknown Model '%s'" *)
| KeyError (key : nat)
    (* jobs[...] on a code that is not a key of the dict *)
| IndexError (i : nat)
    (* positional indexing out of range *)
| UnicodeError (line : string)
    (* codecs stream writer: the line cannot be encoded *)
| FitError.
    (* any failure inside model.fit *)

(** ** The registry *)

Inductive model_class :=
| AlternatingLeastSquares
| NMSLibAlternatingLeastSquares
| AnnoyAlternatingLeastSquares
| FaissAlternatingLeastSquares
| TFIDFRecommender
| CosineRecommender
| BayesianPersonalizedRanking
| BM25Recommender.

Definition MODELS : list (string * model_class) :=
  [ ("als", AlternatingLeastSquares);
    ("nmslib_als", NMSLibAlternatingLeastSquares);
    ("annoy_als", AnnoyAlternatingLeastSquares);
    ("faiss_als", FaissAlternatingLeastSquares);
    ("tfidf", TFIDFRecommender);
    ("cosine", CosineRecommender);
    ("bpr", BayesianPersonalizedRanking);
    ("bm25", BM25Recommender) ].

(** [dict.get]: the value of the first pair with the key, [None] without. *)
Fixpoint dict_get {A} (d : list (string * A)) (k : string) : option A :=
  match d with
  | [] => None
  | (k', v) :: d' => if decide (k' = k) then Some v else dict_get d' k
  end.

(** Modelled from the spec: the class hierarchy of [implicit.als] and
    [implicit.approximate_als] is not part of the script. Section 4.3 of the
    specification puts the plain and the three approximate alternating least
    squares variants in the factorization family, and the ranking-loss model
    and the three neighbourhood models outside it; [get_model] agrees, since
    it has separate branches for "bm25" and "bpr" after the [issubclass]
    test. *)
Definition issubclass_ALS (c : model_class) : bool :=
  match c with
  | AlternatingLeastSquares
  | NMSLibAlternatingLeastSquares
  | AnnoyAlternatingLeastSquares
  | FaissAlternatingLeastSquares => true
  | _ => false
  end.

(** A model object: its class, the keyword arguments its constructor was
    called with, and the attributes assigned to it afterwards (latest
    first). *)
Record Model := {
  model_cls : model_class;
  model_kwargs : list (string * pyval);
  model_setattr : list (string * pyval);
}.

Definition setattr (m : Model) (name : string) (v : pyval) : Model :=
  {| model_cls := model_cls m;
     model_kwargs := model_kwargs m;
     model_setattr := (name, v) :: model_setattr m |}.

Definition get_model (model_name : string) : exn + Model :=
  match dict_get MODELS model_name with
  | None => inl (ValueError_unknown_model model_name)
  | Some model_class =>
      let params :=
        if issubclass_ALS model_class then
          [("factors", PyInt 64); ("dtype", PyDtype "float32");
           ("use_gpu", PyBool false)]
        else if decide (model_name = "bm25") then
          [("K1", PyInt 100); ("B", PyFloat (1 # 2))]
        else if decide (model_name = "bpr") then
          [("factors", PyInt 63); ("use_gpu", PyBool false)]
        else [] in
      inr {| model_cls := model_class;
             model_kwargs := params;
             model_setattr := [] |}
  end.

(** ** The lines of the source *)

(** A line of the comma-separated source, by its number of fields. The
    empty line has one empty field. *)
Inductive csv_line :=
| Fields1 (user : string)
| Fields2 (user job : string)
| Fields3 (user job applies : string).

(** [names=['user', 'job', 'applies']] with [na_filter=False]: a field the
    line does not have is read as the empty string. *)
Definition field_user (l : csv_line) : string :=
  match l with Fields1 u | Fields2 u _ | Fields3 u _ _ => u end.

Definition field_job (l : csv_line) : string :=
  match l with Fields1 _ => "" | Fields2 _ j | Fields3 _ j _ => j end.

Definition field_applies (l : csv_line) : string :=
  match l with Fields1 _ | Fields2 _ _ => "" | Fields3 _ _ a => a end.

(** [skip_blank_lines], which [read_csv] has on by default: a line that is
    empty or holds only spaces and tabs is dropped. *)
Definition whitespace (s : string) : bool :=
  forallb (λ a, bool_decide (Ascii.nat_of_ascii a = 32 ∨
                             Ascii.nat_of_ascii a = 9))
          (String.list_ascii_of_string s).

Definition blank (l : csv_line) : bool :=
  match l with
  | Fields1 u => whitespace u
  | _ => false
  end.

Definition records (lines : list csv_line) : list csv_line :=
  filter (λ l, blank l = false) lines.

(** ** numpy *)

Class Numpy := {
  float32 : Type;
  float64 : Type;
  float64_eq_dec :: EqDecision float64;
  (** the order of the float64 values of a column (a column read without
      NA filtering holds no NaN) *)
  f64_le : relation float64;
  f64_le_dec :: RelDecision f64_le;
  f64_le_trans :: Transitive f64_le;
  f64_le_total :: Total f64_le;
  (** ["%s" % x] and [x == k] for a Python int [k] *)
  f64_str : float64 → string;
  f64_eq_int : float64 → nat → bool;
  (** [numpy.float32] of text; [None] where the conversion raises, as it
      does on the empty string *)
  to_float32 : string → option float32;
  to_float32_empty : to_float32 "" = None;
  (** [numpy.float32] of an int64 and of a float64 *)
  int_to_float32 : Z → float32;
  f64_to_float32 : float64 → float32;
  f32_add : float32 → float32 → float32;
}.

(** ** The frame *)

Section frames.
Context `{Numpy}.

(** A value of a column of the frame. [read_csv] is called without [dtype],
    so every column has the type inferred from its fields: int64, float64,
    bool, or object (the field text itself). *)
Inductive cell :=
| CStr (s : string)
| CInt (z : Z)
| CFloat (x : float64)
| CBool (b : bool).

Global Instance cell_eq_dec : EqDecision cell.
Proof. solve_decision. Defined.

(** ["%s" % value] *)
Definition str (c : cell) : string :=
  match c with
  | CStr s => s
  | CInt z => pretty z
  | CFloat x => f64_str x
  | CBool b => if b then "True" else "False"
  end.

(** The order in which the values of one column are sorted. A column has
    one type; values of different types are put in the order of
    [dtype_rank] to make the relation total. *)
Definition dtype_rank (c : cell) : nat :=
  match c with CBool _ => 0 | CInt _ => 1 | CFloat _ => 2 | CStr _ => 3 end.

Definition cell_le (a b : cell) : Prop :=
  match a, b with
  | CStr s, CStr t => String.le s t
  | CInt x, CInt y => (x ≤ y)%Z
  | CFloat x, CFloat y => f64_le x y
  | CBool x, CBool y => implb x y
  | _, _ => dtype_rank a < dtype_rank b
  end.

Global Instance cell_le_dec : RelDecision cell_le.
Proof. intros [] []; unfold cell_le; apply _. Defined.

(** [value.astype(numpy.float32)] on one value of a column: text goes
    through the conversion that can raise, numbers and booleans are cast. *)
Definition cell_to_float32 (c : cell) : option float32 :=
  match c with
  | CStr s => to_float32 s
  | CInt z => Some (int_to_float32 z)
  | CFloat x => Some (f64_to_float32 x)
  | CBool b => Some (int_to_float32 (if b then 1 else 0))
  end.

(** A row of the frame [read_csv] returns. *)
Record row := {
  row_user : cell;
  row_job : cell;
  row_applies : cell;
}.

(** *** Categorical columns *)

Record Categorical := {
  cat_categories : list cell;
  cat_codes : list nat;
}.

(** Position of a value among the categories. Every value of a column is
    among the categories of that column, so the fall-through case is not
    reached by [astype_category]. *)
Fixpoint cat_code (cats : list cell) (x : cell) : nat :=
  match cats with
  | [] => 0
  | c :: cats' => if decide (c = x) then 0 else S (cat_code cats' x)
  end.

(** [astype("category")]: the categories are the distinct values in sorted
    order, the codes are positions in the categories. *)
Definition astype_category (col : list cell) : Categorical :=
  let cats := merge_sort cell_le (remove_dups col) in
  {| cat_categories := cats; cat_codes := map (cat_code cats) col |}.

Record DataFrame := {
  df_user : Categorical;
  df_job : Categorical;
  df_applies : list cell;
}.

(** *** Indexing a Series by a Python int

    [user_count[x]] where [user_count] is indexed by the categories of a
    column: an index of numbers (int64, float64) is searched for the label
    equal to [x]; an index of text or booleans is read by position. *)
Definition numeric (c : cell) : bool :=
  match c with CInt _ | CFloat _ => true | _ => false end.

Definition equals_int (c : cell) (x : nat) : bool :=
  match c with
  | CInt z => bool_decide (z = Z.of_nat x)
  | CFloat f => f64_eq_int f x
  | _ => false
  end.

Fixpoint get_loc (index : list cell) (x : nat) : option nat :=
  match index with
  | [] => None
  | c :: index' => if equals_int c x then Some 0 else S <$> get_loc index' x
  end.
End frames.

(** ** pandas *)

Class Pandas `{Numpy} := {
  (** The values [read_csv] gives a column, from the fields of the column:
      the type is inferred from all the fields together. *)
  infer : list string → list cell;
  infer_length col : length (infer col) = length col;
  (** [na_filter=False]: an empty field is no number and no boolean, so a
      column with an empty field stays text. *)
  infer_empty_field col : "" ∈ col → infer col = CStr <$> col;
}.

(** [pandas.read_csv] on the lines of a readable source: blank lines are
    dropped, and the three columns are typed. *)
Definition frame `{Pandas} (lines : list csv_line) : list row :=
  let recs := records lines in
  (λ r, {| row_user := r.1.1; row_job := r.1.2; row_applies := r.2 |})
    <$> zip (zip (infer (field_user <$> recs)) (infer (field_job <$> recs)))
            (infer (field_applies <$> recs)).

(** ** scipy.sparse *)

Section sparse.
Context `{Numpy}.

(** A matrix in coordinate form: the shape and the stored entries
    [(row, col, value)] in the order they were given, duplicates kept. *)
Record coo := {
  coo_shape : nat * nat;
  coo_entries : list (nat * nat * float32);
}.

(** A matrix in compressed sparse row form: for every row the stored
    [(column index, value)] pairs. *)
Record csr := {
  csr_ncols : nat;
  csr_rows : list (list (nat * float32));
}.

(** [coo_matrix((data, (row, col)))]: the shape is inferred from the
    largest indices, which needs at least one entry. *)
Definition coo_matrix (data : list float32) (row col : list nat) : exn + coo :=
  match data with
  | [] => inl ValueError_empty
  | _ => inr {| coo_shape := (S (max_list row), S (max_list col));
                coo_entries := zip (zip row col) data |}
  end.

(** The entries of row [i], in the order given. *)
Definition coo_row_entries (entries : list (nat * nat * float32)) (i : nat)
  : list (nat * float32) :=
  omap (λ e, if decide (e.1.1 = i) then Some (e.1.2, e.2) else None) entries.

(** Sorting a row by column index; entries with the same index keep their
    order. *)
Fixpoint insert_index (e : nat * float32) (r : list (nat * float32))
  : list (nat * float32) :=
  match r with
  | [] => [e]
  | e' :: r' => if decide (e.1 ≤ e'.1) then e :: r else e' :: insert_index e r'
  end.

Definition sort_indices (r : list (nat * float32)) : list (nat * float32) :=
  foldr insert_index [] r.

(** Summing runs of equal column indices in a sorted row: [c], [v] is the
    run being accumulated. *)
Fixpoint sum_run (c : nat) (v : float32) (r : list (nat * float32))
  : list (nat * float32) :=
  match r with
  | [] => [(c, v)]
  | (c', v') :: r' =>
      if decide (c = c') then sum_run c (f32_add v v') r'
      else (c, v) :: sum_run c' v' r'
  end.

Definition sum_duplicates (r : list (nat * float32)) : list (nat * float32) :=
  match r with
  | [] => []
  | (c, v) :: r' => sum_run c v r'
  end.

(** [coo.tocsr()]: entries are bucketed by row, every row is sorted by
    column index, and duplicates are summed. Explicit zeros stay stored. *)
Definition tocsr (X : coo) : csr :=
  {| csr_ncols := (coo_shape X).2;
     csr_rows :=
       map (λ i, sum_duplicates (sort_indices (coo_row_entries (coo_entries X) i)))
           (seq 0 (coo_shape X).1) |}.

(** [X.T.tocsr()] for [X] in compressed sparse row form: row [u] of the
    result lists, by increasing [i], the entries [X] stores at
    [(i, u)]. *)
Definition column_entries (rows : list (list (nat * float32))) (u : nat)
  : list (nat * float32) :=
  mjoin (imap (λ i r, omap (λ e, if decide (e.1 = u)
                                 then Some (i, e.2) else None) r)
              rows).

Definition transpose_tocsr (X : csr) : csr :=
  {| csr_ncols := length (csr_rows X);
     csr_rows := map (column_entries (csr_rows X)) (seq 0 (csr_ncols X)) |}.

(** [X[i].indices] *)
Definition row_indices (X : csr) (i : nat) : option (list nat) :=
  (λ r, r.*1) <$> csr_rows X !! i.
End sparse.

(** ** The implicit library and the output codec *)

Class Implicit `{Numpy} := {
  (** similarity and recommendation scores, and their [%s] rendering *)
  score : Type;
  show_score : score → string;
  (** the trained state; [fit] gives [None] where training fails *)
  fitted : Type;
  fit : Model → csr → option fitted;
  similar_items : fitted → nat → nat → list (nat * score);
  recommend : fitted → nat → csr → list (nat * score);
  (** the value [bm25_weight] puts at a stored entry *)
  bm25_scale : Q → Q → coo → nat → nat → float32 → float32;
  (** the approximate acceleration flags a class exposes, with the values
      its constructor gives them when they are not passed *)
  approximate_flags : model_class → list (string * bool);
}.

Class Codecs := {
  (** whether the utf8 stream writer can encode the line *)
  encodable : string → bool;
}.

Section weighting.
Context `{Implicit}.

(** Modelled from the spec: [bm25_weight] is defined in
    [implicit.nearest_neighbours], which is not part of the script. Section
    4.2 of the specification: the output has the shape and the non-zero
    pattern of the input, and the values are rescaled by a formula with the
    two tunables K1 and B. The formula itself is left to [bm25_scale]. *)
Definition bm25_weight (X : coo) (K1 B : Q) : coo :=
  {| coo_shape := coo_shape X;
     coo_entries :=
       map (λ e, (e.1, bm25_scale K1 B X e.1.1 e.1.2 e.2)) (coo_entries X) |}.
End weighting.

(** ** Effects *)

Section effects.
Context `{Numpy}.

Inductive event :=
| EvReadCsv (filename : string)
| EvFit (m : Model) (X : csr)
| EvSimilarItems (itemid n : nat)
| EvRecommend (userid : nat) (user_items : csr)
| EvOpen (filename : string)
| EvWrite (line : string).

(** A computation: the events performed, then an exception or a value. *)
Definition io (A : Type) : Type := list event * (exn + A).

Definition trace {A} (m : io A) : list event := m.1.
Definition outcome {A} (m : io A) : exn + A := m.2.

Definition io_bind {A B} (f : A → io B) (m : io A) : io B :=
  match m.2 with
  | inl e => (m.1, inl e)
  | inr a => (m.1 ++ (f a).1, (f a).2)
  end.

Definition emit (e : event) : io unit := ([e], inr ()).
Definition raise {A} (e : exn) : io A := ([], inl e).
Definition lift {A} (r : exn + A) : io A := ([], r).

(** [try: ... except: pass] *)
Definition try_pass (m : io unit) : io unit := (m.1, inr ()).

(** [for x in l: body] *)
Fixpoint for_ {A} (l : list A) (body : A → io unit) : io unit :=
  match l with
  | [] => ([], inr ())
  | x :: l' => io_bind (λ _, for_ l' body) (body x)
  end.

(** The lines written, in order. *)
Definition written (t : list event) : list string :=
  omap (λ e, match e with EvWrite l => Some l | _ => None end) t.

(** The calls of [fit], of [similar_items] and of [recommend], in order. *)
Definition fit_calls (t : list event) : list (Model * csr) :=
  omap (λ e, match e with EvFit m X => Some (m, X) | _ => None end) t.

Definition similar_items_calls (t : list event) : list (nat * nat) :=
  omap (λ e, match e with EvSimilarItems j n => Some (j, n) | _ => None end) t.

Definition recommend_calls (t : list event) : list (nat * csr) :=
  omap (λ e, match e with EvRecommend u X => Some (u, X) | _ => None end) t.

(** Events of the body of a report: queries of the model and written
    lines. *)
Definition similar_event (e : event) : Prop :=
  match e with
  | EvSimilarItems _ _ | EvWrite _ => True
  | _ => False
  end.

Definition recommend_event (e : event) : Prop :=
  match e with
  | EvRecommend _ _ | EvWrite _ => True
  | _ => False
  end.

(** The shapes a run can have: it stops in the loader or at [get_model]
    after the read; or it stops in [fit]; or it opens the output and the rest
    are events of the body of the report. *)
Definition stages (input output : string) (body_event : event → Prop)
    (t : list event) : Prop :=
  t = [EvReadCsv input] ∨
  (∃ m X, t = [EvReadCsv input; EvFit m X]) ∨
  (∃ m X body, t = EvReadCsv input :: EvFit m X :: EvOpen output :: body ∧
               Forall body_event body).

(** Events of the report stage: everything but reading and training. *)
Definition report_event (e : event) : Prop :=
  match e with
  | EvReadCsv _ | EvFit _ _ => False
  | _ => True
  end.
End effects.

Global Instance io_ret `{Numpy} : MRet io := λ A a, ([], inr a).
Global Instance io_mbind `{Numpy} : MBind io := λ A B, io_bind.

(** ** Strings of the reports *)

Definition tab : string := String (Ascii.ascii_of_nat 9) "".
Definition nl : string := String (Ascii.ascii_of_nat 10) "".

(** ["%s\t%s\t%s\n" % (a, b, c)] *)
Definition fmt3 (a b c : string) : string := a +:+ tab +:+ b +:+ tab +:+ c +:+ nl.
(** ["Applies for user %s\n" % username] *)
Definition fmt_marker (username : string) : string :=
  "Applies for user " +:+ username +:+ nl.
(** ["%s\n" % label] *)
Definition fmt_line (label : string) : string := label +:+ nl.

(** ** Small pandas and Python helpers *)

(** [enumerate] *)
Definition enumerate {A} (l : list A) : list (nat * A) := imap pair l.

(** The key lookup of a dict given by its items. *)
Fixpoint dict_lookup {A} (d : list (nat * A)) (k : nat) : option A :=
  match d with
  | [] => None
  | (k', v) :: d' => if decide (k' = k) then Some v else dict_lookup d' k
  end.

(** [groupby(column).size()] for a categorical column: one count per
    category, in category order. *)
Definition groupby_size `{Numpy} (c : Categorical) : list nat :=
  map (λ k, length (filter (λ code, code = k) (cat_codes c)))
      (seq 0 (length (cat_categories c))).

(** [sorted(xs, key=...)] once the keys are computed: a stable sort by
    key. *)
Definition key_le : relation (Z * nat) := λ a b, (a.1 ≤ b.1)%Z.

Global Instance key_le_dec : RelDecision key_le.
Proof. intros a b. unfold key_le. apply _. Defined.

(** Insertion in front of the first pair whose key is not smaller: pairs
    with equal keys keep the order in which they were given. *)
Fixpoint insert_by_key (p : Z * nat) (l : list (Z * nat)) : list (Z * nat) :=
  match l with
  | [] => [p]
  | q :: l' => if decide (key_le p q) then p :: l else q :: insert_by_key p l'
  end.

Definition sorted_by_key (keys : list Z) (xs : list nat) : list nat :=
  (foldr insert_by_key [] (zip keys xs)).*2.

(** The order of a stable sort of pairs given by increasing second
    component: by key, and by second component among equal keys. *)
Definition key_lex : relation (Z * nat) :=
  λ a b, (a.1 < b.1)%Z ∨ (a.1 = b.1 ∧ a.2 < b.2).

(** ** The script *)

Record Args := {
  inputfile : string;
  outputfile : string;
  model_arg : string;
  recommend_flag : bool;
  param : option (list string);
}.

(** The namespace argparse builds from [--input f] alone. *)
Definition default_args (input : string) : Args :=
  {| inputfile := input;
     outputfile := "similar-jobs.tsv";
     model_arg := "als";
     recommend_flag := false;
     param := None |}.

Section script.
Context `{Implicit} `{!Pandas} `{!Codecs}.
(** The readable source files and their lines. *)
Context (fs : string → option (list csv_line)).

Definition read_csv (filename : string) : io (list row) :=
  emit (EvReadCsv filename);;
  match fs filename with
  | None => raise (IOError filename)
  | Some lines => mret (frame lines)
  end.

(** [column.astype(numpy.float32)]: the conversion of a column of text
    stops at the first field that is not a number. *)
Fixpoint astype_float32 (col : list cell) : exn + list float32 :=
  match col with
  | [] => inr []
  | c :: col' =>
      match cell_to_float32 c with
      | None => inl (ValueError_float (str c))
      | Some v =>
          match astype_float32 col' with
          | inl e => inl e
          | inr vs => inr (v :: vs)
          end
      end
  end.

Definition read_data (filename : string) : io (DataFrame * coo) :=
  data ← read_csv filename;
  let data := {| df_user := astype_category (row_user <$> data);
                 df_job := astype_category (row_job <$> data);
                 df_applies := row_applies <$> data |} in
  values ← lift (astype_float32 (df_applies data));
  applies ← lift (coo_matrix values (cat_codes (df_job data))
                                    (cat_codes (df_user data)));
  mret (data, applies).

(** The part the two generators share. First the weighting, done only for
    the factorization family, which also switches off the approximate
    recommend index of the model. *)
Definition weigh (model : Model) (applies : coo) : coo * Model :=
  if issubclass_ALS (model_cls model) then
    (bm25_weight applies 100 (4 # 5),
     setattr model "approximate_recommend" (PyBool false))
  else (applies, model).

(** Then the conversion to compressed sparse row form and the training. *)
Definition weight_and_fit (model : Model) (applies : coo) : io (fitted * csr) :=
  let '(applies, model) := weigh model applies in
  let applies := tocsr applies in
  emit (EvFit model applies);;
  match fit model applies with
  | None => raise FitError
  | Some fm => mret (fm, applies)
  end.

Definition write (line : string) : io unit :=
  if encodable line then emit (EvWrite line) else raise (UnicodeError line).

Definition getitem (jobs : list (nat * cell)) (k : nat) : io cell :=
  match dict_lookup jobs k with
  | Some label => mret label
  | None => raise (KeyError k)
  end.

(** [user_count[x]]: by label in an index of numbers, where a missing
    label is a [KeyError], and by position otherwise. *)
Definition series_getitem (index : list cell) (user_count : list nat) (x : nat)
  : io nat :=
  if existsb numeric index then
    match get_loc index x with
    | Some p => match user_count !! p with
                | Some n => mret n
                | None => raise (IndexError p)
                end
    | None => raise (KeyError x)
    end
  else
    match user_count !! x with
    | Some n => mret n
    | None => raise (IndexError x)
    end.

(** [-user_count[x]], the key of the sort *)
Definition popularity_key (index : list cell) (user_count : list nat) (x : nat)
  : io Z :=
  n ← series_getitem index user_count x;
  mret (- Z.of_nat n)%Z.

(** The report of [calculate_similar_jobs], from the trained model on. *)
Definition write_similar_jobs
    (df : DataFrame) (fm : fitted) (output_filename : string) : io unit :=
  let jobs := enumerate (cat_categories (df_job df)) in
  let user_count := groupby_size (df_job df) in
  keys ← mapM (popularity_key (cat_categories (df_job df)) user_count)
              (jobs.*1);
  let to_generate := sorted_by_key keys (jobs.*1) in
  emit (EvOpen output_filename);;
  for_ to_generate (λ jid,
    job ← getitem jobs jid;
    emit (EvSimilarItems jid 11);;
    for_ (similar_items fm jid 11) (λ '(other, score),
      try_pass (other_job ← getitem jobs other;
                write (fmt3 (str job) (str other_job) (show_score score))))).

Definition calculate_similar_jobs
    (input_filename output_filename model_name : string) : io unit :=
  '(df, applies) ← read_data input_filename;
  model ← lift (get_model model_name);
  '(fm, applies) ← weight_and_fit model applies;
  write_similar_jobs df fm output_filename.

(** The block of one user in the report of [calculate_recommendations]. *)
Definition write_user_block
    (jobs : list (nat * cell)) (fm : fitted) (user_applies : csr)
    (userid : nat) (username : cell) : io unit :=
  emit (EvRecommend userid user_applies);;
  for_ (recommend fm userid user_applies) (λ '(jobid, score),
    label ← getitem jobs jobid;
    write (fmt3 (str username) (str label) (show_score score)));;
  write (fmt_marker (str username));;
  indices ← match row_indices user_applies userid with
            | Some ix => mret ix
            | None => raise (IndexError userid)
            end;
  for_ indices (λ jobid,
    label ← getitem jobs jobid;
    write (fmt_line (str label))).

(** The report of [calculate_recommendations], from the trained model
    on. *)
Definition write_recommendations
    (df : DataFrame) (fm : fitted) (applies : csr) (output_filename : string)
  : io unit :=
  let jobs := enumerate (cat_categories (df_job df)) in
  let user_applies := transpose_tocsr applies in
  emit (EvOpen output_filename);;
  for_ (enumerate (cat_categories (df_user df))) (λ '(userid, username),
    write_user_block jobs fm user_applies userid username).

Definition calculate_recommendations
    (input_filename output_filename model_name : string) : io unit :=
  '(df, applies) ← read_data input_filename;
  model ← lift (get_model model_name);
  '(fm, applies) ← weight_and_fit model applies;
  write_recommendations df fm applies output_filename.

(** The body of [if __name__ == "__main__"] after [parse_args]. *)
Definition main (args : Args) : io unit :=
  if recommend_flag args then
    calculate_recommendations (inputfile args) (outputfile args) (model_arg args)
  else
    calculate_similar_jobs (inputfile args) (outputfile args) (model_arg args).
End script.

(** ** Vocabulary of the statements *)

Section frame_vocabulary.
Context `{Pandas}.

(** A column of the source that [read_csv] reads as text: every value is
    the field itself. *)
Definition read_as_text (fields : list string) : Prop :=
  infer fields = CStr <$> fields.

(** The number of rows of the frame whose job is the item with code [j]. *)
Definition item_popularity (rows : list row) (items : list cell) (j : nat)
  : nat :=
  length (filter (λ r, items !! j = Some (row_job r)) rows).

(** The order in which [calculate_similar_jobs] visits the item codes when
    every key of the sort is found: the codes sorted by the negated number
    of rows of their item. *)
Definition popularity_order (c : Categorical) : list nat :=
  let n := length (cat_categories c) in
  sorted_by_key
    ((λ x, (- Z.of_nat (length (filter (λ code, code = x) (cat_codes c))))%Z)
       <$> seq 0 n)
    (seq 0 n).

(** Before and at the same place in the visiting order: more rows, or as
    many rows and a smaller code. *)
Definition more_popular (rows : list row) (items : list cell) (i j : nat)
  : Prop :=
  item_popularity rows items j < item_popularity rows items i ∨
  (item_popularity rows items j = item_popularity rows items i ∧ i < j).
End frame_vocabulary.

Section sparse_vocabulary.
Context `{Numpy}.

(** The value a matrix in compressed sparse row form stores at [(i, u)],
    if any. *)
Definition csr_get (X : csr) (i u : nat) : option float32 :=
  r ← csr_rows X !! i; dict_lookup r u.

(** The values with column index [u] in a row, in order. *)
Definition values_at (u : nat) (r : list (nat * float32)) : list float32 :=
  omap (λ e, if decide (e.1 = u) then Some e.2 else None) r.

(** The values a matrix in coordinate form has at [(i, u)], in order. *)
Definition entries_at (X : coo) (i u : nat) : list float32 :=
  omap (λ e, if decide (e.1 = (i, u)) then Some e.2 else None) (coo_entries X).

(** Row [i] exists and stores an entry with column index [u]. *)
Definition stores (rows : list (list (nat * float32))) (i u : nat) : Prop :=
  ∃ r, rows !! i = Some r ∧ u ∈ r.*1.

Global Instance stores_dec rows i u : Decision (stores rows i u).
Proof.
  unfold stores. destruct (rows !! i) as [r|].
  - destruct (decide (u ∈ r.*1)) as [Hu|Hu]; [left; eauto|right].
    by intros (? & [= <-] & ?).
  - right. by intros (? & ? & ?).
Defined.

(** Rows ordered by column index, weakly and strictly. *)
Definition index_le : relation (nat * float32) := λ a b, a.1 ≤ b.1.
Definition index_lt : relation (nat * float32) := λ a b, a.1 < b.1.

(** The float32 sum of a non-empty list, taken from left to right. *)
Definition f32_sum (vs : list float32) : option float32 :=
  match vs with
  | [] => None
  | v :: vs' => Some (foldl f32_add v vs')
  end.
End sparse_vocabulary.

Section vocabulary.
Context `{Implicit} `{!Pandas} `{!Codecs}.

(** The value an attribute of a model object has: the value last assigned
    to it, else the keyword argument of that name, else, for an approximate
    flag of the class, the value its constructor gives it. *)
Definition getattr (m : Model) (name : string) : option pyval :=
  match dict_get (model_setattr m) name with
  | Some v => Some v
  | None =>
      match dict_get (model_kwargs m) name with
      | Some v => Some v
      | None => PyBool <$> dict_get (approximate_flags (model_cls m)) name
      end
  end.

(** The value the entry of one input record has when the matrix reaches
    [fit]: the converted count, rescaled for the factorization family. *)
Definition record_weight (m : Model) (X : coo) (i u : nat) (v : float32)
  : float32 :=
  if issubclass_ALS (model_cls m) then bm25_scale 100 (4 # 5) X i u v else v.

(** The converted counts of the rows of item code [i] and user code [u],
    in file order. *)
Definition count_values (rows : list row) (df : DataFrame) (i u : nat)
  : list float32 :=
  omap (λ r,
    if decide (cat_code (cat_categories (df_job df)) (row_job r) = i ∧
               cat_code (cat_categories (df_user df)) (row_user r) = u)
    then cell_to_float32 (row_applies r)
    else None) rows.

(** The values of the rows of item code [i] and user code [u], in file
    order. *)
Definition record_values (rows : list row) (df : DataFrame)
    (m : Model) (X : coo) (i u : nat) : list float32 :=
  omap (λ r,
    if decide (cat_code (cat_categories (df_job df)) (row_job r) = i ∧
               cat_code (cat_categories (df_user df)) (row_user r) = u)
    then record_weight m X i u <$> cell_to_float32 (row_applies r)
    else None) rows.

(** The label a code has in the [jobs] dict, as it is written (the empty
    string stands for a missing key in statements where the key is known
    to exist). *)
Definition label_of (jobs : list (nat * cell)) (j : nat) : string :=
  default "" (str <$> dict_lookup jobs j).

(** The lines of one source item that make it to the similarity report:
    those whose neighbour has a label and that the writer can encode. *)
Definition similar_lines (jobs : list (nat * cell)) (job : string)
    (neighbours : list (nat * score)) : list string :=
  omap (λ p, other_job ← dict_lookup jobs p.1;
             let line := fmt3 job (str other_job) (show_score p.2) in
             if encodable line then Some line else None) neighbours.

(** The three parts of the block of one user in the recommendation
    report. *)
Definition recommended_lines (jobs : list (nat * cell)) (username : string)
    (recs : list (nat * score)) : list string :=
  (λ p, fmt3 username (label_of jobs p.1) (show_score p.2)) <$> recs.

(** The items of the history of a user, and their lines. *)
Definition history (jobs : list (nat * cell)) (user_applies : csr)
    (userid : nat) : list cell :=
  omap (dict_lookup jobs) (default [] (row_indices user_applies userid)).

Definition history_labels (jobs : list (nat * cell)) (user_applies : csr)
    (userid : nat) : list string :=
  label_of jobs <$> default [] (row_indices user_applies userid).

Definition user_block (jobs : list (nat * cell)) (fm : fitted)
    (user_applies : csr) (userid : nat) (username : string) : list string :=
  recommended_lines jobs username (recommend fm userid user_applies)
    ++ fmt_marker username
    :: (fmt_line <$> history_labels jobs user_applies userid).

(** The recommendation report: the blocks of the users in the order of the
    user encoding table. *)
Definition recommendation_report (df : DataFrame) (fm : fitted) (applies : csr)
  : list string :=
  enumerate (cat_categories (df_user df)) ≫= λ p,
    user_block (enumerate (cat_categories (df_job df))) fm
               (transpose_tocsr applies) p.1 (str p.2).

(** [user_applies[userid]]: the one-row matrix holding the row of a
    user. *)
Definition row_matrix (X : csr) (userid : nat) : csr :=
  {| csr_ncols := csr_ncols X;
     csr_rows := option_list (csr_rows X !! userid) |}.
End vocabulary.

(** ** A concrete instance of the interfaces

    Counts are integers and float32 is exact on integers below 2^24, so the
    values are taken in [Z]; text converts when it is a non-empty run of
    decimal digits. A column is read as int64 when every field is such a
    run, as bool when every field is one of the six spellings of the two
    truth values, and as text otherwise; the instance has no column of
    floats, and its type of floats is empty. The model is a popularity
    toy: the score of an item is the number of entries its row stores. *)

Module Toy.
Definition digit (a : Ascii.ascii) : option Z :=
  let n := Ascii.nat_of_ascii a in
  if decide (48 ≤ n ≤ 57) then Some (Z.of_nat (n - 48)) else None.

Fixpoint digits (acc : Z) (s : string) : option Z :=
  match s with
  | EmptyString => Some acc
  | String a s' => d ← digit a; digits (10 * acc + d)%Z s'
  end.

Definition parse_count (s : string) : option Z :=
  match s with
  | EmptyString => None
  | _ => digits 0 s
  end.

Definition numpy : Numpy :=
  {| float32 := Z;
     float64 := Empty_set;
     f64_le := λ _ _, True;
     f64_le_dec := λ _ _, left I;
     f64_le_trans := λ _ _ _ _ _, I;
     f64_le_total := λ _ _, or_introl I;
     f64_str := λ x, match x with end;
     f64_eq_int := λ x _, match x with end;
     to_float32 := parse_count;
     to_float32_empty := eq_refl;
     int_to_float32 := λ z, z;
     f64_to_float32 := λ x, match x with end;
     f32_add := Z.add |}.

Definition parse_bool (s : string) : option bool :=
  if decide (s ∈ ["True"; "TRUE"; "true"]) then Some true
  else if decide (s ∈ ["False"; "FALSE"; "false"]) then Some false
  else None.

(** The type inference of the instance: int64, then bool, then text. *)
Definition infer_column (col : list string) : list (@cell numpy) :=
  match mapM parse_count col with
  | Some zs => CInt <$> zs
  | None =>
      match mapM parse_bool col with
      | Some bs => CBool <$> bs
      | None => CStr <$> col
      end
  end.

Definition pandas : @Pandas numpy.
Proof.
  refine {| infer := infer_column |}.
  - intros col. unfold infer_column.
    destruct (mapM parse_count col) as [zs|] eqn:Hzs;
      [rewrite length_fmap; symmetry; by eapply length_mapM|].
    destruct (mapM parse_bool col) as [bs|] eqn:Hbs;
      rewrite length_fmap; [|done].
    symmetry. by eapply length_mapM.
  - intros col Hin. unfold infer_column.
    destruct (mapM parse_count col) as [zs|] eqn:Hzs.
    { assert (is_Some (mapM parse_count col)) as Hsome by eauto.
      rewrite mapM_is_Some, Forall_forall in Hsome.
      by destruct (Hsome _ Hin). }
    destruct (mapM parse_bool col) as [bs|] eqn:Hbs; [|done].
    assert (is_Some (mapM parse_bool col)) as Hsome by eauto.
    rewrite mapM_is_Some, Forall_forall in Hsome.
    by destruct (Hsome _ Hin).
Defined.

Definition popularity (X : @csr numpy) : list (nat * Z) :=
  imap (λ i r, (i, Z.of_nat (length r))) (@csr_rows numpy X).

(** [recommend] leaves out what the user's row already stores. *)
Definition unseen (X : @csr numpy) (userid : nat) (user_items : @csr numpy)
  : list (nat * Z) :=
  filter (λ p, p.1 ∉ default [] (@row_indices numpy user_items userid))
         (popularity X).

(** The flags of the three approximate variants, as their constructors in
    [implicit.approximate_als] declare them. *)
Definition flags (c : model_class) : list (string * bool) :=
  match c with
  | NMSLibAlternatingLeastSquares
  | AnnoyAlternatingLeastSquares
  | FaissAlternatingLeastSquares =>
      [("approximate_similar_items", true); ("approximate_recommend", true)]
  | _ => []
  end.

(** The rescaling of [bm25_weight] is stood in for by a doubling. *)
Definition implicit : @Implicit numpy :=
  {| score := Z;
     show_score := pretty;
     fitted := @csr numpy;
     fit := λ _ X, Some X;
     similar_items := λ X _ n, take n (popularity X);
     recommend := unseen;
     bm25_scale := λ _ _ _ _ _ v, (2 * v)%Z;
     approximate_flags := flags |}.

(** The same library with a model whose training fails. *)
Definition untrainable : @Implicit numpy :=
  {| score := Z;
     show_score := pretty;
     fitted := @csr numpy;
     fit := λ _ _, None;
     similar_items := λ X _ n, take n (popularity X);
     recommend := unseen;
     bm25_scale := λ _ _ _ _ _ v, (2 * v)%Z;
     approximate_flags := flags |}.

(** Python 2 semantics of the utf8 stream writer on byte strings: only
    ASCII goes through. *)
Definition ascii_only : Codecs :=
  {| encodable := λ s, bool_decide (Forall (λ a, Ascii.nat_of_ascii a < 128)
                                           (String.list_ascii_of_string s)) |}.

Definition one_file (name : string) (lines : list csv_line)
  : string → option (list csv_line) :=
  λ f, if decide (f = name) then Some lines else None.

(** The example of the specification: two users, two items. *)
Definition spec_example : list csv_line :=
  [Fields3 "u1" "i1" "3"; Fields3 "u1" "i2" "1"; Fields3 "u2" "i1" "5"].

(** The same user and item twice. *)
Definition duplicate_example : list csv_line :=
  [Fields3 "u1" "i1" "3"; Fields3 "u1" "i1" "4"].

(** A count that is not a number, and a line without a count. *)
Definition malformed_example : list csv_line :=
  [Fields3 "u1" "i1" "3"; Fields3 "u2" "i1" "three"].

Definition short_example : list csv_line :=
  [Fields3 "u1" "i1" "3"; Fields2 "u2" "i1"].

(** An empty line between two records. *)
Definition blank_example : list csv_line :=
  [Fields3 "u1" "i1" "3"; Fields1 ""; Fields3 "u2" "i1" "5"].

(** A job identifier with a non-ASCII character, as its utf8 bytes. *)
Definition cafe : string :=
  "caf" +:+ String (Ascii.ascii_of_nat 195) (String (Ascii.ascii_of_nat 169) "").

Definition cafe_example : list csv_line :=
  [Fields3 "u1" cafe "1"; Fields3 "u2" "i1" "2"].

(** Job and user identifiers that are numbers: the jobs 200 and 100 and
    the users 10 and 9. *)
Definition numeric_example : list csv_line :=
  [Fields3 "10" "200" "1"; Fields3 "9" "100" "2"].

(** A job identifier with leading zeros. *)
Definition leading_zero_example : list csv_line :=
  [Fields3 "u1" "007" "1"].

(** The script on a file system with the one source file [applies.csv]. *)
Definition read (lines : list csv_line)
  : @io numpy (@DataFrame numpy * @coo numpy) :=
  @read_data numpy pandas (one_file "applies.csv" lines) "applies.csv".

Definition run (lines : list csv_line) (args : Args) : @io numpy () :=
  @main numpy implicit pandas ascii_only (one_file "applies.csv" lines) args.

Definition args_for (model_name : string) (recommend : bool) : Args :=
  {| inputfile := "applies.csv";
     outputfile := "out.tsv";
     model_arg := model_name;
     recommend_flag := recommend;
     param := None |}.

(** An integer as a float32 value of the instance, and text and integers
    as values of a column. *)
Definition f32 (z : Z) : @float32 numpy := z.
Definition text (s : string) : @cell numpy := CStr s.
Definition int64 (z : Z) : @cell numpy := CInt z.

(** What [read_data] returns on the example of the specification. *)
Definition spec_df : @DataFrame numpy :=
  {| df_user := {| cat_categories := [text "u1"; text "u2"];
                   cat_codes := [0; 0; 1] |};
     df_job := {| cat_categories := [text "i1"; text "i2"];
                  cat_codes := [0; 1; 0] |};
     df_applies := [int64 3; int64 1; int64 5] |}.

Definition spec_applies : @coo numpy :=
  {| coo_shape := (2, 2);
     coo_entries := [(0, 0, f32 3); (1, 0, f32 1); (0, 1, f32 5)] |}.

(** And on the example with a duplicate. *)
Definition duplicate_df : @DataFrame numpy :=
  {| df_user := {| cat_categories := [text "u1"]; cat_codes := [0; 0] |};
     df_job := {| cat_categories := [text "i1"]; cat_codes := [0; 0] |};
     df_applies := [int64 3; int64 4] |}.

Definition duplicate_applies : @coo numpy :=
  {| coo_shape := (1, 1);
     coo_entries := [(0, 0, f32 3); (0, 0, f32 4)] |}.

(** Two items with as many lines each, the larger identifier first. *)
Definition tied_example : list csv_line :=
  [Fields3 "u1" "i2" "1"; Fields3 "u2" "i1" "1"].

Definition tied_df : @DataFrame numpy :=
  {| df_user := {| cat_categories := [text "u1"; text "u2"];
                   cat_codes := [0; 1] |};
     df_job := {| cat_categories := [text "i1"; text "i2"];
                  cat_codes := [1; 0] |};
     df_applies := [int64 1; int64 1] |}.

Definition tied_applies : @coo numpy :=
  {| coo_shape := (2, 2);
     coo_entries := [(1, 0, f32 1); (0, 1, f32 1)] |}.

(** What [read_data] returns on the source with the non-ASCII job. *)
Definition cafe_df : @DataFrame numpy :=
  {| df_user := {| cat_categories := [text "u1"; text "u2"];
                   cat_codes := [0; 1] |};
     df_job := {| cat_categories := [text cafe; text "i1"];
                  cat_codes := [0; 1] |};
     df_applies := [int64 1; int64 2] |}.

Definition cafe_applies : @coo numpy :=
  {| coo_shape := (2, 2);
     coo_entries := [(0, 0, f32 1); (1, 1, f32 2)] |}.

(** And on the source with numbers for identifiers: the categories are
    the numbers in increasing order. *)
Definition numeric_df : @DataFrame numpy :=
  {| df_user := {| cat_categories := [int64 9; int64 10];
                   cat_codes := [1; 0] |};
     df_job := {| cat_categories := [int64 100; int64 200];
                  cat_codes := [1; 0] |};
     df_applies := [int64 1; int64 2] |}.

Definition numeric_applies : @coo numpy :=
  {| coo_shape := (2, 2);
     coo_entries := [(1, 1, f32 1); (0, 0, f32 2)] |}.


(** The trained state of the toy model is the matrix it was fit on. *)
Definition trained (X : @csr numpy) : @fitted numpy implicit := X.

(** The transposed matrix of the example of the specification. *)
Definition spec_user_applies : @csr numpy :=
  {| csr_ncols := 2;
     csr_rows := [[(0, f32 3); (1, f32 1)]; [(0, f32 5)]] |}.

(** A run that asks for the BM25 recommender with an override of K1. *)
Definition override_args : Args :=
  {| inputfile := "applies.csv";
     outputfile := "out.tsv";
     model_arg := "bm25";
     recommend_flag := false;
     param := Some ["K1=5"] |}.

(** The models [get_model] constructs for "cosine", "als" and
    "annoy_als". *)
Definition cosine : Model :=
  {| model_cls := CosineRecommender; model_kwargs := []; model_setattr := [] |}.

Definition als : Model :=
  {| model_cls := AlternatingLeastSquares;
     model_kwargs := [("factors", PyInt 64); ("dtype", PyDtype "float32");
                      ("use_gpu", PyBool false)];
     model_setattr := [] |}.

Definition annoy_als : Model :=
  {| model_cls := AnnoyAlternatingLeastSquares;
     model_kwargs := [("factors", PyInt 64); ("dtype", PyDtype "float32");
                      ("use_gpu", PyBool false)];
     model_setattr := [] |}.
End Toy.

(** * Properties *)

(** ** The effect monad *)

Section io_facts.
Context `{Numpy}.

Lemma bind_raise {A B} (f : A → io B) (m : io A) e :
  outcome m = inl e → m ≫= f = (trace m, inl e).
Proof.
  unfold outcome, trace, mbind, io_mbind, io_bind. by intros ->.
Qed.

Lemma bind_value {A B} (f : A → io B) (m : io A) a :
  outcome m = inr a → m ≫= f = (trace m ++ trace (f a), outcome (f a)).
Proof.
  unfold outcome, trace, mbind, io_mbind, io_bind. by intros ->.
Qed.

Lemma bind_pure {A B} (f : A → io B) (a : A) : mret a ≫= f = f a.
Proof.
  unfold mbind, io_mbind, io_bind, mret, io_ret. simpl. by destruct (f a).
Qed.

Lemma bind_lift_value {A B} (f : A → io B) (a : A) : lift (inr a) ≫= f = f a.
Proof. apply (bind_pure f a). Qed.

Lemma bind_emit {B} (f : () → io B) ev :
  emit ev ≫= f = (ev :: trace (f ()), outcome (f ())).
Proof. done. Qed.
End io_facts.

Ltac io_unfold :=
  unfold trace, outcome, mbind, io_mbind, io_bind, mret, io_ret,
    emit, raise, lift in *; simpl.

(** ** The loader *)

Section loader_facts.
Context `{Implicit} `{!Pandas} `{!Codecs}.
Context (fs : string → option (list csv_line)).

Lemma trace_read_data filename :
  trace (read_data fs filename) = [EvReadCsv filename].
Proof.
  unfold read_data, read_csv; io_unfold.
  destruct (fs filename) as [lines|]; [simpl|done].
  destruct (astype_float32 _) as [e|values]; [done|simpl].
  by destruct (coo_matrix _ _ _) as [e|applies].
Qed.


(** What [read_data] returns, by cases on the count column. *)
Lemma outcome_read_data filename lines :
  fs filename = Some lines →
  outcome (read_data fs filename) =
    match astype_float32 (row_applies <$> frame lines) with
    | inl e => inl e
    | inr values =>
        let user := astype_category (row_user <$> frame lines) in
        let job := astype_category (row_job <$> frame lines) in
        match coo_matrix values (cat_codes job) (cat_codes user) with
        | inl e => inl e
        | inr applies =>
            inr ({| df_user := user; df_job := job;
                    df_applies := row_applies <$> frame lines |}, applies)
        end
    end.
Proof.
  intros Hfs. unfold read_data, read_csv; io_unfold. rewrite Hfs. simpl.
  destruct (astype_float32 _) as [e|values]; [done|simpl].
  by destruct (coo_matrix _ _ _) as [e|applies].
Qed.
End loader_facts.

(** ** Unknown model names *)

Section unknown_model.
Context `{Implicit} `{!Pandas} `{!Codecs}.
Context (fs : string → option (list csv_line)).

Lemma get_model_unknown name :
  dict_get MODELS name = None →
  get_model name = inl (ValueError_unknown_model name).
Proof. unfold get_model. by intros ->. Qed.

(** With a name outside the registry both generators stop at [get_model],
    which comes after [read_data]. *)
Lemma similar_jobs_unknown input output name :
  dict_get MODELS name = None →
  calculate_similar_jobs fs input output name =
    ([EvReadCsv input],
     match outcome (read_data fs input) with
     | inl e => inl e
     | inr _ => inl (ValueError_unknown_model name)
     end).
Proof.
  intros Hname. unfold calculate_similar_jobs.
  pose proof (trace_read_data fs input) as Ht.
  destruct (read_data fs input) as [t [e|[df X]]];
    cbv [trace] in Ht; simpl in Ht; subst t; io_unfold; [done|].
  by rewrite (get_model_unknown _ Hname).
Qed.

Lemma recommendations_unknown input output name :
  dict_get MODELS name = None →
  calculate_recommendations fs input output name =
    ([EvReadCsv input],
     match outcome (read_data fs input) with
     | inl e => inl e
     | inr _ => inl (ValueError_unknown_model name)
     end).
Proof.
  intros Hname. unfold calculate_recommendations.
  pose proof (trace_read_data fs input) as Ht.
  destruct (read_data fs input) as [t [e|[df X]]];
    cbv [trace] in Ht; simpl in Ht; subst t; io_unfold; [done|].
  by rewrite (get_model_unknown _ Hname).
Qed.

Lemma main_unknown args :
  dict_get MODELS (model_arg args) = None →
  main fs args =
    ([EvReadCsv (inputfile args)],
     match outcome (read_data fs (inputfile args)) with
     | inl e => inl e
     | inr _ => inl (ValueError_unknown_model (model_arg args))
     end).
Proof.
  intros Hname. unfold main. destruct (recommend_flag args);
    auto using similar_jobs_unknown, recommendations_unknown.
Qed.

(** C4 (as amended): with a model name outside the registry the run reads
    the input first and then stops: its only event is the read of the input
    file; when the input loads the run ends with the unknown-model error,
    and when it does not the run ends with the loader's error. *)
Theorem unknown_model_fails_after_read args :
  dict_get MODELS (model_arg args) = None →
  trace (main fs args) = [EvReadCsv (inputfile args)] ∧
  (∀ r, outcome (read_data fs (inputfile args)) = inr r →
        outcome (main fs args)
        = inl (ValueError_unknown_model (model_arg args))) ∧
  (∀ e, outcome (read_data fs (inputfile args)) = inl e →
        outcome (main fs args) = inl e).
Proof.
  intros Hname. rewrite (main_unknown _ Hname). unfold trace, outcome. simpl.
  split_and!; [done|..]; by intros ? ->.
Qed.

(** C5: with a model name outside the registry the run fails and no output
    file is opened, in either mode. *)
Theorem unknown_model_opens_no_output args :
  dict_get MODELS (model_arg args) = None →
  (∃ e, outcome (main fs args) = inl e) ∧
  ∀ filename, EvOpen filename ∉ trace (main fs args).
Proof.
  intros Hname. rewrite (main_unknown _ Hname). unfold trace, outcome. simpl.
  split.
  - destruct (read_data fs (inputfile args)).2; eauto.
  - intros filename Hin. apply list_elem_of_singleton in Hin. done.
Qed.

(** The [--param] values never reach the pipeline. *)
Lemma main_ignores_param args p :
  main fs {| inputfile := inputfile args; outputfile := outputfile args;
             model_arg := model_arg args; recommend_flag := recommend_flag args;
             param := p |} = main fs args.
Proof. done. Qed.
End unknown_model.

(** ** Loops and the events of the report stage *)

Section loops.
Context `{Numpy}.

Lemma trace_bind {A B} (f : A → io B) (m : io A) :
  trace (m ≫= f) =
    trace m ++ match outcome m with inr a => trace (f a) | inl _ => [] end.
Proof.
  destruct m as [t [e|a]]; io_unfold; [by rewrite app_nil_r|done].
Qed.

Lemma Forall_trace_bind {A B} (P : event → Prop) (f : A → io B) (m : io A) :
  Forall P (trace m) → (∀ a, Forall P (trace (f a))) →
  Forall P (trace (m ≫= f)).
Proof.
  intros Hm Hf. rewrite trace_bind. apply Forall_app. split; [done|].
  destruct (outcome m); [constructor|apply Hf].
Qed.

Lemma Forall_trace_for {A} (P : event → Prop) (l : list A)
    (body : A → io unit) :
  (∀ x, Forall P (trace (body x))) → Forall P (trace (for_ l body)).
Proof.
  intros Hbody. induction l as [|x l IH]; simpl; [constructor|].
  apply (Forall_trace_bind P (λ _, for_ l body) (body x)); auto.
Qed.

(** A loop whose body always returns normally runs to the end. *)
Lemma for_all_return {A} (l : list A) (body : A → io unit) :
  (∀ x, x ∈ l → outcome (body x) = inr ()) →
  for_ l body = (l ≫= (λ x, trace (body x)), inr ()).
Proof.
  induction l as [|x l IH]; intros Hbody; simpl; [done|].
  change (io_bind (λ _, for_ l body) (body x))
    with (body x ≫= (λ _, for_ l body)).
  rewrite (bind_value _ _ ()) by (apply Hbody; left).
  rewrite IH by (intros y Hy; apply Hbody; by right).
  done.
Qed.
End loops.

(** ** The stages of the two generators *)

Section stages.
Context `{Implicit} `{!Pandas} `{!Codecs}.
Context (fs : string → option (list csv_line)).

Lemma weight_and_fit_eq m X :
  weight_and_fit m X =
    ([EvFit (weigh m X).2 (tocsr (weigh m X).1)],
     match fit (weigh m X).2 (tocsr (weigh m X).1) with
     | None => inl FitError
     | Some fm => inr (fm, tocsr (weigh m X).1)
     end).
Proof.
  unfold weight_and_fit. destruct (weigh m X) as [X' m']. io_unfold.
  by destruct (fit m' (tocsr X')).
Qed.

Lemma calculate_similar_jobs_eq input output name df X m :
  outcome (read_data fs input) = inr (df, X) →
  get_model name = inr m →
  calculate_similar_jobs fs input output name =
    match fit (weigh m X).2 (tocsr (weigh m X).1) with
    | None =>
        ([EvReadCsv input; EvFit (weigh m X).2 (tocsr (weigh m X).1)],
         inl FitError)
    | Some fm =>
        ([EvReadCsv input; EvFit (weigh m X).2 (tocsr (weigh m X).1)]
           ++ trace (write_similar_jobs df fm output),
         outcome (write_similar_jobs df fm output))
    end.
Proof.
  intros Hread Hmodel. unfold calculate_similar_jobs.
  rewrite (bind_value _ _ _ Hread), trace_read_data, Hmodel.
  rewrite bind_lift_value, weight_and_fit_eq.
  destruct (fit _ _) as [fm|]; io_unfold; done.
Qed.

Lemma calculate_recommendations_eq input output name df X m :
  outcome (read_data fs input) = inr (df, X) →
  get_model name = inr m →
  calculate_recommendations fs input output name =
    match fit (weigh m X).2 (tocsr (weigh m X).1) with
    | None =>
        ([EvReadCsv input; EvFit (weigh m X).2 (tocsr (weigh m X).1)],
         inl FitError)
    | Some fm =>
        ([EvReadCsv input; EvFit (weigh m X).2 (tocsr (weigh m X).1)]
           ++ trace (write_recommendations df fm (tocsr (weigh m X).1) output),
         outcome (write_recommendations df fm (tocsr (weigh m X).1) output))
    end.
Proof.
  intros Hread Hmodel. unfold calculate_recommendations.
  rewrite (bind_value _ _ _ Hread), trace_read_data, Hmodel.
  rewrite bind_lift_value, weight_and_fit_eq.
  destruct (fit _ _) as [fm|]; io_unfold; done.
Qed.

Lemma report_event_write line : Forall report_event (trace (write line)).
Proof.
  unfold write. destruct (encodable line); io_unfold; repeat constructor.
Qed.

Lemma report_event_getitem jobs k :
  Forall report_event (trace (getitem jobs k)).
Proof. unfold getitem. destruct (dict_lookup jobs k); constructor. Qed.

Lemma report_event_emit ev :
  report_event ev → Forall report_event (trace (emit ev)).
Proof. by repeat constructor. Qed.

(** Computing the keys of the sort performs no event. *)
Lemma trace_popularity_key index user_count x :
  trace (popularity_key index user_count x) = [].
Proof.
  unfold popularity_key, series_getitem.
  destruct (existsb numeric index).
  - destruct (get_loc index x) as [p|]; [|done].
    by destruct (user_count !! p).
  - by destruct (user_count !! x).
Qed.

Lemma trace_mapM_silent {A B} (f : A → io B) l :
  (∀ x, trace (f x) = []) → trace (mapM f l) = [].
Proof.
  intros Hf. induction l as [|x l IH]; [done|].
  change (mapM f (x :: l)) with (y ← f x; k ← mapM f l; mret (y :: k)).
  rewrite trace_bind, Hf. destruct (outcome (f x)); [done|].
  cbn [app]. rewrite trace_bind, IH. by destruct (outcome _).
Qed.

Lemma trace_popularity_keys index user_count l :
  trace (mapM (popularity_key index user_count) l) = [].
Proof. apply trace_mapM_silent, trace_popularity_key. Qed.

Local Ltac report_events :=
  repeat first
    [ apply report_event_write
    | apply report_event_getitem
    | apply report_event_emit; exact I
    | apply Forall_trace_for; intros ?
    | apply Forall_trace_bind; [|intros ?] ].

Lemma report_events_similar_jobs df fm output :
  Forall report_event (trace (write_similar_jobs df fm output)).
Proof.
  unfold write_similar_jobs. apply Forall_trace_bind.
  { rewrite trace_popularity_keys. constructor. }
  intros keys. cbv zeta. report_events.
  match goal with p : (nat * score)%type |- _ => destruct p as [other sc] end.
  change (trace (try_pass ?m)) with (trace m). report_events.
Qed.

Lemma report_events_user_block jobs fm UA userid username :
  Forall report_event (trace (write_user_block jobs fm UA userid username)).
Proof.
  unfold write_user_block. report_events.
  - match goal with p : (nat * score)%type |- _ => destruct p as [jobid sc] end.
    report_events.
  - destruct (row_indices UA userid); constructor.
Qed.

Lemma report_events_recommendations df fm M output :
  Forall report_event (trace (write_recommendations df fm M output)).
Proof.
  unfold write_recommendations. cbv zeta. report_events.
  match goal with
  | p : (nat * cell)%type |- _ => destruct p as [userid username]
  end.
  apply report_events_user_block.
Qed.

Lemma fit_calls_report_events t :
  Forall report_event t → fit_calls t = [].
Proof.
  unfold fit_calls. induction 1 as [|e t He _ IH]; [done|].
  destruct e; simpl in *; try done.
Qed.

Lemma fit_calls_app t1 t2 : fit_calls (t1 ++ t2) = fit_calls t1 ++ fit_calls t2.
Proof. apply omap_app. Qed.

(** The one call of [fit] in a run that gets as far as training. *)
Lemma fit_calls_main args df X m :
  outcome (read_data fs (inputfile args)) = inr (df, X) →
  get_model (model_arg args) = inr m →
  fit_calls (trace (main fs args)) =
    [((weigh m X).2, tocsr (weigh m X).1)].
Proof.
  intros Hread Hmodel. unfold main.
  destruct (recommend_flag args).
  - rewrite (calculate_recommendations_eq _ _ _ _ _ _ Hread Hmodel).
    destruct (fit _ _) as [fm|]; [|done].
    unfold trace at 1. cbn [fst]. rewrite fit_calls_app.
    by rewrite (fit_calls_report_events _ (report_events_recommendations _ _ _ _)).
  - rewrite (calculate_similar_jobs_eq _ _ _ _ _ _ Hread Hmodel).
    destruct (fit _ _) as [fm|]; [|done].
    unfold trace at 1. cbn [fst]. rewrite fit_calls_app.
    by rewrite (fit_calls_report_events _ (report_events_similar_jobs _ _ _)).
Qed.

Lemma get_model_setattr name m :
  get_model name = inr m → model_setattr m = [].
Proof.
  unfold get_model. destruct (dict_get MODELS name); [|done]. by intros [= <-].
Qed.

Lemma getattr_setattr_ne m name v name' :
  name' ≠ name → getattr (setattr m name v) name' = getattr m name'.
Proof.
  intros Hne. unfold getattr, setattr. cbn [model_setattr dict_get].
  by rewrite decide_False by done.
Qed.

(** C3 (as amended): in either mode the one call of [fit] receives, for a
    model of the factorization family, the matrix weighted by [bm25_weight]
    with K1=100 and B=0.8 and then converted, on the model as constructed
    but for one assignment: its [approximate_recommend] attribute is
    [False], and every other attribute, any other approximate flag of the
    class included, has the value it had on the constructed model. For
    every other model [fit] receives the converted raw matrix and the model
    as constructed, with no attribute assigned. *)
Theorem weighting_only_for_factorization args df X m :
  outcome (read_data fs (inputfile args)) = inr (df, X) →
  get_model (model_arg args) = inr m →
  (issubclass_ALS (model_cls m) = true →
     ∃ m', fit_calls (trace (main fs args))
           = [(m', tocsr (bm25_weight X 100 (4 # 5)))] ∧
           model_cls m' = model_cls m ∧
           model_kwargs m' = model_kwargs m ∧
           model_setattr m' = [("approximate_recommend", PyBool false)] ∧
           getattr m' "approximate_recommend" = Some (PyBool false) ∧
           ∀ name, name ≠ "approximate_recommend" →
                   getattr m' name = getattr m name) ∧
  (issubclass_ALS (model_cls m) = false →
     fit_calls (trace (main fs args)) = [(m, tocsr X)] ∧
     model_setattr m = []).
Proof.
  intros Hread Hmodel.
  rewrite (fit_calls_main _ _ _ _ Hread Hmodel). unfold weigh.
  pose proof (get_model_setattr _ _ Hmodel) as Hattr.
  split; intros ->; [|done].
  eexists. split; [done|]. cbn [snd]. split_and!; [done|done|..].
  - unfold setattr. cbn [model_setattr]. by rewrite Hattr.
  - done.
  - intros name Hne. by apply getattr_setattr_ne.
Qed.
End stages.

(** ** The loader, continued: counts and categories *)

Section frame_facts.
Context `{Pandas}.

Lemma zip_rows (us js cs : list cell) :
  length us = length js → length js = length cs →
  let rows := (λ r : cell * cell * cell,
                 {| row_user := r.1.1; row_job := r.1.2; row_applies := r.2 |})
                <$> zip (zip us js) cs in
  row_user <$> rows = us ∧ row_job <$> rows = js ∧
  row_applies <$> rows = cs.
Proof.
  revert js cs. induction us as [|u us IH]; intros [|j js] [|c cs] [=] [=];
    [done|].
  destruct (IH js cs) as (Hu & Hj & Hc); [done..|].
  cbv zeta in *. csimpl. by rewrite Hu, Hj, Hc.
Qed.

Lemma frame_columns lines :
  row_user <$> frame lines = infer (field_user <$> records lines) ∧
  row_job <$> frame lines = infer (field_job <$> records lines) ∧
  row_applies <$> frame lines = infer (field_applies <$> records lines).
Proof. apply zip_rows; by rewrite !infer_length, !length_fmap. Qed.

Lemma row_user_frame lines :
  row_user <$> frame lines = infer (field_user <$> records lines).
Proof. apply frame_columns. Qed.

Lemma row_job_frame lines :
  row_job <$> frame lines = infer (field_job <$> records lines).
Proof. apply frame_columns. Qed.

Lemma row_applies_frame lines :
  row_applies <$> frame lines = infer (field_applies <$> records lines).
Proof. apply frame_columns. Qed.

Lemma length_frame lines : length (frame lines) = length (records lines).
Proof.
  rewrite <-(length_fmap row_user), row_user_frame, infer_length.
  by rewrite length_fmap.
Qed.

(** In a frame whose user and job columns were read as text, the rows
    are the records, field by field. *)
Lemma frame_text_lookup lines k r :
  read_as_text (field_user <$> records lines) →
  read_as_text (field_job <$> records lines) →
  frame lines !! k = Some r →
  ∃ l, records lines !! k = Some l ∧
       row_user r = CStr (field_user l) ∧ row_job r = CStr (field_job l).
Proof.
  intros Hu Hj Hr.
  assert (is_Some (records lines !! k)) as [l Hl].
  { apply lookup_lt_is_Some. rewrite <-length_frame.
    by eapply lookup_lt_Some. }
  exists l. split; [done|]. split.
  - assert ((row_user <$> frame lines) !! k = Some (row_user r)) as Hk
      by by rewrite list_lookup_fmap, Hr.
    rewrite row_user_frame, Hu, !list_lookup_fmap, Hl in Hk. by injection Hk.
  - assert ((row_job <$> frame lines) !! k = Some (row_job r)) as Hk
      by by rewrite list_lookup_fmap, Hr.
    rewrite row_job_frame, Hj, !list_lookup_fmap, Hl in Hk. by injection Hk.
Qed.

Lemma frame_text_elem lines cu cj :
  read_as_text (field_user <$> records lines) →
  read_as_text (field_job <$> records lines) →
  (∃ r, r ∈ frame lines ∧ row_user r = cu ∧ row_job r = cj) ↔
  ∃ l, l ∈ records lines ∧
       cu = CStr (field_user l) ∧ cj = CStr (field_job l).
Proof.
  intros Hu Hj. split.
  - intros (r & [k Hk]%list_elem_of_lookup_1 & <- & <-).
    destruct (frame_text_lookup _ _ _ Hu Hj Hk) as (l & Hl & Hlu & Hlj).
    exists l. split; [by eapply list_elem_of_lookup_2|done].
  - intros (l & [k Hk]%list_elem_of_lookup_1 & -> & ->).
    assert (is_Some (frame lines !! k)) as [r Hr].
    { apply lookup_lt_is_Some. rewrite length_frame.
      by eapply lookup_lt_Some. }
    destruct (frame_text_lookup _ _ _ Hu Hj Hr) as (l' & Hl' & Hlu & Hlj).
    rewrite Hk in Hl'. injection Hl' as <-.
    exists r. split; [by eapply list_elem_of_lookup_2|done].
Qed.
End frame_facts.

Section counts.
Context `{Implicit} `{!Pandas} `{!Codecs}.
Context (fs : string → option (list csv_line)).

Lemma astype_float32_inr col values :
  astype_float32 col = inr values ↔
  Forall2 (λ c v, cell_to_float32 c = Some v) col values.
Proof.
  revert values. induction col as [|s col IH]; intros values; simpl.
  { split; intros Hf.
    - injection Hf as <-. constructor.
    - by inv Hf. }
  split.
  - destruct (cell_to_float32 s) as [v|] eqn:Hs; [|done].
    destruct (astype_float32 col) as [e|vs]; [done|].
    intros [= <-]. constructor; [done|]. by apply IH.
  - intros Hf. inv Hf as [|? v ? vs Hs Hcol]. rewrite Hs.
    apply IH in Hcol. by rewrite Hcol.
Qed.

Lemma astype_float32_inl col :
  Exists (λ c, cell_to_float32 c = None) col →
  ∃ c, astype_float32 col = inl (ValueError_float (str c)) ∧
       cell_to_float32 c = None ∧ c ∈ col.
Proof.
  induction col as [|s col IH]; [by inv 1|]. intros Hex. simpl.
  destruct (cell_to_float32 s) as [v|] eqn:Hs.
  - destruct IH as (s' & -> & Hs' & Hin); [|exists s'; by repeat constructor].
    inv Hex; first [congruence|done].
  - exists s. split_and!; [done..|left].
Qed.

Lemma astype_float32_Forall col :
  Forall (λ c, is_Some (cell_to_float32 c)) col →
  ∃ values, astype_float32 col = inr values.
Proof.
  induction 1 as [|s col [v Hs] _ [vs IH]]; simpl; [eauto|].
  rewrite Hs, IH. eauto.
Qed.

Lemma Forall2_zip_snd {A B C} (P : A → C → Prop)
    (l : list A) (cs : list B) (vs : list C) :
  Forall2 P l vs → length cs = length l →
  Forall2 (λ a e, P a e.2) l (zip cs vs).
Proof.
  intros Hv. revert cs.
  induction Hv as [|a v l vs Ha _ IH]; intros [|c cs] [=]; simpl;
    constructor; auto.
Qed.

Lemma length_cat_codes col :
  length (cat_codes (astype_category col)) = length col.
Proof. unfold astype_category. simpl. by rewrite length_map. Qed.

(** What a successful [read_data] has returned. *)
Lemma read_data_inr filename lines df X :
  fs filename = Some lines →
  outcome (read_data fs filename) = inr (df, X) →
  frame lines ≠ [] ∧
  df = {| df_user := astype_category (row_user <$> frame lines);
          df_job := astype_category (row_job <$> frame lines);
          df_applies := row_applies <$> frame lines |} ∧
  ∃ values,
    Forall2 (λ l v, cell_to_float32 (row_applies l) = Some v)
            (frame lines) values ∧
    X = {| coo_shape := (S (max_list (cat_codes (df_job df))),
                         S (max_list (cat_codes (df_user df))));
           coo_entries := zip (zip (cat_codes (df_job df))
                                   (cat_codes (df_user df))) values |}.
Proof.
  intros Hfs. rewrite (outcome_read_data _ _ _ Hfs).
  destruct (astype_float32 _) as [e|values] eqn:Hvalues; [done|].
  apply astype_float32_inr, Forall2_fmap_l in Hvalues.
  unfold coo_matrix. destruct values as [|v values]; [done|].
  intros [= <- <-]. split_and!; [|done|eauto].
  intros Hnil. rewrite Hnil in Hvalues. by inv Hvalues.
Qed.

(** A count column with a field that does not convert, read as text. *)
Lemma read_data_text_count filename lines :
  fs filename = Some lines →
  read_as_text (field_applies <$> records lines) →
  (∃ s, s ∈ field_applies <$> records lines ∧ to_float32 s = None) →
  ∃ s, outcome (read_data fs filename) = inl (ValueError_float s) ∧
       s ∈ field_applies <$> records lines ∧ to_float32 s = None.
Proof.
  intros Hfs Htext (s & Hs & Hnone). rewrite (outcome_read_data _ _ _ Hfs).
  destruct (astype_float32_inl (row_applies <$> frame lines))
    as (c & -> & Hc & Hin).
  { rewrite row_applies_frame, Htext. apply Exists_exists.
    exists (CStr s). split; [by apply list_elem_of_fmap_2|done]. }
  rewrite row_applies_frame, Htext in Hin.
  apply list_elem_of_fmap in Hin as (s' & -> & Hs'). eauto.
Qed.

(** A source whose lines are all blank gives [coo_matrix] nothing to infer
    a shape from. *)
Lemma read_data_no_records filename lines :
  fs filename = Some lines → records lines = [] →
  outcome (read_data fs filename) = inl ValueError_empty.
Proof.
  intros Hfs Hnil. rewrite (outcome_read_data _ _ _ Hfs).
  assert (frame lines = []) as ->; [|done].
  apply nil_length_inv. by rewrite length_frame, Hnil.
Qed.

(** C7 (as amended): the loader substitutes no default count, and the only
    lines it skips are the blank ones. A line that is not blank and lacks
    the count (the field is read as the empty string) makes the loader
    raise the conversion error, and so does a field that is not a number
    in a count column read as text. When a line is not blank and every
    value of the count column converts, the loader returns and the matrix
    has one entry per line that is not blank, in file order, holding the
    converted count of that line. A source of blank lines only makes the
    loader raise, as a source without lines does. *)
Theorem read_data_needs_every_count filename lines :
  fs filename = Some lines →
  let counts := field_applies <$> records lines in
  ("" ∈ counts →
     ∃ s, outcome (read_data fs filename) = inl (ValueError_float s) ∧
          s ∈ counts ∧ to_float32 s = None) ∧
  (read_as_text counts → (∃ s, s ∈ counts ∧ to_float32 s = None) →
     ∃ s, outcome (read_data fs filename) = inl (ValueError_float s) ∧
          s ∈ counts ∧ to_float32 s = None) ∧
  (records lines ≠ [] →
   Forall (λ c, is_Some (cell_to_float32 c)) (infer counts) →
     ∃ df X, outcome (read_data fs filename) = inr (df, X) ∧
             length (coo_entries X) = length (records lines) ∧
             Forall2 (λ c e, cell_to_float32 c = Some e.2)
                     (infer counts) (coo_entries X)) ∧
  (records lines = [] →
     outcome (read_data fs filename) = inl ValueError_empty).
Proof.
  intros Hfs counts. split_and!.
  - intros Hempty. apply (read_data_text_count _ _ Hfs).
    + by apply infer_empty_field.
    + exists "". split; [done|apply to_float32_empty].
  - apply (read_data_text_count _ _ Hfs).
  - intros Hne Hall.
    destruct (astype_float32_Forall (row_applies <$> frame lines))
      as [values Hv].
    { by rewrite row_applies_frame. }
    pose proof (outcome_read_data _ _ _ Hfs) as Hout. rewrite Hv in Hout.
    apply astype_float32_inr in Hv. rewrite row_applies_frame in Hv.
    pose proof (Forall2_length _ _ _ Hv) as Hlen.
    rewrite infer_length, length_fmap in Hlen.
    unfold coo_matrix in Hout. destruct values as [|v values].
    { destruct (records lines); [done|discriminate Hlen]. }
    cbv zeta in Hout. eexists _, _. split; [exact Hout|]. simpl coo_entries.
    split.
    + rewrite ?length_zip, ?length_map, ?length_fmap, ?length_frame. lia.
    + apply (Forall2_zip_snd (λ c v, cell_to_float32 c = Some v)); [done|].
      rewrite length_zip_with, ?length_map, ?length_fmap, ?length_frame.
      unfold counts. rewrite infer_length, length_fmap. lia.
  - by apply read_data_no_records.
Qed.
End counts.

(** ** Categories, dicts and counts *)

Global Instance cell_le_transitive `{Numpy} : Transitive cell_le.
Proof.
  intros [s1|z1|x1|[]] [s2|z2|x2|[]] [s3|z3|x3|[]]; unfold cell_le; simpl;
    try done; try lia.
  - apply (transitivity (R:=String.le)).
  - apply (transitivity (R:=f64_le)).
Qed.

Global Instance cell_le_total `{Numpy} : Total cell_le.
Proof.
  intros [s1|z1|x1|[]] [s2|z2|x2|[]]; unfold cell_le; simpl;
    try (left; done); try (right; done); try lia.
  - apply (total String.le).
  - apply (total f64_le).
Qed.

Section categories.
Context `{Pandas}.

Lemma categories_Permutation col :
  cat_categories (astype_category col) ≡ₚ remove_dups col.
Proof. apply merge_sort_Permutation. Qed.

Lemma categories_NoDup col : NoDup (cat_categories (astype_category col)).
Proof. rewrite categories_Permutation. apply NoDup_remove_dups. Qed.

Lemma elem_of_categories col x :
  x ∈ cat_categories (astype_category col) ↔ x ∈ col.
Proof. rewrite categories_Permutation. apply elem_of_remove_dups. Qed.

Lemma cat_code_lookup cats x :
  x ∈ cats → cats !! cat_code cats x = Some x.
Proof.
  induction cats as [|c cats IH]; [by inv 1|]. intros Hx. simpl.
  destruct (decide (c = x)) as [->|Hne]; [done|].
  apply IH. by inv Hx.
Qed.

Lemma cat_code_of_lookup cats i x :
  NoDup cats → cats !! i = Some x → cat_code cats x = i.
Proof.
  intros Hnd. revert i. induction Hnd as [|c cats Hc _ IH]; intros [|i] Hi;
    simplify_eq/=.
  - by rewrite decide_True.
  - rewrite decide_False; [by rewrite (IH i)|].
    intros ->. apply Hc. by eapply list_elem_of_lookup_2.
Qed.

(** The code of a value of the column is [j] exactly when the value is the
    label of [j]. *)
Lemma cat_code_iff col x j :
  x ∈ col →
  cat_code (cat_categories (astype_category col)) x = j ↔
  cat_categories (astype_category col) !! j = Some x.
Proof.
  intros Hx. split.
  - intros <-. by apply cat_code_lookup, elem_of_categories.
  - apply cat_code_of_lookup, categories_NoDup.
Qed.

Lemma dict_lookup_imap {A} (l : list A) n k :
  dict_lookup (imap (λ i x, (n + i, x)) l) (n + k) = l !! k.
Proof.
  revert n k. induction l as [|x l IH]; intros n k; [done|].
  rewrite imap_cons. simpl. destruct k as [|k].
  - by rewrite decide_True by lia.
  - rewrite decide_False by lia. simpl.
    rewrite (imap_ext _ (λ i x, (S n + i, x))) by (intros; simpl; f_equal; lia).
    replace (n + S k) with (S n + k) by lia. apply IH.
Qed.

Lemma dict_lookup_enumerate {A} (l : list A) k :
  dict_lookup (enumerate l) k = l !! k.
Proof. apply (dict_lookup_imap l 0 k). Qed.

Lemma fst_enumerate {A} (l : list A) : (enumerate l).*1 = seq 0 (length l).
Proof.
  unfold enumerate. rewrite fmap_imap.
  rewrite (imap_ext _ (λ j _, j)) by done. rewrite imap_seq_0.
  by rewrite list_fmap_id.
Qed.

Lemma lookup_groupby_size c j :
  j < length (cat_categories c) →
  groupby_size c !! j = Some (length (filter (λ code, code = j) (cat_codes c))).
Proof.
  intros Hj. unfold groupby_size. change (map ?f ?l) with (f <$> l).
  by rewrite list_lookup_fmap, lookup_seq_lt.
Qed.

Lemma count_codes cats (rows : list row) j :
  NoDup cats → (∀ l, l ∈ rows → row_job l ∈ cats) →
  length (filter (λ code, code = j) (map (cat_code cats) (row_job <$> rows)))
  = item_popularity rows cats j.
Proof.
  intros Hnd Hin. unfold item_popularity.
  induction rows as [|l rows IH]; [done|].
  rewrite fmap_cons. change (map ?f (?x :: ?l)) with (f x :: map f l).
  rewrite !filter_cons.
  assert (cat_code cats (row_job l) = j ↔ cats !! j = Some (row_job l))
    as Hiff.
  { split; [intros <-; apply cat_code_lookup, Hin; left|].
    by apply cat_code_of_lookup. }
  specialize (IH (λ l' Hl', Hin l' (list_elem_of_further _ _ _ Hl'))).
  destruct (decide (cat_code _ (row_job l) = j)) as [Hc|Hc];
    destruct (decide (_ !! j = Some (row_job l))) as [Hl|Hl];
    simpl; rewrite ?IH; try done.
  - by apply Hiff in Hc.
  - by apply Hiff in Hl.
Qed.

(** [groupby('job').size()] counts the rows of every item. *)
Lemma groupby_size_popularity (rows : list row) j :
  length (filter (λ code, code = j)
                 (cat_codes (astype_category (row_job <$> rows))))
  = item_popularity rows
      (cat_categories (astype_category (row_job <$> rows))) j.
Proof.
  apply count_codes; [apply categories_NoDup|].
  intros l Hl. by apply elem_of_categories, list_elem_of_fmap_2.
Qed.
End categories.

(** ** The similarity report *)

Global Instance key_le_transitive : Transitive key_le.
Proof. intros a b c. unfold key_le. lia. Qed.

Global Instance key_le_total : Total key_le.
Proof. intros a b. unfold key_le. lia. Qed.

Section similarity_order.
Context `{Numpy}.

Lemma insert_by_key_Permutation p l : insert_by_key p l ≡ₚ p :: l.
Proof.
  induction l as [|q l IH]; [done|]. simpl.
  destruct (decide (key_le p q)); [done|]. by rewrite IH, Permutation_swap.
Qed.

Lemma stable_sort_Permutation l : foldr insert_by_key [] l ≡ₚ l.
Proof.
  induction l as [|p l IH]; [done|]. simpl.
  by rewrite insert_by_key_Permutation, IH.
Qed.

Lemma sorted_by_key_Permutation keys xs :
  length keys = length xs → sorted_by_key keys xs ≡ₚ xs.
Proof.
  intros Hlen. unfold sorted_by_key.
  rewrite stable_sort_Permutation, snd_zip by lia. done.
Qed.

Lemma insert_by_key_sorted p l :
  StronglySorted key_le l → StronglySorted key_le (insert_by_key p l).
Proof.
  induction 1 as [|q l Hl IH Hq]; simpl; [repeat constructor|].
  destruct (decide (key_le p q)) as [Hle|Hgt].
  - constructor; [by constructor|]. constructor; [done|].
    eapply Forall_impl; [exact Hq|]. intros r Hr. by etrans.
  - constructor; [done|]. rewrite insert_by_key_Permutation.
    constructor; [|done]. by destruct (total key_le p q).
Qed.

Lemma stable_sort_sorted l : StronglySorted key_le (foldr insert_by_key [] l).
Proof.
  induction l; simpl; [constructor|]. by apply insert_by_key_sorted.
Qed.

(** Sorting by a key that is a function of the element orders the elements
    by that function. *)
Lemma sorted_by_key_sorted (key : nat → Z) xs :
  StronglySorted (λ i j, (key i ≤ key j)%Z) (sorted_by_key (key <$> xs) xs).
Proof.
  unfold sorted_by_key.
  pose proof (stable_sort_sorted (zip (key <$> xs) xs)) as Hs.
  assert (Forall (λ p, p.1 = key p.2)
                 (foldr insert_by_key [] (zip (key <$> xs) xs))) as Hk.
  { rewrite stable_sort_Permutation. clear. induction xs; constructor; auto. }
  induction Hs as [|p l _ IH Hp]; [constructor|].
  apply Forall_cons in Hk as [Hkp Hkl].
  rewrite fmap_cons. constructor; [auto|].
  apply Forall_fmap, Forall_forall. intros q Hq.
  rewrite Forall_forall in Hp, Hkl.
  specialize (Hp q Hq). specialize (Hkl q Hq).
  unfold key_le in Hp. simpl. congruence.
Qed.

Lemma StronglySorted_weaken {A} (R1 R2 : relation A) l :
  (∀ x y, R1 x y → R2 x y) → StronglySorted R1 l → StronglySorted R2 l.
Proof.
  intros HR. induction 1 as [|x l _ IH Hx]; constructor; [done|].
  eapply Forall_impl; [exact Hx|]. auto.
Qed.

Lemma popularity_order_Permutation c :
  popularity_order c ≡ₚ seq 0 (length (cat_categories c)).
Proof.
  apply sorted_by_key_Permutation. by rewrite length_fmap.
Qed.

Lemma popularity_order_lt c j :
  j ∈ popularity_order c → j < length (cat_categories c).
Proof.
  rewrite popularity_order_Permutation, elem_of_seq. lia.
Qed.

Lemma popularity_order_sorted c :
  StronglySorted
    (λ i j, length (filter (λ code, code = j) (cat_codes c))
            ≤ length (filter (λ code, code = i) (cat_codes c)))
    (popularity_order c).
Proof.
  unfold popularity_order.
  eapply StronglySorted_weaken; [|apply sorted_by_key_sorted].
  intros i j. simpl. lia.
Qed.
End similarity_order.

Section similarity_report.
Context `{Implicit} `{!Pandas} `{!Codecs}.
Context (fs : string → option (list csv_line)).

Lemma mapM_io_pure {A B} (f : A → io B) (g : A → B) l :
  (∀ x, x ∈ l → f x = mret (g x)) → mapM f l = mret (g <$> l).
Proof.
  induction l as [|x l IH]; intros Hf; [done|].
  change (mapM f (x :: l)) with (y ← f x; k ← mapM f l; mret (y :: k)).
  rewrite Hf by left. rewrite bind_pure.
  rewrite IH by (intros; apply Hf; by right). by rewrite bind_pure.
Qed.

(** In an index that is read by position every key of the sort is
    found. *)
Lemma popularity_key_position index user_count x n :
  existsb numeric index = false →
  user_count !! x = Some n →
  popularity_key index user_count x = mret (- Z.of_nat n)%Z.
Proof.
  unfold popularity_key, series_getitem. intros -> ->. by rewrite bind_pure.
Qed.

Lemma popularity_keys_eq c :
  existsb numeric (cat_categories c) = false →
  mapM (popularity_key (cat_categories c) (groupby_size c))
       (seq 0 (length (cat_categories c)))
  = mret ((λ x, (- Z.of_nat (length (filter (λ code, code = x) (cat_codes c))))%Z)
            <$> seq 0 (length (cat_categories c))).
Proof.
  intros Hpos. apply mapM_io_pure. intros x Hx. apply elem_of_seq in Hx.
  apply popularity_key_position; [done|]. apply lookup_groupby_size. lia.
Qed.

Lemma getitem_Some jobs k label :
  dict_lookup jobs k = Some label → getitem jobs k = mret label.
Proof. unfold getitem. by intros ->. Qed.

(** The inner loop never raises: a line that cannot be formatted or encoded
    is dropped. *)
Lemma similar_inner_eq jobs (job : cell) neighbours :
  for_ neighbours (λ '(other, score),
    try_pass (other_job ← getitem jobs other;
              write (fmt3 (str job) (str other_job) (show_score score))))
  = (EvWrite <$> similar_lines jobs (str job) neighbours, inr ()).
Proof.
  induction neighbours as [|[other sc] l IH]; [done|].
  cbn [for_]. rewrite IH. unfold similar_lines. cbn [omap list_omap fst snd].
  unfold getitem. destruct (dict_lookup jobs other) as [other_job|]; [|done].
  rewrite bind_pure. unfold write. cbn [mbind option_bind].
  by destruct (encodable _).
Qed.

Lemma similar_body_eq cats fm jid job :
  cats !! jid = Some job →
  (job ← getitem (enumerate cats) jid;
   emit (EvSimilarItems jid 11);;
   for_ (similar_items fm jid 11) (λ '(other, score),
     try_pass (other_job ← getitem (enumerate cats) other;
               write (fmt3 (str job) (str other_job) (show_score score)))))
  = (EvSimilarItems jid 11
       :: (EvWrite <$> similar_lines (enumerate cats) (str job)
                                     (similar_items fm jid 11)),
     inr ()).
Proof.
  intros Hjid. rewrite (getitem_Some _ _ job).
  - rewrite bind_pure, bind_emit. by rewrite similar_inner_eq.
  - by rewrite dict_lookup_enumerate.
Qed.

Lemma label_of_enumerate (cats : list cell) jid job :
  cats !! jid = Some job → label_of (enumerate cats) jid = str job.
Proof. intros Hjob. unfold label_of. by rewrite dict_lookup_enumerate, Hjob. Qed.

(** The loop over the items, once the order is computed. *)
Lemma similar_jobs_loop_eq cats fm (order : list nat) :
  (∀ jid, jid ∈ order → jid < length cats) →
  for_ order (λ jid,
    job ← getitem (enumerate cats) jid;
    emit (EvSimilarItems jid 11);;
    for_ (similar_items fm jid 11) (λ '(other, score),
      try_pass (other_job ← getitem (enumerate cats) other;
                write (fmt3 (str job) (str other_job) (show_score score)))))
  = (order ≫= λ jid,
       EvSimilarItems jid 11 ::
         (EvWrite <$> similar_lines (enumerate cats)
                        (label_of (enumerate cats) jid)
                        (similar_items fm jid 11)),
     inr ()).
Proof.
  intros Hlt.
  assert (∀ jid, jid ∈ order → is_Some (cats !! jid)) as Hsome.
  { intros jid Hjid. by apply lookup_lt_is_Some, Hlt. }
  rewrite for_all_return.
  - f_equal. apply Forall_bind_ext, Forall_forall. intros jid Hjid.
    destruct (Hsome jid Hjid) as [job Hjob].
    by rewrite (similar_body_eq _ _ _ _ Hjob), (label_of_enumerate _ _ _ Hjob).
  - intros jid Hjid. destruct (Hsome jid Hjid) as [job Hjob].
    by rewrite (similar_body_eq _ _ _ _ Hjob).
Qed.

(** The whole report stage of [calculate_similar_jobs] when the counts are
    read by position. *)
Lemma write_similar_jobs_eq df fm output :
  existsb numeric (cat_categories (df_job df)) = false →
  write_similar_jobs df fm output =
    (EvOpen output ::
       (popularity_order (df_job df) ≫= λ jid,
          EvSimilarItems jid 11 ::
            (EvWrite <$> similar_lines
               (enumerate (cat_categories (df_job df)))
               (label_of (enumerate (cat_categories (df_job df))) jid)
               (similar_items fm jid 11))),
     inr ()).
Proof.
  intros Hpos.
  unfold write_similar_jobs. rewrite fst_enumerate, popularity_keys_eq by done.
  rewrite bind_pure. cbv zeta. fold (popularity_order (df_job df)).
  rewrite bind_emit, similar_jobs_loop_eq; [done|].
  intros jid Hjid. by apply popularity_order_lt.
Qed.

Lemma similar_items_calls_block jid (lines : list string) t :
  similar_items_calls (EvSimilarItems jid 11 :: (EvWrite <$> lines) ++ t)
  = (jid, 11) :: similar_items_calls t.
Proof.
  unfold similar_items_calls. cbn [omap list_omap]. f_equal.
  rewrite omap_app. induction lines; simpl; auto.
Qed.

Lemma written_block jid (lines : list string) t :
  written (EvSimilarItems jid 11 :: (EvWrite <$> lines) ++ t)
  = lines ++ written t.
Proof.
  unfold written. cbn [omap list_omap]. rewrite omap_app. f_equal.
  induction lines; simpl; f_equal; auto.
Qed.

Lemma similar_items_calls_blocks (block : nat → list string) l :
  similar_items_calls
    (l ≫= λ jid, EvSimilarItems jid 11 :: (EvWrite <$> block jid))
  = (λ jid, (jid, 11)) <$> l.
Proof.
  induction l as [|jid l IH]; [done|].
  rewrite bind_cons, fmap_cons, <-IH.
  apply (similar_items_calls_block jid (block jid)).
Qed.

Lemma written_blocks (block : nat → list string) l :
  written (l ≫= λ jid, EvSimilarItems jid 11 :: (EvWrite <$> block jid))
  = l ≫= block.
Proof.
  induction l as [|jid l IH]; [done|].
  rewrite !bind_cons, <-IH. apply (written_block jid (block jid)).
Qed.

(** The run of [calculate_similar_jobs] past training, when the counts are
    read by position. *)
Lemma similar_jobs_run_eq input output name df X m fm :
  outcome (read_data fs input) = inr (df, X) →
  get_model name = inr m →
  fit (weigh m X).2 (tocsr (weigh m X).1) = Some fm →
  existsb numeric (cat_categories (df_job df)) = false →
  calculate_similar_jobs fs input output name
  = (EvReadCsv input :: EvFit (weigh m X).2 (tocsr (weigh m X).1)
       :: EvOpen output
       :: (popularity_order (df_job df) ≫= λ jid,
             EvSimilarItems jid 11 ::
               (EvWrite <$> similar_lines
                  (enumerate (cat_categories (df_job df)))
                  (label_of (enumerate (cat_categories (df_job df))) jid)
                  (similar_items fm jid 11))),
     inr ()).
Proof.
  intros Hread Hmodel Hfit Hpos.
  rewrite (calculate_similar_jobs_eq _ _ _ _ _ _ _ Hread Hmodel), Hfit.
  by rewrite write_similar_jobs_eq.
Qed.

Lemma similar_items_calls_run input output name df X m fm :
  outcome (read_data fs input) = inr (df, X) →
  get_model name = inr m →
  fit (weigh m X).2 (tocsr (weigh m X).1) = Some fm →
  existsb numeric (cat_categories (df_job df)) = false →
  similar_items_calls (trace (calculate_similar_jobs fs input output name))
  = (λ jid, (jid, 11)) <$> popularity_order (df_job df).
Proof.
  intros Hread Hmodel Hfit Hpos.
  rewrite (similar_jobs_run_eq _ _ _ _ _ _ _ Hread Hmodel Hfit Hpos).
  unfold trace. cbn [fst].
  change (EvReadCsv input :: EvFit ?a ?b :: EvOpen output :: ?t)
    with ([EvReadCsv input; EvFit a b; EvOpen output] ++ t).
  unfold similar_items_calls. rewrite omap_app. cbn [omap list_omap app].
  apply (similar_items_calls_blocks
           (λ jid, similar_lines (enumerate (cat_categories (df_job df)))
                     (label_of (enumerate (cat_categories (df_job df))) jid)
                     (similar_items fm jid 11))).
Qed.

(** C2 (as amended): a run of [calculate_similar_jobs] that gets past
    training, on a source whose job column is not read as numbers, ends
    normally; it queries [similar_items(item, 11)] exactly once for every
    item code, the codes being visited in non-increasing order of the
    number of rows of their item; the items are exactly the distinct values
    of the job column (for a column read as text, the distinct job fields
    of the lines that are not blank); and the report is the concatenation,
    in that order, of the lines of each item that have a label for the
    neighbour and that encode, so that an item is a source in the report
    only through such lines. *)
Theorem similar_jobs_by_popularity input output name lines df X m fm :
  fs input = Some lines →
  outcome (read_data fs input) = inr (df, X) →
  get_model name = inr m →
  fit (weigh m X).2 (tocsr (weigh m X).1) = Some fm →
  existsb numeric (cat_categories (df_job df)) = false →
  let run := calculate_similar_jobs fs input output name in
  let items := cat_categories (df_job df) in
  let jobs := enumerate items in
  let to_generate := popularity_order (df_job df) in
  outcome run = inr () ∧
  similar_items_calls (trace run) = (λ jid, (jid, 11)) <$> to_generate ∧
  written (trace run) =
    (to_generate ≫= λ jid,
       similar_lines jobs (label_of jobs jid) (similar_items fm jid 11)) ∧
  to_generate ≡ₚ seq 0 (length items) ∧
  NoDup to_generate ∧
  NoDup items ∧
  (∀ x, x ∈ items ↔ ∃ r, r ∈ frame lines ∧ row_job r = x) ∧
  (read_as_text (field_job <$> records lines) →
   ∀ s, CStr s ∈ items ↔ ∃ l, l ∈ records lines ∧ field_job l = s) ∧
  StronglySorted
    (λ i j, item_popularity (frame lines) items j
            ≤ item_popularity (frame lines) items i)
    to_generate.
Proof.
  intros Hfs Hread Hmodel Hfit Hpos run items jobs to_generate.
  destruct (read_data_inr _ _ _ _ _ Hfs Hread) as (Hne & Hdf & _).
  unfold run.
  rewrite (similar_jobs_run_eq _ _ _ _ _ _ _ Hread Hmodel Hfit Hpos).
  unfold trace, outcome. cbn [fst snd].
  fold items. fold jobs. fold to_generate.
  assert (∀ x, x ∈ items ↔ x ∈ row_job <$> frame lines) as Hitems.
  { intros x. unfold items. rewrite Hdf. cbn [df_job].
    apply elem_of_categories. }
  split_and!.
  - done.
  - change (EvReadCsv input :: EvFit ?a ?b :: EvOpen output :: ?t)
      with ([EvReadCsv input; EvFit a b; EvOpen output] ++ t).
    unfold similar_items_calls. rewrite omap_app. cbn [omap list_omap app].
    apply (similar_items_calls_blocks
             (λ jid, similar_lines jobs (label_of jobs jid)
                                   (similar_items fm jid 11))).
  - change (EvReadCsv input :: EvFit ?a ?b :: EvOpen output :: ?t)
      with ([EvReadCsv input; EvFit a b; EvOpen output] ++ t).
    unfold written. rewrite omap_app. cbn [omap list_omap app].
    apply (written_blocks
             (λ jid, similar_lines jobs (label_of jobs jid)
                                   (similar_items fm jid 11))).
  - apply popularity_order_Permutation.
  - unfold to_generate. rewrite popularity_order_Permutation. apply NoDup_seq.
  - unfold items. rewrite Hdf. apply categories_NoDup.
  - intros x. rewrite Hitems, list_elem_of_fmap.
    split; [intros (l & -> & Hl)|intros (l & Hl & <-)]; eauto.
  - intros Htext s. rewrite Hitems, row_job_frame, Htext.
    rewrite <-list_fmap_compose, list_elem_of_fmap.
    split; [intros (l & [= ->] & Hl)|intros (l & Hl & <-)]; eauto.
  - eapply StronglySorted_weaken; [|apply popularity_order_sorted].
    intros i j. unfold items. rewrite Hdf. cbn [df_job].
    by rewrite !groupby_size_popularity.
Qed.
End similarity_report.

(** ** Conversion to compressed sparse row form *)

Section sparse_facts.
Context `{Numpy}.

Lemma values_at_cons u e r :
  values_at u (e :: r) =
    if decide (e.1 = u) then e.2 :: values_at u r else values_at u r.
Proof. unfold values_at. csimpl. by destruct (decide (e.1 = u)). Qed.

(** Sorting is stable: the values of one column keep their order. *)
Lemma values_at_insert_index u e r :
  values_at u (insert_index e r) = values_at u (e :: r).
Proof.
  induction r as [|e' r IH]; [done|]. cbn [insert_index].
  destruct (decide (e.1 ≤ e'.1)) as [Hle|Hgt]; [done|].
  rewrite (values_at_cons u e'), IH, !values_at_cons.
  destruct (decide (e'.1 = u)), (decide (e.1 = u)); try done. lia.
Qed.

Lemma values_at_sort_indices u r :
  values_at u (sort_indices r) = values_at u r.
Proof.
  induction r as [|e r IH]; [done|]. cbn [sort_indices foldr].
  fold (sort_indices r).
  by rewrite values_at_insert_index, !values_at_cons, IH.
Qed.

Lemma elem_of_insert_index x e r :
  x ∈ insert_index e r ↔ x = e ∨ x ∈ r.
Proof.
  induction r as [|e' r IH]; simpl.
  - rewrite list_elem_of_singleton, elem_of_nil. tauto.
  - destruct (decide (e.1 ≤ e'.1)); rewrite !elem_of_cons, ?IH; tauto.
Qed.

Lemma insert_index_sorted e r :
  StronglySorted index_le r → StronglySorted index_le (insert_index e r).
Proof.
  unfold index_le.
  induction 1 as [|e' r Hr IH He']; simpl; [repeat constructor|].
  destruct (decide (e.1 ≤ e'.1)) as [Hle|Hgt].
  - constructor; [by constructor|]. constructor; [done|].
    eapply Forall_impl; [exact He'|]. simpl. lia.
  - constructor; [done|]. apply Forall_forall. intros x Hx.
    apply elem_of_insert_index in Hx as [->|Hx]; [simpl; lia|].
    by eapply Forall_forall in He'.
Qed.

Lemma sort_indices_sorted r : StronglySorted index_le (sort_indices r).
Proof.
  induction r; simpl; [constructor|]. by apply insert_index_sorted.
Qed.

(** Summing a sorted row leaves strictly increasing column indices. *)
Lemma sum_run_sorted c v r :
  StronglySorted index_le ((c, v) :: r) →
  ∃ v' rest, sum_run c v r = (c, v') :: rest ∧
             Forall (λ e, c < e.1) rest ∧
             StronglySorted index_lt rest.
Proof.
  unfold index_le, index_lt.
  revert c v. induction r as [|[c' w] r IH]; intros c v Hs; simpl.
  { eexists _, []. split_and!; [done|constructor..]. }
  apply StronglySorted_cons in Hs as [Hc Hs].
  pose proof Hc as Hc'. apply Forall_cons in Hc' as [Hcc' Hcr].
  simpl in Hcc'.
  destruct (decide (c = c')) as [<-|Hne].
  - apply IH. apply StronglySorted_cons. split; [done|].
    by apply StronglySorted_cons in Hs as [_ ?].
  - destruct (IH c' w Hs) as (v' & rest & -> & Hrest & Hsrest).
    eexists v, _. split_and!; [done|..].
    + constructor; [simpl; lia|].
      eapply Forall_impl; [exact Hrest|]. simpl. lia.
    + by constructor.
Qed.

Lemma sum_duplicates_sorted r :
  StronglySorted index_le r → StronglySorted index_lt (sum_duplicates r).
Proof.
  destruct r as [|[c v] r]; [constructor|]. intros Hs. simpl.
  destruct (sum_run_sorted c v r Hs) as (v' & rest & -> & Hrest & Hsrest).
  by constructor.
Qed.

Lemma index_lt_NoDup r : StronglySorted index_lt r → NoDup r.*1.
Proof.
  unfold index_lt.
  induction 1 as [|e r _ IH He]; [constructor|].
  rewrite fmap_cons. constructor; [|done].
  intros (e' & Heq & He')%list_elem_of_fmap.
  eapply Forall_forall in He; [|done]. simpl in He. lia.
Qed.

(** What summing stores at a column: the left-to-right sum of the values
    the sorted row has there. *)
Lemma lookup_sum_run u c v r :
  StronglySorted index_le ((c, v) :: r) →
  dict_lookup (sum_run c v r) u = f32_sum (values_at u ((c, v) :: r)).
Proof.
  revert c v. induction r as [|[c' w] r IH]; intros c v Hs.
  { rewrite values_at_cons. cbn [fst snd sum_run dict_lookup].
    by destruct (decide (c = u)). }
  apply StronglySorted_cons in Hs as [Hc Hs].
  pose proof Hc as Hc'. apply Forall_cons in Hc' as [Hcc' Hcr].
  unfold index_le in Hcc'. simpl in Hcc'. cbn [sum_run].
  destruct (decide (c = c')) as [<-|Hne].
  - rewrite IH.
    + rewrite !values_at_cons. cbn [fst snd]. by destruct (decide (c = u)).
    + apply StronglySorted_cons. split; [done|].
      by apply StronglySorted_cons in Hs as [_ ?].
  - cbn [dict_lookup]. rewrite (IH _ _ Hs), (values_at_cons u (c, v)).
    cbn [fst snd]. destruct (decide (c = u)) as [<-|Hcu]; [|done].
    replace (values_at c ((c', w) :: r)) with (@nil float32); [done|].
    symmetry. rewrite values_at_cons. cbn [fst snd].
    rewrite decide_False by lia.
    apply StronglySorted_cons in Hs as [Hs' _]. clear -Hs' Hcc' Hne.
    induction Hs' as [|e r He _ IH]; [done|].
    rewrite values_at_cons. unfold index_le in He. simpl in He.
    rewrite decide_False by lia. done.
Qed.

Lemma lookup_sum_duplicates u r :
  StronglySorted index_le r →
  dict_lookup (sum_duplicates r) u = f32_sum (values_at u r).
Proof.
  destruct r as [|[c v] r]; [done|]. apply lookup_sum_run.
Qed.

Lemma dict_lookup_is_Some {A} (r : list (nat * A)) u :
  is_Some (dict_lookup r u) ↔ u ∈ r.*1.
Proof.
  induction r as [|[c v] r IH]; simpl.
  - rewrite elem_of_nil. split; [by intros [??]|done].
  - rewrite elem_of_cons. destruct (decide (c = u)) as [->|Hne].
    + split; eauto.
    + rewrite IH. split; [auto|]. by intros [?|?].
Qed.

Lemma f32_sum_is_Some vs : is_Some (f32_sum vs) ↔ vs ≠ [].
Proof.
  destruct vs; simpl; split; intros Hx; try done; try (by destruct Hx); eauto.
Qed.

Lemma values_at_row_entries entries i u :
  values_at u (coo_row_entries entries i)
  = omap (λ e, if decide (e.1 = (i, u)) then Some e.2 else None) entries.
Proof.
  unfold coo_row_entries.
  induction entries as [|[[i' u'] v] entries IH]; [done|]. csimpl.
  destruct (decide (i' = i)) as [->|Hi].
  - rewrite values_at_cons, IH. cbn [fst snd].
    destruct (decide (u' = u)) as [->|Hu].
    + by rewrite decide_True.
    + by rewrite decide_False by congruence.
  - rewrite IH. by rewrite decide_False by congruence.
Qed.

Lemma lookup_tocsr X i :
  i < (coo_shape X).1 →
  csr_rows (tocsr X) !! i
  = Some (sum_duplicates (sort_indices (coo_row_entries (coo_entries X) i))).
Proof.
  intros Hi. unfold tocsr. cbn [csr_rows].
  change (map ?f ?l) with (f <$> l).
  by rewrite list_lookup_fmap, lookup_seq_lt.
Qed.

Lemma length_tocsr X : length (csr_rows (tocsr X)) = (coo_shape X).1.
Proof. unfold tocsr. cbn [csr_rows]. by rewrite length_map, length_seq. Qed.

Lemma entries_at_nil X i u :
  entries_at X i u = [] ↔ (i, u) ∉ (coo_entries X).*1.
Proof.
  unfold entries_at. induction (coo_entries X) as [|[k v] entries IH]; csimpl.
  - rewrite elem_of_nil. tauto.
  - rewrite elem_of_cons. destruct (decide (k = (i, u))) as [->|Hk].
    + split; [done|]. intros Hn. destruct Hn. by left.
    + rewrite IH. split; [intros ? [?|?]; congruence|tauto].
Qed.

(** After [tocsr] every position holds the left-to-right sum of the values
    the coordinate form has there, and nothing where it has none. *)
Lemma csr_get_tocsr X i u :
  (∀ e, e ∈ coo_entries X → e.1.1 < (coo_shape X).1) →
  csr_get (tocsr X) i u = f32_sum (entries_at X i u).
Proof.
  intros Hshape. unfold csr_get.
  destruct (decide (i < (coo_shape X).1)) as [Hi|Hi].
  - rewrite (lookup_tocsr _ _ Hi). cbn [mbind option_bind].
    rewrite lookup_sum_duplicates by apply sort_indices_sorted.
    by rewrite values_at_sort_indices, values_at_row_entries.
  - rewrite (proj2 (lookup_ge_None _ _)) by (rewrite length_tocsr; lia).
    cbn [mbind option_bind].
    replace (entries_at X i u) with (@nil float32); [done|].
    symmetry. apply entries_at_nil.
    intros (e & Heq & He)%list_elem_of_fmap. apply Hshape in He.
    rewrite <-Heq in He. simpl in He. lia.
Qed.

(** At most one stored entry per position. *)
Lemma tocsr_NoDup X r : r ∈ csr_rows (tocsr X) → NoDup r.*1.
Proof.
  intros (i & Hi)%list_elem_of_lookup.
  assert (i < (coo_shape X).1) as Hlt.
  { rewrite <-length_tocsr. by eapply lookup_lt_Some. }
  rewrite (lookup_tocsr _ _ Hlt) in Hi. injection Hi as <-.
  apply index_lt_NoDup, sum_duplicates_sorted, sort_indices_sorted.
Qed.

(** The stored positions are those of the coordinate form. *)
Lemma tocsr_pattern X i u :
  (∀ e, e ∈ coo_entries X → e.1.1 < (coo_shape X).1) →
  (∃ r, csr_rows (tocsr X) !! i = Some r ∧ u ∈ r.*1) ↔
  (i, u) ∈ (coo_entries X).*1.
Proof.
  intros Hshape.
  assert (is_Some (csr_get (tocsr X) i u) ↔ (i, u) ∈ (coo_entries X).*1) as <-.
  { rewrite (csr_get_tocsr _ _ _ Hshape), f32_sum_is_Some, entries_at_nil.
    destruct (decide ((i, u) ∈ (coo_entries X).*1)); tauto. }
  unfold csr_get. destruct (csr_rows (tocsr X) !! i) as [r|]; cbn.
  - rewrite dict_lookup_is_Some. split; [by intros (? & [= <-] & ?)|eauto].
  - split; [by intros (? & ? & ?)|by intros [??]].
Qed.

(** ** The transposed matrix *)

Lemma column_of_row u (i : nat) (r : list (nat * float32)) :
  NoDup r.*1 →
  (omap (λ e, if decide (e.1 = u) then Some (i, e.2) else None) r).*1
  = if decide (u ∈ r.*1) then [i] else [].
Proof.
  induction r as [|[c v] r IH]; [done|]. rewrite fmap_cons. csimpl.
  intros [Hc Hr]%NoDup_cons. specialize (IH Hr).
  destruct (decide (c = u)) as [->|Hne].
  - rewrite fmap_cons, IH. rewrite decide_False by done.
    by rewrite decide_True by left.
  - rewrite IH. destruct (decide (u ∈ r.*1)) as [Hu|Hu].
    + by rewrite decide_True by (by right).
    + rewrite decide_False; [done|]. by intros [?|?]%elem_of_cons.
Qed.

Lemma filter_ext_elem_of {A} (P Q : A → Prop)
    `{!∀ x, Decision (P x), !∀ x, Decision (Q x)} (l : list A) :
  (∀ x, x ∈ l → P x ↔ Q x) → filter P l = filter Q l.
Proof.
  induction l as [|x l IH]; intros HPQ; [done|]. rewrite !filter_cons.
  rewrite IH by (intros; apply HPQ; by right).
  destruct (decide (P x)) as [HP|HP], (decide (Q x)) as [HQ|HQ]; try done;
    apply HPQ in HP || apply HPQ in HQ; done || by left.
Qed.

Lemma column_entries_gen u n (rows : list (list (nat * float32))) :
  Forall (λ r, NoDup r.*1) rows →
  (mjoin (imap (λ i r, omap (λ e, if decide (e.1 = u)
                                  then Some (n + i, e.2) else None) r) rows)).*1
  = filter (λ j, stores rows (j - n) u) (seq n (length rows)).
Proof.
  intros Hnd. revert n. induction Hnd as [|r rows Hr _ IH]; intros n; [done|].
  rewrite imap_cons. cbn [mjoin list_join length seq].
  rewrite fmap_app, column_of_row by done.
  rewrite (imap_ext _ (λ i r, omap (λ e, if decide (e.1 = u)
                                then Some (S n + i, e.2) else None) r)).
  2:{ intros i x _. simpl. by replace (n + S i) with (S (n + i)) by lia. }
  rewrite IH, filter_cons. replace (n + 0) with n by lia.
  rewrite (filter_ext_elem_of (λ j, stores rows (j - S n) u)
                              (λ j, stores (r :: rows) (j - n) u)).
  2:{ intros j Hj%elem_of_seq. unfold stores.
      by replace (j - n) with (S (j - S n)) by lia. }
  replace (n - n) with 0 by lia.
  destruct (decide (u ∈ r.*1)) as [Hu|Hu].
  - rewrite decide_True; [done|]. exists r. eauto.
  - rewrite decide_False; [done|]. by intros (? & [= <-] & ?).
Qed.

(** The row of user [u] in the transposed matrix lists, in increasing
    order, the rows in which the matrix stores an entry for [u]. *)
Lemma row_indices_transpose X u :
  Forall (λ r, NoDup r.*1) (csr_rows X) →
  u < csr_ncols X →
  row_indices (transpose_tocsr X) u
  = Some (filter (λ j, stores (csr_rows X) j u) (seq 0 (length (csr_rows X)))).
Proof.
  intros Hnd Hu. unfold row_indices, transpose_tocsr. cbn [csr_rows].
  change (map ?f ?l) with (f <$> l).
  rewrite list_lookup_fmap, lookup_seq_lt by done.
  cbn [fmap option_fmap option_map]. f_equal. unfold column_entries.
  rewrite (column_entries_gen u 0) by done.
  apply list_filter_iff. intros j. by replace (j - 0) with j by lia.
Qed.
End sparse_facts.

(** ** The matrix that reaches [fit] *)

Section matrix_facts.
Context `{Implicit} `{!Pandas} `{!Codecs}.
Context (fs : string → option (list csv_line)).

Lemma omap_Forall2 {A B C} (f : A → option C) (g : B → option C) l k :
  Forall2 (λ a b, f a = g b) l k → omap f l = omap g k.
Proof. induction 1 as [|a b l k Hab _ IH]; [done|]. csimpl. by rewrite Hab, IH. Qed.

Lemma weigh_shape m X : coo_shape (weigh m X).1 = coo_shape X.
Proof. unfold weigh. by destruct (issubclass_ALS _). Qed.

(** Weighting rescales every entry in place. *)
Lemma weigh_entries m X :
  coo_entries (weigh m X).1
  = (λ e, (e.1, record_weight m X e.1.1 e.1.2 e.2)) <$> coo_entries X.
Proof.
  unfold weigh, record_weight. destruct (issubclass_ALS _); cbn.
  - done.
  - induction (coo_entries X) as [|[[??]?] ? IH]; [done|].
    rewrite fmap_cons. by f_equal.
Qed.

Lemma weigh_positions m X :
  (coo_entries (weigh m X).1).*1 = (coo_entries X).*1.
Proof. rewrite weigh_entries, <-list_fmap_compose. done. Qed.

(** One entry per row of the frame, at the codes of its job and its user,
    holding its converted count. *)
Lemma entries_of_lines filename lines df X :
  fs filename = Some lines →
  outcome (read_data fs filename) = inr (df, X) →
  Forall2 (λ l e,
             e.1 = (cat_code (cat_categories (df_job df)) (row_job l),
                    cat_code (cat_categories (df_user df)) (row_user l)) ∧
             cell_to_float32 (row_applies l) = Some e.2)
          (frame lines) (coo_entries X).
Proof.
  intros Hfs Hread.
  destruct (read_data_inr _ _ _ _ _ Hfs Hread) as (_ & Hdf & values & Hv & ->).
  cbn [coo_entries]. rewrite Hdf. cbn [df_job df_user astype_category
    cat_categories cat_codes].
  generalize (merge_sort cell_le (remove_dups (row_job <$> frame lines))) as items.
  generalize (merge_sort cell_le (remove_dups (row_user <$> frame lines))) as users.
  intros users items. revert Hv. generalize (frame lines) as rows.
  intros rows Hv. clear -Hv.
  induction Hv as [|l v rows values Hl _ IH]; [constructor|].
  rewrite !fmap_cons. cbn [map zip zip_with]. constructor; [done|]. exact IH.
Qed.

Lemma shape_of_lines filename lines df X :
  fs filename = Some lines →
  outcome (read_data fs filename) = inr (df, X) →
  coo_shape X = (S (max_list (cat_codes (df_job df))),
                 S (max_list (cat_codes (df_user df)))).
Proof.
  intros Hfs Hread.
  by destruct (read_data_inr _ _ _ _ _ Hfs Hread) as (_ & _ & values & _ & ->).
Qed.

Lemma positions_of_lines filename lines df X :
  fs filename = Some lines →
  outcome (read_data fs filename) = inr (df, X) →
  (coo_entries X).*1 = zip (cat_codes (df_job df)) (cat_codes (df_user df)).
Proof.
  intros Hfs Hread.
  destruct (read_data_inr _ _ _ _ _ Hfs Hread) as (_ & Hdf & values & Hv & ->).
  cbn [coo_entries]. apply fst_zip. apply Forall2_length in Hv.
  rewrite length_zip_with, Hdf. cbn [df_job df_user].
  rewrite !length_cat_codes, !length_fmap. lia.
Qed.

Lemma entries_in_shape filename lines df X m :
  fs filename = Some lines →
  outcome (read_data fs filename) = inr (df, X) →
  ∀ e, e ∈ coo_entries (weigh m X).1 → e.1.1 < (coo_shape (weigh m X).1).1.
Proof.
  intros Hfs Hread e He.
  rewrite weigh_shape, (shape_of_lines _ _ _ _ Hfs Hread). cbn [fst].
  assert (e.1 ∈ (coo_entries (weigh m X).1).*1) as Hpos
    by by apply list_elem_of_fmap_2.
  rewrite weigh_positions, (positions_of_lines _ _ _ _ Hfs Hread) in Hpos.
  destruct e as [[i u] v]. cbn [fst] in *.
  apply elem_of_zip_l, max_list_elem_of_le in Hpos. lia.
Qed.

(** The values of the weighted matrix at a position are those of the input
    records of that item and user, in file order. *)
Lemma entries_at_weigh filename lines df X m i u :
  fs filename = Some lines →
  outcome (read_data fs filename) = inr (df, X) →
  entries_at (weigh m X).1 i u = record_values (frame lines) df m X i u.
Proof.
  intros Hfs Hread. unfold entries_at, record_values.
  rewrite weigh_entries. symmetry.
  pose proof (entries_of_lines _ _ _ _ Hfs Hread) as Hl.
  apply omap_Forall2, Forall2_fmap_r.
  eapply Forall2_impl; [exact Hl|]. intros l [[i' u'] v] [Hpos Hv].
  cbn [fst snd] in *. injection Hpos as -> ->. unfold compose. cbn [fst snd].
  destruct (decide (_ ∧ _)) as [[<- <-]|Hne].
  - rewrite decide_True by done. by rewrite Hv.
  - rewrite decide_False; [done|]. intros [= <- <-]. by apply Hne.
Qed.

(** The positions of the matrix are the code pairs of the rows of the
    frame. *)
Lemma position_iff_line filename lines df X i u :
  fs filename = Some lines →
  outcome (read_data fs filename) = inr (df, X) →
  (i, u) ∈ (coo_entries X).*1 ↔
  ∃ l, l ∈ frame lines ∧
       cat_code (cat_categories (df_job df)) (row_job l) = i ∧
       cat_code (cat_categories (df_user df)) (row_user l) = u.
Proof.
  intros Hfs Hread. pose proof (entries_of_lines _ _ _ _ Hfs Hread) as Hl.
  rewrite list_elem_of_fmap. split.
  - intros (e & Hpos & (k & Hk)%list_elem_of_lookup).
    destruct (Forall2_lookup_r _ _ _ _ _ Hl Hk) as (l & Hlk & Hle & _).
    exists l. split; [by eapply list_elem_of_lookup_2|].
    rewrite Hle in Hpos. by injection Hpos as -> ->.
  - intros (l & (k & Hk)%list_elem_of_lookup & <- & <-).
    destruct (Forall2_lookup_l _ _ _ _ _ Hl Hk) as (e & Hek & Hle & _).
    exists e. split; [done|]. by eapply list_elem_of_lookup_2.
Qed.

Lemma cat_code_lt cats x : x ∈ cats → cat_code cats x < length cats.
Proof. intros Hx. eapply lookup_lt_Some. by apply cat_code_lookup. Qed.

Lemma codes_lt col c :
  c ∈ cat_codes (astype_category col) →
  c < length (cat_categories (astype_category col)).
Proof.
  unfold astype_category at 1. cbn [cat_codes].
  intros (x & -> & Hx)%list_elem_of_fmap.
  by apply (cat_code_lt (cat_categories (astype_category col))),
           elem_of_categories.
Qed.

Section loaded.
Context (filename : string) (lines : list csv_line) (df : DataFrame)
        (X : coo) (m : Model).
Context (Hfs : fs filename = Some lines).
Context (Hread : outcome (read_data fs filename) = inr (df, X)).

#[local] Abbreviation items := (cat_categories (df_job df)).
#[local] Abbreviation users := (cat_categories (df_user df)).
#[local] Abbreviation M := (tocsr (weigh m X).1).

Lemma df_job_eq : df_job df = astype_category (row_job <$> frame lines).
Proof.
  by destruct (read_data_inr _ _ _ _ _ Hfs Hread) as (_ & -> & _).
Qed.

Lemma df_user_eq : df_user df = astype_category (row_user <$> frame lines).
Proof.
  by destruct (read_data_inr _ _ _ _ _ Hfs Hread) as (_ & -> & _).
Qed.

Lemma elem_of_items x : x ∈ items ↔ ∃ l, l ∈ frame lines ∧ row_job l = x.
Proof.
  rewrite df_job_eq, elem_of_categories, list_elem_of_fmap.
  split; [intros (l & -> & Hl)|intros (l & Hl & <-)]; eauto.
Qed.

Lemma elem_of_users x : x ∈ users ↔ ∃ l, l ∈ frame lines ∧ row_user l = x.
Proof.
  rewrite df_user_eq, elem_of_categories, list_elem_of_fmap.
  split; [intros (l & -> & Hl)|intros (l & Hl & <-)]; eauto.
Qed.

Lemma items_NoDup : NoDup items.
Proof. rewrite df_job_eq. apply categories_NoDup. Qed.

Lemma users_NoDup : NoDup users.
Proof. rewrite df_user_eq. apply categories_NoDup. Qed.

Lemma fit_matrix_nrows : length (csr_rows M) ≤ length items.
Proof.
  rewrite length_tocsr, weigh_shape.
  rewrite (shape_of_lines _ _ _ _ Hfs Hread). cbn [fst].
  rewrite df_job_eq. apply codes_lt, max_list_elem_of.
  intros Hnil%(f_equal length).
  rewrite length_cat_codes, length_fmap in Hnil.
  destruct (read_data_inr _ _ _ _ _ Hfs Hread) as (Hne & _).
  by destruct (frame lines).
Qed.

Lemma fit_matrix_ncols u : u < length users → u < csr_ncols M.
Proof.
  intros Hu. unfold tocsr. cbn [csr_ncols]. rewrite weigh_shape.
  rewrite (shape_of_lines _ _ _ _ Hfs Hread). cbn [snd].
  apply lookup_lt_is_Some in Hu as [name Hname].
  assert (u ∈ cat_codes (df_user df)) as Hin.
  { assert (name ∈ users) as Hx by by eapply list_elem_of_lookup_2.
    apply elem_of_users in Hx as (l & Hl & <-).
    rewrite df_user_eq. unfold astype_category. cbn [cat_codes].
    apply list_elem_of_fmap. exists (row_user l). split.
    - symmetry. apply cat_code_of_lookup.
      + apply (categories_NoDup (row_user <$> frame lines)).
      + by rewrite df_user_eq in Hname.
    - by apply list_elem_of_fmap_2. }
  apply max_list_elem_of_le in Hin. lia.
Qed.

Lemma fit_matrix_NoDup : Forall (λ r, NoDup r.*1) (csr_rows M).
Proof. apply Forall_forall. intros r. apply tocsr_NoDup. Qed.

(** The history of a user: the item codes of the rows of that user, each
    once, in increasing order. *)
Lemma history_indices u name :
  users !! u = Some name →
  ∃ ix, row_indices (transpose_tocsr M) u = Some ix ∧
        NoDup ix ∧
        ∀ j, j ∈ ix ↔
             ∃ l, l ∈ frame lines ∧ row_user l = name ∧
                  items !! j = Some (row_job l).
Proof.
  intros Hname. eexists. split.
  { apply row_indices_transpose; [apply fit_matrix_NoDup|].
    apply fit_matrix_ncols. by eapply lookup_lt_Some. }
  split; [apply NoDup_filter, NoDup_seq|].
  intros j. rewrite list_elem_of_filter, elem_of_seq. unfold stores.
  rewrite (tocsr_pattern _ _ _ (entries_in_shape _ _ _ _ m Hfs Hread)).
  rewrite weigh_positions, (position_iff_line _ _ _ _ _ _ Hfs Hread).
  assert (∀ l, l ∈ frame lines →
            cat_code users (row_user l) = u ↔ row_user l = name) as Hu.
  { intros l Hl. rewrite df_user_eq.
    rewrite cat_code_iff by by apply list_elem_of_fmap_2.
    rewrite df_user_eq in Hname. rewrite Hname.
    split; [by intros [= ->]|by intros ->]. }
  assert (∀ l, l ∈ frame lines →
            cat_code items (row_job l) = j ↔ items !! j = Some (row_job l))
    as Hj.
  { intros l Hl. rewrite df_job_eq.
    apply cat_code_iff. by apply list_elem_of_fmap_2. }
  split.
  - intros [(l & Hl & Hlj & Hlu) _]. exists l.
    split_and!; [done|by apply Hu|by apply Hj].
  - intros (l & Hl & Hlu & Hlj). split.
    + exists l. split_and!; [done|by apply Hj|by apply Hu].
    + assert (stores (csr_rows M) j u) as (r & Hr & _).
      { unfold stores.
        rewrite (tocsr_pattern _ _ _ (entries_in_shape _ _ _ _ m Hfs Hread)).
        rewrite weigh_positions, (position_iff_line _ _ _ _ _ _ Hfs Hread).
        exists l. split_and!; [done|by apply Hj|by apply Hu]. }
      apply lookup_lt_Some in Hr. lia.
Qed.

(** The items of a history are the labels of its codes. *)
Lemma history_Forall2 u :
  Forall2 (λ j c, items !! j = Some c)
          (default [] (row_indices (transpose_tocsr M) u))
          (history (enumerate items) (transpose_tocsr M) u).
Proof.
  unfold history.
  assert (∀ j, j ∈ default [] (row_indices (transpose_tocsr M) u) →
               is_Some (items !! j)) as Hsome.
  { destruct (decide (u < csr_ncols M)) as [Hu|Hu].
    - rewrite (row_indices_transpose _ _ fit_matrix_NoDup Hu). cbn [default].
      unfold id. intros j [_ Hj%elem_of_seq]%list_elem_of_filter.
      pose proof fit_matrix_nrows. apply lookup_lt_is_Some. lia.
    - unfold row_indices, transpose_tocsr. cbn [csr_rows].
      rewrite (proj2 (lookup_ge_None _ _))
        by (rewrite length_map, length_seq; lia).
      intros j Hj. by apply elem_of_nil in Hj. }
  induction (default [] (row_indices (transpose_tocsr M) u)) as [|j ix IH];
    [constructor|].
  destruct (Hsome j) as [c Hc]; [left|]. csimpl.
  rewrite dict_lookup_enumerate, Hc. constructor; [done|].
  apply IH. intros j' Hj'. apply Hsome. by right.
Qed.

Lemma history_labels_eq u :
  history_labels (enumerate items) (transpose_tocsr M) u
  = str <$> history (enumerate items) (transpose_tocsr M) u.
Proof.
  unfold history_labels.
  induction (history_Forall2 u) as [|j c ix cs Hc _ IH]; [done|].
  rewrite !fmap_cons, IH. f_equal.
  unfold label_of. by rewrite dict_lookup_enumerate, Hc.
Qed.

Lemma history_NoDup u :
  NoDup (history (enumerate items) (transpose_tocsr M) u).
Proof.
  assert (NoDup (default [] (row_indices (transpose_tocsr M) u))) as Hix.
  { destruct (decide (u < csr_ncols M)) as [Hu|Hu].
    - rewrite (row_indices_transpose _ _ fit_matrix_NoDup Hu). cbn [default].
      apply NoDup_filter, NoDup_seq.
    - unfold row_indices, transpose_tocsr. cbn [csr_rows].
      rewrite (proj2 (lookup_ge_None _ _))
        by (rewrite length_map, length_seq; lia).
      constructor. }
  induction (history_Forall2 u) as [|j c ix cs Hc Hcs IH]; [constructor|].
  apply NoDup_cons in Hix as [Hj Hix]. constructor; [|by apply IH].
  intros (k & Hk)%list_elem_of_lookup_1.
  destruct (Forall2_lookup_r _ _ _ _ _ Hcs Hk) as (j' & Hj' & Hc').
  assert (j' = j) as -> by by eapply NoDup_lookup; [apply items_NoDup|..].
  apply Hj. by eapply list_elem_of_lookup_2.
Qed.

(** The items of the history of a user are the jobs of the rows of that
    user. *)
Lemma elem_of_history u name c :
  users !! u = Some name →
  c ∈ history (enumerate items) (transpose_tocsr M) u ↔
  ∃ l, l ∈ frame lines ∧ row_user l = name ∧ row_job l = c.
Proof.
  intros Hname.
  destruct (history_indices u name Hname) as (ix & Hix & _ & Hmem).
  pose proof (history_Forall2 u) as Hh. rewrite Hix in Hh. cbn [default] in Hh.
  unfold id in Hh. split.
  - intros (k & Hk)%list_elem_of_lookup_1.
    destruct (Forall2_lookup_r _ _ _ _ _ Hh Hk) as (j & Hj & Hc).
    apply list_elem_of_lookup_2, Hmem in Hj as (l & Hl & Hlu & Hlj).
    exists l. split_and!; [done..|]. congruence.
  - intros (l & Hl & Hlu & <-).
    assert (row_job l ∈ items) as (j & Hj)%list_elem_of_lookup_1
      by (apply elem_of_items; eauto).
    assert (j ∈ ix) as (k & Hk)%list_elem_of_lookup_1
      by (apply Hmem; eauto).
    destruct (Forall2_lookup_l _ _ _ _ _ Hh Hk) as (c & Hc & Hjc).
    rewrite Hj in Hjc. injection Hjc as <-. by eapply list_elem_of_lookup_2.
Qed.

(** In a job column read as text every item is a text value, and the
    lines of a history differ. *)
Lemma items_text :
  read_as_text (field_job <$> records lines) →
  ∀ c, c ∈ items → ∃ s, c = CStr s.
Proof.
  intros Htext c Hc. rewrite df_job_eq, elem_of_categories in Hc.
  rewrite row_job_frame, Htext in Hc.
  apply list_elem_of_fmap in Hc as (s & -> & _). eauto.
Qed.

Lemma history_labels_NoDup u :
  read_as_text (field_job <$> records lines) →
  NoDup (history_labels (enumerate items) (transpose_tocsr M) u).
Proof.
  intros Htext. rewrite history_labels_eq.
  apply NoDup_fmap_2_strong; [|apply history_NoDup].
  assert (∀ c, c ∈ history (enumerate items) (transpose_tocsr M) u →
               c ∈ items) as Hin.
  { intros c (k & Hk)%list_elem_of_lookup_1.
    destruct (Forall2_lookup_r _ _ _ _ _ (history_Forall2 u) Hk)
      as (j & _ & Hc).
    by eapply list_elem_of_lookup_2. }
  intros x y Hx%Hin Hy%Hin.
  destruct (items_text Htext x Hx) as [sx ->].
  destruct (items_text Htext y Hy) as [sy ->]. simpl. by intros ->.
Qed.
End loaded.

(** C10 (as amended): the matrix the one call of [fit] receives holds, at
    every (item code, user code) position, the left-to-right float32 sum of
    the values of all rows of the frame with that item and user, where the
    value of a row is its converted count for a model outside the
    factorization family and its count rescaled by [bm25_weight] for a
    model inside it (the weighting is applied per record, before the
    conversion sums duplicates); a position without rows stores nothing,
    a row of the matrix stores at most one entry per column, and the
    history of a user read off the transposed matrix names every item at
    most once; its lines are the items as written, and they differ when
    the job column is read as text. *)
Theorem fit_matrix_sums_duplicates args lines df X m :
  fs (inputfile args) = Some lines →
  outcome (read_data fs (inputfile args)) = inr (df, X) →
  get_model (model_arg args) = inr m →
  ∃ m' M,
    fit_calls (trace (main fs args)) = [(m', M)] ∧
    (∀ i u, csr_get M i u = f32_sum (record_values (frame lines) df m X i u)) ∧
    (∀ r, r ∈ csr_rows M → NoDup r.*1) ∧
    (∀ u, let jobs := enumerate (cat_categories (df_job df)) in
          NoDup (history jobs (transpose_tocsr M) u) ∧
          history_labels jobs (transpose_tocsr M) u
          = str <$> history jobs (transpose_tocsr M) u ∧
          (read_as_text (field_job <$> records lines) →
           NoDup (history_labels jobs (transpose_tocsr M) u))).
Proof.
  intros Hfs Hread Hmodel.
  exists (weigh m X).2, (tocsr (weigh m X).1). split_and!.
  - by apply (fit_calls_main _ _ df).
  - intros i u.
    rewrite (csr_get_tocsr _ _ _ (entries_in_shape _ _ _ _ m Hfs Hread)).
    by rewrite (entries_at_weigh _ _ _ _ _ _ _ Hfs Hread).
  - apply tocsr_NoDup.
  - intros u jobs. split_and!.
    + by eapply history_NoDup.
    + by eapply history_labels_eq.
    + by eapply history_labels_NoDup.
Qed.
End matrix_facts.

(** ** The recommendation report *)

Section recommendation_report_facts.
Context `{Implicit} `{!Pandas} `{!Codecs}.
Context (fs : string → option (list csv_line)).

Lemma write_encodable line :
  encodable line = true → write line = ([EvWrite line], inr ()).
Proof. unfold write. by intros ->. Qed.

Lemma label_of_Some jobs j label :
  dict_lookup jobs j = Some label → label_of jobs j = str label.
Proof. unfold label_of. by intros ->. Qed.

Lemma recommended_loop_eq jobs (username : cell) (recs : list (nat * score)) :
  (∀ p, p ∈ recs → is_Some (dict_lookup jobs p.1)) →
  (∀ line, line ∈ recommended_lines jobs (str username) recs →
           encodable line = true) →
  for_ recs (λ '(jobid, score),
    label ← getitem jobs jobid;
    write (fmt3 (str username) (str label) (show_score score)))
  = (EvWrite <$> recommended_lines jobs (str username) recs, inr ()).
Proof.
  induction recs as [|[j sc] recs IH]; intros Hkeys Henc; [done|].
  cbn [for_]. rewrite IH.
  2:{ intros p Hp. apply Hkeys. by right. }
  2:{ intros line Hline. apply Henc. unfold recommended_lines.
      rewrite fmap_cons. by right. }
  destruct (Hkeys (j, sc)) as [label Hlabel]; [left|]. cbn [fst] in Hlabel.
  rewrite (getitem_Some _ _ _ Hlabel), bind_pure.
  unfold recommended_lines at 2. rewrite fmap_cons. cbn [fst snd].
  rewrite (label_of_Some _ _ _ Hlabel). rewrite write_encodable; [done|].
  apply Henc. unfold recommended_lines. rewrite fmap_cons. cbn [fst snd].
  rewrite (label_of_Some _ _ _ Hlabel). left.
Qed.

Lemma history_loop_eq jobs (ix : list nat) :
  (∀ j, j ∈ ix → is_Some (dict_lookup jobs j)) →
  (∀ line, line ∈ fmt_line <$> (label_of jobs <$> ix) →
           encodable line = true) →
  for_ ix (λ jobid, label ← getitem jobs jobid; write (fmt_line (str label)))
  = (EvWrite <$> (fmt_line <$> (label_of jobs <$> ix)), inr ()).
Proof.
  induction ix as [|j ix IH]; intros Hkeys Henc; [done|].
  cbn [for_]. rewrite IH.
  2:{ intros p Hp. apply Hkeys. by right. }
  2:{ intros line Hline. apply Henc. rewrite !fmap_cons. by right. }
  destruct (Hkeys j) as [label Hlabel]; [left|].
  rewrite (getitem_Some _ _ _ Hlabel), bind_pure. rewrite !fmap_cons.
  rewrite (label_of_Some _ _ _ Hlabel). rewrite write_encodable; [done|].
  apply Henc. rewrite !fmap_cons, (label_of_Some _ _ _ Hlabel). left.
Qed.

(** The block of a user whose lines all format and encode. *)
Lemma write_user_block_eq jobs fm UA userid (username : cell) ix :
  row_indices UA userid = Some ix →
  (∀ p, p ∈ recommend fm userid UA → is_Some (dict_lookup jobs p.1)) →
  (∀ j, j ∈ ix → is_Some (dict_lookup jobs j)) →
  (∀ line, line ∈ user_block jobs fm UA userid (str username) →
           encodable line = true) →
  write_user_block jobs fm UA userid username
  = (EvRecommend userid UA
       :: (EvWrite <$> user_block jobs fm UA userid (str username)),
     inr ()).
Proof.
  intros Hix Hrecs Hhist Henc. unfold write_user_block, user_block in *.
  unfold history_labels in *. rewrite Hix in *. cbn [default] in *.
  rewrite bind_emit.
  rewrite recommended_loop_eq; [|done|].
  2:{ intros line Hline. apply Henc, elem_of_app. by left. }
  rewrite (bind_value _ _ ()) by done.
  rewrite write_encodable.
  2:{ apply Henc, elem_of_app. right. left. }
  rewrite (bind_value _ _ ()) by done. rewrite bind_pure.
  rewrite history_loop_eq; [|done|].
  2:{ intros line Hline. apply Henc, elem_of_app. right. by right. }
  unfold trace, outcome. cbn [fst snd]. f_equal. f_equal.
  by rewrite fmap_app, fmap_cons.
Qed.

Lemma written_writes (lines : list string) t :
  written ((EvWrite <$> lines) ++ t) = lines ++ written t.
Proof.
  unfold written. rewrite omap_app. f_equal.
  induction lines; csimpl; f_equal; auto.
Qed.

Lemma recommend_calls_writes (lines : list string) t :
  recommend_calls ((EvWrite <$> lines) ++ t) = recommend_calls t.
Proof.
  unfold recommend_calls. rewrite omap_app.
  replace (omap _ (EvWrite <$> lines)) with (@nil (nat * csr)); [done|].
  induction lines; csimpl; auto.
Qed.

Lemma elem_of_enumerate {A} (l : list A) i x :
  (i, x) ∈ enumerate l ↔ l !! i = Some x.
Proof.
  unfold enumerate. rewrite elem_of_lookup_imap. split.
  - by intros (? & ? & [= -> ->] & ?).
  - eauto.
Qed.

(** The whole report stage of [calculate_recommendations] when every line
    formats and encodes. *)
Lemma write_recommendations_eq df fm M output :
  let jobs := enumerate (cat_categories (df_job df)) in
  let users := cat_categories (df_user df) in
  let UA := transpose_tocsr M in
  (∀ u name, users !! u = Some name →
     ∃ ix, row_indices UA u = Some ix ∧
           ∀ j, j ∈ ix → is_Some (dict_lookup jobs j)) →
  (∀ u name p, users !! u = Some name → p ∈ recommend fm u UA →
     is_Some (dict_lookup jobs p.1)) →
  (∀ line, line ∈ recommendation_report df fm M → encodable line = true) →
  write_recommendations df fm M output =
    (EvOpen output ::
       (enumerate users ≫= λ p,
          EvRecommend p.1 UA
            :: (EvWrite <$> user_block jobs fm UA p.1 (str p.2))),
     inr ()).
Proof.
  intros jobs users UA Hhist Hrecs Henc. unfold write_recommendations.
  fold jobs users UA. rewrite bind_emit.
  assert (∀ p, p ∈ enumerate users →
            (let '(userid, username) := p in
             write_user_block jobs fm UA userid username)
            = (EvRecommend p.1 UA
                 :: (EvWrite <$> user_block jobs fm UA p.1 (str p.2)),
               inr ())) as Hblock.
  { intros [u name] Hp. pose proof Hp as Hname%elem_of_enumerate.
    destruct (Hhist u name Hname) as (ix & Hix & Hkeys).
    apply (write_user_block_eq _ _ _ _ _ ix);
      [done|intros p; by apply (Hrecs u name)|done|].
    intros line Hline. apply Henc. unfold recommendation_report.
    apply list_elem_of_bind. exists (u, name). split; [done|].
    by fold users. }
  rewrite for_all_return.
  - unfold trace, outcome. cbn [fst snd]. f_equal. f_equal.
    apply Forall_bind_ext, Forall_forall. intros p Hp. by rewrite Hblock.
  - intros p Hp. by rewrite Hblock.
Qed.

Lemma written_user_blocks (block : nat * cell → list string) (UA : csr) l :
  written (l ≫= λ p, EvRecommend p.1 UA :: (EvWrite <$> block p)) = l ≫= block.
Proof.
  induction l as [|p l IH]; [done|]. rewrite !bind_cons, <-IH.
  rewrite <-app_comm_cons. unfold written at 1. cbn [omap list_omap].
  apply (written_writes (block p)).
Qed.

Lemma recommend_calls_user_blocks (block : nat * cell → list string)
    (UA : csr) l :
  recommend_calls (l ≫= λ p, EvRecommend p.1 UA :: (EvWrite <$> block p))
  = (λ p, (p.1, UA)) <$> l.
Proof.
  induction l as [|p l IH]; [done|]. rewrite !bind_cons, fmap_cons, <-IH.
  rewrite <-app_comm_cons. unfold recommend_calls at 1. cbn [omap list_omap].
  f_equal. apply (recommend_calls_writes (block p)).
Qed.

(** C1 (as amended): a run of [calculate_recommendations] that gets past
    training, whose model recommends item codes of the encoding table and
    whose lines all encode, ends normally, and its report is, for every user
    in the order of the user encoding table, one block: the lines of the
    items returned by [recommend(userid, user_applies)], which is called
    with the whole transposed matrix and not with the row of the user, then
    the marker line of the user, then one line per item code stored in the
    row of the user in the transposed matrix. The users are the distinct
    values of the user column, and the items of those history lines are,
    each once, the values of the job column in the rows of that user, each
    written as ["%s"] renders it. For columns read as text these are the
    user and job fields of the lines that are not blank, and the history
    lines of a user differ. *)
Theorem recommendation_report_blocks input output name lines df X m fm :
  fs input = Some lines →
  outcome (read_data fs input) = inr (df, X) →
  get_model name = inr m →
  fit (weigh m X).2 (tocsr (weigh m X).1) = Some fm →
  let run := calculate_recommendations fs input output name in
  let users := cat_categories (df_user df) in
  let jobs := enumerate (cat_categories (df_job df)) in
  let applies := tocsr (weigh m X).1 in
  let user_applies := transpose_tocsr applies in
  (∀ u p, u < length users → p ∈ recommend fm u user_applies →
          p.1 < length (cat_categories (df_job df))) →
  (∀ line, line ∈ recommendation_report df fm applies →
           encodable line = true) →
  outcome run = inr () ∧
  written (trace run) = recommendation_report df fm applies ∧
  recommend_calls (trace run)
  = (λ u, (u, user_applies)) <$> seq 0 (length users) ∧
  NoDup users ∧
  (∀ x, x ∈ users ↔ ∃ r, r ∈ frame lines ∧ row_user r = x) ∧
  (∀ u username, users !! u = Some username →
    NoDup (history jobs user_applies u) ∧
    history_labels jobs user_applies u = str <$> history jobs user_applies u ∧
    ∀ c, c ∈ history jobs user_applies u ↔
         ∃ r, r ∈ frame lines ∧ row_user r = username ∧ row_job r = c) ∧
  (read_as_text (field_user <$> records lines) →
   read_as_text (field_job <$> records lines) →
   (∀ s, CStr s ∈ users ↔ ∃ l, l ∈ records lines ∧ field_user l = s) ∧
   ∀ u username, users !! u = Some (CStr username) →
     NoDup (history_labels jobs user_applies u) ∧
     ∀ x, x ∈ history_labels jobs user_applies u ↔
          ∃ l, l ∈ records lines ∧ field_user l = username ∧ field_job l = x).
Proof.
  intros Hfs Hread Hmodel Hfit run users jobs applies user_applies Hrange Henc.
  assert (run = ([EvReadCsv input; EvFit (weigh m X).2 applies]
                   ++ trace (write_recommendations df fm applies output),
                 outcome (write_recommendations df fm applies output))) as ->.
  { unfold run. rewrite (calculate_recommendations_eq _ _ _ _ _ _ _ Hread Hmodel).
    by rewrite Hfit. }
  assert (∀ u username, users !! u = Some username →
            ∃ ix, row_indices user_applies u = Some ix ∧ NoDup ix ∧
                  ∀ j, j ∈ ix ↔
                       ∃ l, l ∈ frame lines ∧ row_user l = username ∧
                            cat_categories (df_job df) !! j = Some (row_job l))
    as Hhist.
  { intros u username Hu. by eapply history_indices. }
  assert (∀ u username, users !! u = Some username →
            ∀ c, c ∈ history jobs user_applies u ↔
                 ∃ r, r ∈ frame lines ∧ row_user r = username ∧ row_job r = c)
    as Hitems.
  { intros u username Hu c. by eapply elem_of_history. }
  rewrite write_recommendations_eq; [|..|done].
  - fold users jobs user_applies. unfold trace, outcome. cbn [fst snd app].
    split_and!.
    + done.
    + apply (written_user_blocks
               (λ p, user_block jobs fm user_applies p.1 (str p.2))).
    + etrans.
      { apply (recommend_calls_user_blocks
                 (λ p, user_block jobs fm user_applies p.1 (str p.2))). }
      by rewrite <-fst_enumerate, <-list_fmap_compose.
    + by eapply users_NoDup.
    + intros x. by eapply elem_of_users.
    + intros u username Hu. split_and!.
      * by eapply history_NoDup.
      * by eapply history_labels_eq.
      * by apply Hitems.
    + intros Hutext Hjtext. split.
      * intros s. etrans; [by eapply elem_of_users|].
        split.
        -- intros (r & [k Hk]%list_elem_of_lookup_1 & Hr).
           destruct (frame_text_lookup _ _ _ Hutext Hjtext Hk)
             as (l & Hl & Hlu & _).
           exists l. split; [by eapply list_elem_of_lookup_2|]. congruence.
        -- intros (l & Hl & <-).
           destruct (proj2 (frame_text_elem lines (CStr (field_user l))
                              (CStr (field_job l)) Hutext Hjtext))
             as (r & Hr & Hru & _); eauto.
      * intros u username Hu. split; [by eapply history_labels_NoDup|].
        intros x. unfold jobs, user_applies, applies.
        rewrite (history_labels_eq _ _ _ _ _ m Hfs Hread), list_elem_of_fmap.
        split.
        -- intros (c & -> & Hc). apply (Hitems u _ Hu) in Hc.
           apply (frame_text_elem _ _ _ Hutext Hjtext) in Hc
             as (l & Hl & [= ->] & ->). eauto.
        -- intros (l & Hl & <- & <-). exists (CStr (field_job l)).
           split; [done|]. apply (Hitems u _ Hu).
           apply (frame_text_elem _ _ _ Hutext Hjtext). eauto.
  - intros u username Hu. fold user_applies.
    destruct (Hhist u username Hu) as (ix & Hix & _ & Hmem).
    exists ix. split; [done|]. intros j (l & _ & _ & Hj)%Hmem.
    rewrite dict_lookup_enumerate. eauto.
  - intros u username p Hu Hp. rewrite dict_lookup_enumerate.
    apply lookup_lt_is_Some. eapply Hrange; [|done].
    by eapply lookup_lt_Some.
Qed.
End recommendation_report_facts.

(** * Further properties of the script *)

(** ** Fatal errors and the order of the stages *)

Section fatal_errors.
Context `{Implicit} `{!Pandas} `{!Codecs}.
Context (fs : string → option (list csv_line)).

Lemma outcome_bind {A B} (f : A → io B) (m : io A) :
  outcome (m ≫= f) =
    match outcome m with inl e => inl e | inr a => outcome (f a) end.
Proof. destruct m as [t [e|a]]; io_unfold; done. Qed.

Lemma generators_read_error input output name e :
  outcome (read_data fs input) = inl e →
  calculate_similar_jobs fs input output name = ([EvReadCsv input], inl e) ∧
  calculate_recommendations fs input output name = ([EvReadCsv input], inl e).
Proof.
  intros Hread. unfold calculate_similar_jobs, calculate_recommendations.
  by rewrite !(bind_raise _ _ e Hread), trace_read_data.
Qed.

(** X1: an error of the loader is fatal. The run ends with that error and its
    only event is the read of the input file: no model is trained, no output
    file is opened. *)
Theorem loader_error_is_fatal args e :
  outcome (read_data fs (inputfile args)) = inl e →
  main fs args = ([EvReadCsv (inputfile args)], inl e).
Proof.
  intros Hread. unfold main.
  destruct (generators_read_error (inputfile args) (outputfile args)
              (model_arg args) e Hread) as [Hs Hr].
  by destruct (recommend_flag args).
Qed.


(** X3: a failure of training is fatal. The run ends with it right after the
    call of [fit]: no output file is opened and the model is not queried. *)
Theorem training_failure_is_fatal args df X m :
  outcome (read_data fs (inputfile args)) = inr (df, X) →
  get_model (model_arg args) = inr m →
  fit (weigh m X).2 (tocsr (weigh m X).1) = None →
  main fs args =
    ([EvReadCsv (inputfile args); EvFit (weigh m X).2 (tocsr (weigh m X).1)],
     inl FitError).
Proof.
  intros Hread Hmodel Hfit. unfold main. destruct (recommend_flag args).
  - by rewrite (calculate_recommendations_eq _ _ _ _ _ _ _ Hread Hmodel), Hfit.
  - by rewrite (calculate_similar_jobs_eq _ _ _ _ _ _ _ Hread Hmodel), Hfit.
Qed.

Lemma Forall_trace_write (P : event → Prop) line :
  P (EvWrite line) → Forall P (trace (write line)).
Proof.
  intros HP. unfold write. destruct (encodable line); io_unfold;
    repeat constructor. done.
Qed.

Lemma Forall_trace_getitem (P : event → Prop) jobs k :
  Forall P (trace (getitem jobs k)).
Proof. unfold getitem. destruct (dict_lookup jobs k); constructor. Qed.

Lemma Forall_trace_emit (P : event → Prop) ev :
  P ev → Forall P (trace (emit ev)).
Proof. by repeat constructor. Qed.

Local Ltac body_events :=
  repeat first
    [ apply Forall_trace_write; exact I
    | apply Forall_trace_getitem
    | apply Forall_trace_emit; exact I
    | apply Forall_trace_for; intros ?
    | apply Forall_trace_bind; [|intros ?] ].

(** The report stage of [calculate_similar_jobs] stops before the output
    is opened when a key of the sort is not found, and otherwise opens the
    output and queries and writes. *)
Lemma similar_jobs_body df fm output :
  (trace (write_similar_jobs df fm output) = [] ∧
   ∃ e, outcome (write_similar_jobs df fm output) = inl e) ∨
  (∃ body, trace (write_similar_jobs df fm output) = EvOpen output :: body ∧
           Forall similar_event body).
Proof.
  unfold write_similar_jobs. cbv zeta.
  destruct (outcome (mapM (popularity_key (cat_categories (df_job df))
                                          (groupby_size (df_job df)))
                          (enumerate (cat_categories (df_job df))).*1))
    as [e|keys] eqn:Hkeys.
  - left. rewrite (bind_raise _ _ _ Hkeys), trace_popularity_keys. eauto.
  - right. rewrite (bind_value _ _ _ Hkeys), trace_popularity_keys.
    unfold trace at 1. cbn [fst app]. rewrite bind_emit.
    eexists. split; [done|]. body_events.
    match goal with p : (nat * score)%type |- _ => destruct p as [j sc] end.
    change (trace (try_pass ?m)) with (trace m). body_events.
Qed.

Lemma recommendations_body df fm M output :
  ∃ body, trace (write_recommendations df fm M output) = EvOpen output :: body ∧
          Forall recommend_event body.
Proof.
  unfold write_recommendations. cbv zeta. rewrite bind_emit.
  eexists. split; [done|]. body_events.
  match goal with
  | p : (nat * cell)%type |- _ => destruct p as [userid username]
  end.
  unfold write_user_block. body_events.
  - match goal with p : (nat * score)%type |- _ => destruct p as [j sc] end.
    body_events.
  - destruct (row_indices _ _); constructor.
Qed.

Lemma similar_jobs_stages input output name :
  stages input output similar_event
         (trace (calculate_similar_jobs fs input output name)).
Proof.
  destruct (outcome (read_data fs input)) as [e|[df X]] eqn:Hread.
  { left. by destruct (generators_read_error input output name e Hread)
      as [-> _]. }
  destruct (get_model name) as [e|m] eqn:Hmodel.
  { left. unfold calculate_similar_jobs.
    by rewrite (bind_value _ _ _ Hread), trace_read_data, Hmodel. }
  rewrite (calculate_similar_jobs_eq _ _ _ _ _ _ _ Hread Hmodel).
  destruct (fit _ _) as [fm|]; [|right; left; eauto].
  destruct (similar_jobs_body df fm output) as [[-> _]|(body & -> & Hbody)].
  - right. left. eauto.
  - right. right. eauto.
Qed.

Lemma recommendations_stages input output name :
  stages input output recommend_event
         (trace (calculate_recommendations fs input output name)).
Proof.
  destruct (outcome (read_data fs input)) as [e|[df X]] eqn:Hread.
  { left. by destruct (generators_read_error input output name e Hread)
      as [_ ->]. }
  destruct (get_model name) as [e|m] eqn:Hmodel.
  { left. unfold calculate_recommendations.
    by rewrite (bind_value _ _ _ Hread), trace_read_data, Hmodel. }
  rewrite (calculate_recommendations_eq _ _ _ _ _ _ _ Hread Hmodel).
  destruct (fit _ _) as [fm|]; [|right; left; eauto].
  right. right.
  destruct (recommendations_body df fm (tocsr (weigh m X).1) output)
    as (body & -> & Hbody).
  eauto.
Qed.

(** X4: the stages of a run come in one order and at most once each. Every
    run reads the input file first; if it goes on, it calls [fit] once; if it
    goes on, it opens the output file once; and everything after that is a
    query of the model in the mode of the run or a written line. No other
    file is read or opened. *)
Theorem main_stages args :
  stages (inputfile args) (outputfile args)
         (if recommend_flag args then recommend_event else similar_event)
         (trace (main fs args)).
Proof.
  unfold main. destruct (recommend_flag args);
    [apply recommendations_stages|apply similar_jobs_stages].
Qed.

Lemma stages_no_recommend input output t :
  stages input output similar_event t → recommend_calls t = [].
Proof.
  intros [->|[(m & X & ->)|(m & X & body & -> & Hbody)]]; [done..|].
  unfold recommend_calls. cbn [omap list_omap].
  induction Hbody as [|e body He _ IH]; [done|]. csimpl. by destruct e.
Qed.

Lemma stages_no_similar_items input output t :
  stages input output recommend_event t → similar_items_calls t = [].
Proof.
  intros [->|[(m & X & ->)|(m & X & body & -> & Hbody)]]; [done..|].
  unfold similar_items_calls. cbn [omap list_omap].
  induction Hbody as [|e body He _ IH]; [done|]. csimpl. by destruct e.
Qed.

(** X5: the two modes exclude each other. A run in similarity mode never
    calls [recommend], a run in recommendation mode never calls
    [similar_items]. *)
Theorem modes_are_exclusive args :
  (recommend_flag args = false → recommend_calls (trace (main fs args)) = []) ∧
  (recommend_flag args = true → similar_items_calls (trace (main fs args)) = []).
Proof.
  unfold main. split; intros ->.
  - eapply stages_no_recommend, similar_jobs_stages.
  - eapply stages_no_similar_items, recommendations_stages.
Qed.

Lemma generators_model_error input output name df X e :
  outcome (read_data fs input) = inr (df, X) →
  get_model name = inl e →
  calculate_similar_jobs fs input output name = ([EvReadCsv input], inl e) ∧
  calculate_recommendations fs input output name = ([EvReadCsv input], inl e).
Proof.
  intros Hread Hmodel. unfold calculate_similar_jobs, calculate_recommendations.
  by rewrite !(bind_value _ _ _ Hread), trace_read_data, Hmodel.
Qed.

(** X12: the mode does not matter up to the end of training. Either the
    two generators behave alike on the same arguments, both failing with
    the same error after the same events and without opening the output
    file; or [calculate_recommendations] opens the output file after the
    read and the call of [fit], and [calculate_similar_jobs] has the same
    read and the same call of [fit], on the same model and the same matrix,
    after which it either opens the output file too or fails before
    opening it. *)
Theorem modes_agree_through_training input output name :
  let similar := calculate_similar_jobs fs input output name in
  let recommendations := calculate_recommendations fs input output name in
  (recommendations = similar ∧
   (∃ e, outcome similar = inl e) ∧
   ∀ filename, EvOpen filename ∉ trace similar) ∨
  (∃ m X body',
     trace recommendations
     = EvReadCsv input :: EvFit m X :: EvOpen output :: body' ∧
     ((∃ body, trace similar
               = EvReadCsv input :: EvFit m X :: EvOpen output :: body) ∨
      (trace similar = [EvReadCsv input; EvFit m X] ∧
       ∃ e, outcome similar = inl e))).
Proof.
  cbv zeta.
  destruct (outcome (read_data fs input)) as [e|[df X]] eqn:Hread.
  { left. destruct (generators_read_error input output name e Hread)
      as [-> ->].
    split; [done|]. split; [by eexists|].
    by intros filename [=]%list_elem_of_singleton. }
  destruct (get_model name) as [e|m] eqn:Hmodel.
  { left. destruct (generators_model_error input output name df X e
                      Hread Hmodel) as [-> ->].
    split; [done|]. split; [by eexists|].
    by intros filename [=]%list_elem_of_singleton. }
  rewrite (calculate_similar_jobs_eq _ _ _ _ _ _ _ Hread Hmodel),
          (calculate_recommendations_eq _ _ _ _ _ _ _ Hread Hmodel).
  destruct (fit _ _) as [fm|].
  - right.
    destruct (recommendations_body df fm (tocsr (weigh m X).1) output)
      as (body' & Hrec & _).
    eexists _, _, body'. unfold trace at 1. cbn [fst]. rewrite Hrec.
    split; [done|].
    destruct (similar_jobs_body df fm output)
      as [[Hsim [e He]]|(body & Hsim & _)].
    + right. unfold trace at 1, outcome at 1. cbn [fst snd]. rewrite Hsim.
      split; [done|]. eauto.
    + left. exists body. unfold trace at 1. cbn [fst]. by rewrite Hsim.
  - left. split; [done|]. split; [by eexists|].
    intros filename Hin. unfold trace in Hin. cbn [fst] in Hin.
    apply elem_of_cons in Hin as [[=]|Hin].
    by apply list_elem_of_singleton in Hin.
Qed.
End fatal_errors.

(** ** The encoding tables and the matrix *)

Section encoding.
Context `{Implicit} `{!Pandas} `{!Codecs}.
Context (fs : string → option (list csv_line)).

(** X6: encoding and decoding round trip. Row [k] of the frame becomes
    entry [k] of the matrix, at the code of its job and the code of its
    user, with its converted count; and the two encoding tables give back
    the job and the user of the row at those codes. When the user and job
    columns are read as text, the row holds the user and job fields of the
    [k]-th line that is not blank. *)
Theorem codes_round_trip filename lines df X k r :
  fs filename = Some lines →
  outcome (read_data fs filename) = inr (df, X) →
  frame lines !! k = Some r →
  (∃ i u v,
     coo_entries X !! k = Some (i, u, v) ∧
     cell_to_float32 (row_applies r) = Some v ∧
     cat_codes (df_job df) !! k = Some i ∧
     cat_categories (df_job df) !! i = Some (row_job r) ∧
     cat_codes (df_user df) !! k = Some u ∧
     cat_categories (df_user df) !! u = Some (row_user r)) ∧
  (read_as_text (field_user <$> records lines) →
   read_as_text (field_job <$> records lines) →
   ∃ l, records lines !! k = Some l ∧
        row_user r = CStr (field_user l) ∧ row_job r = CStr (field_job l)).
Proof.
  intros Hfs Hread Hk. split; [|intros Hu Hj; by apply frame_text_lookup].
  pose proof (entries_of_lines _ _ _ _ _ Hfs Hread) as Hl.
  destruct (Forall2_lookup_l _ _ _ _ _ Hl Hk) as ([[i u] v] & He & Hpos & Hv).
  cbn [fst snd] in Hpos, Hv. injection Hpos as -> ->.
  assert (r ∈ frame lines) as Hin by by eapply list_elem_of_lookup_2.
  eexists _, _, v. split_and!; [done|done|..].
  - rewrite (df_job_eq _ _ _ _ _ Hfs Hread).
    unfold astype_category at 1. cbn [cat_codes].
    change (map ?f ?c) with (f <$> c).
    rewrite !list_lookup_fmap, Hk. reflexivity.
  - apply cat_code_lookup. eapply elem_of_items; eauto.
  - rewrite (df_user_eq _ _ _ _ _ Hfs Hread).
    unfold astype_category at 1. cbn [cat_codes].
    change (map ?f ?c) with (f <$> c).
    rewrite !list_lookup_fmap, Hk. reflexivity.
  - apply cat_code_lookup. eapply elem_of_users; eauto.
Qed.

Lemma max_code_eq col :
  col ≠ [] →
  S (max_list (cat_codes (astype_category col)))
  = length (cat_categories (astype_category col)).
Proof.
  intros Hne. apply Nat.le_antisymm.
  - apply codes_lt, max_list_elem_of. intros Hnil%(f_equal length).
    rewrite length_cat_codes in Hnil. by destruct col.
  - destruct (decide (length (cat_categories (astype_category col)) = 0))
      as [->|Hpos]; [lia|].
    destruct (lookup_lt_is_Some_2 (cat_categories (astype_category col))
                (length (cat_categories (astype_category col)) - 1))
      as [c Hc]; [lia|].
    assert (length (cat_categories (astype_category col)) - 1
            ∈ cat_codes (astype_category col)) as Hin.
    { unfold astype_category at 2. cbn [cat_codes].
      apply list_elem_of_fmap. exists c. split.
      - symmetry. by apply cat_code_of_lookup; [apply categories_NoDup|].
      - eapply elem_of_categories, list_elem_of_lookup_2, Hc. }
    apply max_list_elem_of_le in Hin. lia.
Qed.

(** X7: the matrix has one row per distinct job and one column per distinct
    user of the source and one entry per line that is not blank; the
    converted matrix that reaches [fit] has the same shape, and the
    transposed matrix given to [recommend] has one row per user and one
    column per job. *)
Theorem matrix_shapes filename lines df X m :
  fs filename = Some lines →
  outcome (read_data fs filename) = inr (df, X) →
  let applies := tocsr (weigh m X).1 in
  coo_shape X = (length (cat_categories (df_job df)),
                 length (cat_categories (df_user df))) ∧
  length (coo_entries X) = length (records lines) ∧
  length (csr_rows applies) = length (cat_categories (df_job df)) ∧
  csr_ncols applies = length (cat_categories (df_user df)) ∧
  length (csr_rows (transpose_tocsr applies))
  = length (cat_categories (df_user df)) ∧
  csr_ncols (transpose_tocsr applies) = length (cat_categories (df_job df)).
Proof.
  intros Hfs Hread applies.
  destruct (read_data_inr _ _ _ _ _ Hfs Hread) as (Hne & _).
  assert (coo_shape X = (length (cat_categories (df_job df)),
                         length (cat_categories (df_user df)))) as Hshape.
  { rewrite (shape_of_lines _ _ _ _ _ Hfs Hread).
    rewrite (df_job_eq _ _ _ _ _ Hfs Hread), (df_user_eq _ _ _ _ _ Hfs Hread).
    rewrite !max_code_eq; [done|..]; by destruct (frame lines). }
  assert (length (csr_rows applies) = length (cat_categories (df_job df)))
    as Hrows.
  { unfold applies. by rewrite length_tocsr, weigh_shape, Hshape. }
  assert (csr_ncols applies = length (cat_categories (df_user df))) as Hcols.
  { unfold applies, tocsr. cbn [csr_ncols]. by rewrite weigh_shape, Hshape. }
  split_and!; [done| |done|done|..].
  - rewrite <-length_frame. symmetry.
    exact (Forall2_length _ _ _ (entries_of_lines _ _ _ _ _ Hfs Hread)).
  - unfold transpose_tocsr. cbn [csr_rows].
    by rewrite length_map, length_seq.
  - done.
Qed.
End encoding.

Section transposition.
Context `{Numpy}.

Lemma dict_lookup_app {A} (d1 d2 : list (nat * A)) k :
  dict_lookup (d1 ++ d2) k =
    match dict_lookup d1 k with Some v => Some v | None => dict_lookup d2 k end.
Proof.
  induction d1 as [|[k' v] d1 IH]; [done|]. simpl.
  by destruct (decide (k' = k)).
Qed.

Lemma dict_lookup_not_elem {A} (d : list (nat * A)) k :
  k ∉ d.*1 → dict_lookup d k = None.
Proof.
  intros Hk. destruct (dict_lookup d k) eqn:Hd; [|done].
  destruct Hk. apply dict_lookup_is_Some. eauto.
Qed.

(** The entries a row contributes to column [u] of the transposed matrix:
    all under the index of the row, the first with the value the row stores
    at [u]. *)
Lemma dict_lookup_column_of_row u (i k : nat) (r : list (nat * float32)) :
  dict_lookup (omap (λ e, if decide (e.1 = u) then Some (i, e.2) else None) r) k
  = if decide (i = k) then dict_lookup r u else None.
Proof.
  induction r as [|[c v] r IH]; csimpl; [by destruct (decide (i = k))|].
  destruct (decide (c = u)) as [->|Hne]; [|done].
  simpl. by destruct (decide (i = k)).
Qed.

Lemma dict_lookup_column_entries u n k (rows : list (list (nat * float32))) :
  dict_lookup
    (mjoin (imap (λ i r, omap (λ e, if decide (e.1 = u)
                                    then Some (n + i, e.2) else None) r) rows))
    (n + k)
  = r ← rows !! k; dict_lookup r u.
Proof.
  revert n k. induction rows as [|r rows IH]; intros n k; [done|].
  rewrite imap_cons. cbn [mjoin list_join].
  rewrite dict_lookup_app, dict_lookup_column_of_row.
  rewrite (imap_ext _ (λ i r, omap (λ e, if decide (e.1 = u)
                                then Some (S n + i, e.2) else None) r)).
  2:{ intros i x _. simpl. by replace (n + S i) with (S (n + i)) by lia. }
  destruct k as [|k].
  - rewrite decide_True by lia. cbn [lookup list_lookup mbind option_bind].
    destruct (dict_lookup r u) eqn:Hr; [done|].
    apply dict_lookup_not_elem.
    intros (p & Hp & (rs & Hin & Hrs)%list_elem_of_join)%list_elem_of_fmap.
    apply elem_of_lookup_imap in Hrs as (i & x & -> & _).
    apply list_elem_of_omap in Hin as (e & _ & He).
    destruct (decide (e.1 = u)); [|done]. injection He as <-.
    simpl in Hp. lia.
  - rewrite decide_False by lia.
    replace (n + S k) with (S n + k) by lia. by rewrite IH.
Qed.

(** X8: transposition keeps the values. What the transposed matrix stores at
    (user, item) is what the matrix stores at (item, user). *)
Theorem transpose_tocsr_get (X : csr) u i :
  u < csr_ncols X →
  csr_get (transpose_tocsr X) u i = csr_get X i u.
Proof.
  intros Hu. unfold csr_get, transpose_tocsr. cbn [csr_rows].
  change (map ?f ?l) with (f <$> l).
  rewrite list_lookup_fmap, lookup_seq_lt by done.
  cbn [fmap option_fmap option_map mbind option_bind]. unfold column_entries.
  apply (dict_lookup_column_entries u 0 i).
Qed.
End transposition.

(** ** Orders: ties in popularity, and the history of a user *)

Section orders.
Context `{Implicit} `{!Pandas} `{!Codecs}.
Context (fs : string → option (list csv_line)).

Lemma insert_by_key_lex p l :
  StronglySorted key_lex l → Forall (λ q, p.2 < q.2) l →
  StronglySorted key_lex (insert_by_key p l).
Proof.
  induction 1 as [|q l Hl IH Hq]; intros Hp; simpl; [repeat constructor|].
  apply Forall_cons in Hp as [Hpq Hpl].
  destruct (decide (key_le p q)) as [Hle|Hgt]; unfold key_le in *.
  - constructor; [by constructor|]. constructor.
    + unfold key_lex. lia.
    + rewrite Forall_forall in Hq, Hpl. apply Forall_forall. intros r Hr.
      specialize (Hq r Hr). specialize (Hpl r Hr). unfold key_lex in *. lia.
  - constructor; [by apply IH|]. rewrite insert_by_key_Permutation.
    constructor; [|done]. unfold key_lex. lia.
Qed.

Lemma seq_sorted j n : StronglySorted lt (seq j n).
Proof.
  revert j. induction n as [|n IH]; intros j; simpl; constructor; [done|].
  apply Forall_forall. intros x Hx%elem_of_seq. lia.
Qed.

(** The sort of [sorted] is stable: elements given in increasing order come
    out by key, and in increasing order among equal keys. *)
Lemma sorted_by_key_stable (key : nat → Z) xs :
  StronglySorted lt xs →
  StronglySorted (λ i j, (key i < key j)%Z ∨ (key i = key j ∧ i < j))
                 (sorted_by_key (key <$> xs) xs).
Proof.
  intros Hxs. unfold sorted_by_key.
  assert (StronglySorted key_lex (foldr insert_by_key [] (zip (key <$> xs) xs)))
    as Hs.
  { induction Hxs as [|x xs _ IH Hx]; [constructor|].
    rewrite fmap_cons. cbn [zip zip_with foldr].
    apply insert_by_key_lex; [done|]. rewrite stable_sort_Permutation.
    clear -Hx. induction Hx; constructor; auto. }
  assert (Forall (λ p, p.1 = key p.2)
                 (foldr insert_by_key [] (zip (key <$> xs) xs))) as Hk.
  { rewrite stable_sort_Permutation. clear. induction xs; constructor; auto. }
  induction Hs as [|p l _ IH Hp]; [constructor|].
  apply Forall_cons in Hk as [Hkp Hkl].
  rewrite fmap_cons. constructor; [auto|].
  apply Forall_fmap, Forall_forall. intros q Hq.
  rewrite Forall_forall in Hp, Hkl.
  specialize (Hp q Hq). specialize (Hkl q Hq).
  unfold key_lex in Hp. simpl. rewrite <-Hkp, <-Hkl. done.
Qed.

(** X9: ties in popularity are broken by item code. A run of
    [calculate_similar_jobs] that gets past training, on a source whose job
    column is not read as numbers, queries an item before every item with
    fewer rows and, among items with as many rows, before those with a
    larger code. *)
Theorem popularity_ties_by_item_code input output name lines df X m fm :
  fs input = Some lines →
  outcome (read_data fs input) = inr (df, X) →
  get_model name = inr m →
  fit (weigh m X).2 (tocsr (weigh m X).1) = Some fm →
  existsb numeric (cat_categories (df_job df)) = false →
  StronglySorted
    (more_popular (frame lines) (cat_categories (df_job df)))
    (similar_items_calls
       (trace (calculate_similar_jobs fs input output name))).*1.
Proof.
  intros Hfs Hread Hmodel Hfit Hpos.
  rewrite (similar_items_calls_run _ _ _ _ _ _ _ _ Hread Hmodel Hfit Hpos).
  rewrite <-list_fmap_compose, list_fmap_id. unfold popularity_order.
  eapply StronglySorted_weaken; [|apply sorted_by_key_stable, seq_sorted].
  intros i j. unfold more_popular. cbv beta.
  rewrite (df_job_eq _ _ _ _ _ Hfs Hread).
  rewrite !groupby_size_popularity. lia.
Qed.

Lemma categories_sorted (col : list cell) :
  StronglySorted cell_le (cat_categories (astype_category col)).
Proof. apply StronglySorted_merge_sort; apply _. Qed.

Lemma StronglySorted_lookup_lt {A} (R : relation A) l i j a b :
  StronglySorted R l → i < j → l !! i = Some a → l !! j = Some b → R a b.
Proof.
  intros Hl. revert i j. induction Hl as [|x l _ IH Hx]; intros i j Hij Hi Hj.
  { by rewrite lookup_nil in Hi. }
  destruct j as [|j]; [lia|]. destruct i as [|i]; simplify_eq/=.
  - eapply Forall_forall in Hx; [done|]. by eapply list_elem_of_lookup_2.
  - apply (IH i j); [lia|done..].
Qed.

Lemma filter_sorted {A} (R : relation A) (P : A → Prop)
    `{!∀ x, Decision (P x)} l :
  StronglySorted R l → StronglySorted R (filter P l).
Proof.
  induction 1 as [|x l _ IH Hx]; [constructor|]. rewrite filter_cons.
  destruct (decide (P x)); [|done]. constructor; [done|].
  apply Forall_forall. intros y [_ Hy]%list_elem_of_filter.
  by eapply Forall_forall in Hx.
Qed.

(** Values picked from a sorted list at increasing positions are sorted. *)
Lemma lookups_sorted {A} (R : relation A) (l : list A) ix cs :
  StronglySorted R l → StronglySorted lt ix →
  Forall2 (λ j c, l !! j = Some c) ix cs → StronglySorted R cs.
Proof.
  intros Hl Hix Hcs. revert Hix.
  induction Hcs as [|j c ix cs Hc Hcs IH]; intros Hix; [constructor|].
  apply StronglySorted_inv in Hix as [Hix Hj]. constructor; [auto|].
  apply Forall_forall. intros c' (k & Hk)%list_elem_of_lookup_1.
  destruct (Forall2_lookup_r _ _ _ _ _ Hcs Hk) as (j' & Hj' & Hc').
  eapply (StronglySorted_lookup_lt R l j j'); [done| |done..].
  eapply Forall_forall in Hj; [done|]. by eapply list_elem_of_lookup_2.
Qed.

Lemma text_sorted (cs : list cell) :
  (∀ c, c ∈ cs → ∃ s, c = CStr s) →
  StronglySorted cell_le cs → StronglySorted String.le (str <$> cs).
Proof.
  intros Htext. induction 1 as [|c cs _ IH Hc]; [constructor|].
  rewrite fmap_cons. constructor.
  { apply IH. intros c' Hc'. apply Htext. by right. }
  apply Forall_fmap, Forall_forall. intros c' Hc'.
  eapply Forall_forall in Hc; [|done].
  destruct (Htext c) as [s ->]; [left|].
  destruct (Htext c') as [s' ->]; [by right|]. done.
Qed.

(** X10: the history lines of a user come in increasing item code, which is
    the sorted order of the values of the job column: the order of numbers
    for a column read as int64, and the lexicographic order of the job
    fields for a column read as text. *)
Theorem history_in_code_order filename lines df X m u :
  fs filename = Some lines →
  outcome (read_data fs filename) = inr (df, X) →
  let user_applies := transpose_tocsr (tocsr (weigh m X).1) in
  let jobs := enumerate (cat_categories (df_job df)) in
  StronglySorted lt (default [] (row_indices user_applies u)) ∧
  StronglySorted cell_le (history jobs user_applies u) ∧
  history_labels jobs user_applies u = str <$> history jobs user_applies u ∧
  (read_as_text (field_job <$> records lines) →
   StronglySorted String.le (history_labels jobs user_applies u)).
Proof.
  intros Hfs Hread user_applies jobs.
  assert (StronglySorted lt (default [] (row_indices user_applies u))) as Hix.
  { unfold user_applies.
    destruct (decide (u < csr_ncols (tocsr (weigh m X).1))) as [Hu|Hu].
    - rewrite (row_indices_transpose _ _ (fit_matrix_NoDup X m) Hu).
      cbn [default]. apply filter_sorted, seq_sorted.
    - unfold row_indices, transpose_tocsr. cbn [csr_rows].
      rewrite (proj2 (lookup_ge_None _ _))
        by (rewrite length_map, length_seq; lia).
      constructor. }
  pose proof (history_Forall2 _ _ _ _ _ m Hfs Hread u) as Hh.
  assert (StronglySorted cell_le (history jobs user_applies u)) as Hsorted.
  { eapply lookups_sorted; [|exact Hix|exact Hh].
    rewrite (df_job_eq _ _ _ _ _ Hfs Hread). apply categories_sorted. }
  pose proof (history_labels_eq _ _ _ _ _ m Hfs Hread u) as Hlabels.
  split_and!; [done..|].
  intros Htext. unfold jobs, user_applies. rewrite Hlabels.
  apply text_sorted; [|done].
  intros c (k & Hk)%list_elem_of_lookup_1.
  destruct (Forall2_lookup_r _ _ _ _ _ Hh Hk) as (j & _ & Hc).
  eapply (items_text _ _ _ _ _ Hfs Hread Htext), list_elem_of_lookup_2, Hc.
Qed.
End orders.

(** ** A line that cannot be encoded, in recommendation mode *)

Section unencodable_line.
Context `{Implicit} `{!Pandas} `{!Codecs}.
Context (fs : string → option (list csv_line)).

Lemma bind_assoc {A B C} (m : io A) (f : A → io B) (g : B → io C) :
  (m ≫= f) ≫= g = m ≫= (λ a, f a ≫= g).
Proof.
  destruct m as [t [e|a]]; io_unfold; [done|].
  destruct (f a) as [t' [e'|b]]; simpl; [done|].
  destruct (g b) as [t'' r]. simpl. by rewrite (assoc_L (++)).
Qed.

Lemma for_cons {A} (x : A) l (body : A → io unit) :
  for_ (x :: l) body = body x ≫= λ _, for_ l body.
Proof. done. Qed.

Lemma for_app {A} (l1 l2 : list A) (body : A → io unit) :
  for_ (l1 ++ l2) body = for_ l1 body ≫= λ _, for_ l2 body.
Proof.
  induction l1 as [|x l1 IH].
  - symmetry. apply (bind_pure (λ _, for_ l2 body) ()).
  - rewrite <-app_comm_cons, !for_cons, IH. by rewrite bind_assoc.
Qed.

Lemma for_ext {A} (l : list A) (f g : A → io unit) :
  (∀ x, x ∈ l → f x = g x) → for_ l f = for_ l g.
Proof.
  induction l as [|x l IH]; intros Hfg; [done|].
  rewrite !for_cons, Hfg by left. rewrite IH; [done|].
  intros y Hy. apply Hfg. by right.
Qed.

Lemma write_unencodable line :
  encodable line = false → write line = ([], inl (UnicodeError line)).
Proof. unfold write. by intros ->. Qed.

(** Writing a list of lines stops at the first line that does not encode. *)
Lemma for_write_stop pre bad post :
  Forall (λ line, encodable line = true) pre →
  encodable bad = false →
  for_ (pre ++ bad :: post) write = (EvWrite <$> pre, inl (UnicodeError bad)).
Proof.
  intros Hpre Hbad. induction Hpre as [|line pre Hline _ IH].
  - by rewrite app_nil_l, for_cons, (write_unencodable _ Hbad).
  - by rewrite <-app_comm_cons, for_cons, IH, (write_encodable _ Hline).
Qed.

(** With keys of the dict, the loops over recommended items and over the
    history are loops of writes. *)
Lemma recommended_loop_writes jobs (username : string)
    (recs : list (nat * score)) :
  (∀ p, p ∈ recs → is_Some (dict_lookup jobs p.1)) →
  for_ recs (λ '(jobid, score),
    label ← getitem jobs jobid;
    write (fmt3 username (str label) (show_score score)))
  = for_ (recommended_lines jobs username recs) write.
Proof.
  induction recs as [|[j sc] recs IH]; intros Hkeys; [done|].
  unfold recommended_lines. rewrite fmap_cons, !for_cons.
  fold (recommended_lines jobs username recs).
  rewrite IH by (intros p Hp; apply Hkeys; by right).
  destruct (Hkeys (j, sc)) as [label Hlabel]; [left|]. cbn [fst snd] in *.
  by rewrite (getitem_Some _ _ _ Hlabel), bind_pure,
             (label_of_Some _ _ _ Hlabel).
Qed.

Lemma history_loop_writes jobs (ix : list nat) :
  (∀ j, j ∈ ix → is_Some (dict_lookup jobs j)) →
  for_ ix (λ jobid, label ← getitem jobs jobid; write (fmt_line (str label)))
  = for_ (fmt_line <$> (label_of jobs <$> ix)) write.
Proof.
  induction ix as [|j ix IH]; intros Hkeys; [done|].
  rewrite !fmap_cons, !for_cons.
  rewrite IH by (intros p Hp; apply Hkeys; by right).
  destruct (Hkeys j) as [label Hlabel]; [left|].
  by rewrite (getitem_Some _ _ _ Hlabel), bind_pure,
             (label_of_Some _ _ _ Hlabel).
Qed.

Lemma user_block_writes jobs fm UA userid (username : cell) ix :
  row_indices UA userid = Some ix →
  (∀ p, p ∈ recommend fm userid UA → is_Some (dict_lookup jobs p.1)) →
  (∀ j, j ∈ ix → is_Some (dict_lookup jobs j)) →
  write_user_block jobs fm UA userid username
  = (emit (EvRecommend userid UA);;
     for_ (user_block jobs fm UA userid (str username)) write).
Proof.
  intros Hix Hrecs Hhist. unfold write_user_block, user_block, history_labels.
  rewrite Hix. cbn [default]. unfold id.
  rewrite recommended_loop_writes by done.
  rewrite for_app, for_cons. rewrite bind_pure.
  by rewrite history_loop_writes.
Qed.

Lemma written_app t1 t2 : written (t1 ++ t2) = written t1 ++ written t2.
Proof. apply omap_app. Qed.

Lemma outcome_emit_bind {B} (f : () → io B) ev :
  outcome (emit ev ≫= f) = outcome (f ()).
Proof. done. Qed.

Lemma trace_emit_bind {B} (f : () → io B) ev :
  trace (emit ev ≫= f) = ev :: trace (f ()).
Proof. done. Qed.

(** A loop of blocks, each a query followed by writes, ends and writes like
    the one loop of writes over all the lines. *)
Lemma blocks_as_writes {A} (ps : list A) (query : A → event)
    (block : A → list string) :
  (∀ p, written [query p] = []) →
  outcome (for_ ps (λ p, (emit (query p);; for_ (block p) write)))
  = outcome (for_ (ps ≫= block) write) ∧
  written (trace (for_ ps (λ p, (emit (query p);; for_ (block p) write))))
  = written (trace (for_ (ps ≫= block) write)).
Proof.
  intros Hquery. induction ps as [|p ps [IHo IHw]]; [done|].
  rewrite bind_cons, for_app, for_cons. cbv beta. rewrite bind_assoc. split.
  - rewrite outcome_emit_bind, !outcome_bind, IHo. done.
  - rewrite trace_emit_bind, !trace_bind.
    change (query p :: ?t) with ([query p] ++ t).
    rewrite !written_app, Hquery. cbn [app]. f_equal.
    destruct (outcome (for_ (block p) write)); [done|]. exact IHw.
Qed.

(** X11: in recommendation mode the report is written line by line and the
    run has no handler: when a line of the report does not encode, the run
    ends with the encoding error of the first such line, and what has been
    written is exactly the part of the report before it. *)
Theorem recommendations_stop_at_first_unencodable_line
    input output name lines df X m fm pre bad post :
  fs input = Some lines →
  outcome (read_data fs input) = inr (df, X) →
  get_model name = inr m →
  fit (weigh m X).2 (tocsr (weigh m X).1) = Some fm →
  let run := calculate_recommendations fs input output name in
  let applies := tocsr (weigh m X).1 in
  (∀ u p, u < length (cat_categories (df_user df)) →
          p ∈ recommend fm u (transpose_tocsr applies) →
          p.1 < length (cat_categories (df_job df))) →
  recommendation_report df fm applies = pre ++ bad :: post →
  Forall (λ line, encodable line = true) pre →
  encodable bad = false →
  outcome run = inl (UnicodeError bad) ∧ written (trace run) = pre.
Proof.
  intros Hfs Hread Hmodel Hfit run applies Hrange Hreport Hpre Hbad.
  assert (run = ([EvReadCsv input; EvFit (weigh m X).2 applies]
                   ++ trace (write_recommendations df fm applies output),
                 outcome (write_recommendations df fm applies output))) as ->.
  { unfold run. rewrite (calculate_recommendations_eq _ _ _ _ _ _ _ Hread Hmodel).
    by rewrite Hfit. }
  unfold write_recommendations. cbv zeta. rewrite bind_emit.
  rewrite (for_ext _ _
    (λ p, emit (EvRecommend p.1 (transpose_tocsr applies));;
          for_ (user_block (enumerate (cat_categories (df_job df))) fm
                           (transpose_tocsr applies) p.1 (str p.2)) write)).
  2:{ intros [u username] Hu%elem_of_enumerate.
      destruct (history_indices _ _ _ _ _ m Hfs Hread u username Hu)
        as (ix & Hix & _ & Hmem).
      apply (user_block_writes _ _ _ _ _ ix); [done|..].
      - intros p Hp. rewrite dict_lookup_enumerate.
        apply lookup_lt_is_Some. eapply Hrange; [|done].
        by eapply lookup_lt_Some.
      - intros j (l & _ & _ & Hj)%Hmem. rewrite dict_lookup_enumerate. eauto. }
  destruct (blocks_as_writes (enumerate (cat_categories (df_user df)))
              (λ p, EvRecommend p.1 (transpose_tocsr applies))
              (λ p, user_block (enumerate (cat_categories (df_job df))) fm
                               (transpose_tocsr applies) p.1 (str p.2)))
    as [Ho Hw]; [done|].
  fold (recommendation_report df fm applies) in Ho, Hw.
  rewrite Hreport, (for_write_stop _ _ _ Hpre Hbad) in Ho, Hw.
  unfold trace, outcome in *. cbn [fst snd app] in *.
  split; [exact Ho|].
  unfold written at 1. cbn [omap list_omap]. fold (written
    (for_ (enumerate (cat_categories (df_user df)))
       (λ p, emit (EvRecommend p.1 (transpose_tocsr applies));;
             for_ (user_block (enumerate (cat_categories (df_job df))) fm
                     (transpose_tocsr applies) p.1 (str p.2)) write)).1).
  rewrite Hw. clear. induction pre; csimpl; f_equal; auto.
Qed.
End unencodable_line.

(** ** Job identifiers that are numbers, in similarity mode *)

Section label_lookup.
Context `{Implicit} `{!Pandas} `{!Codecs}.
Context (fs : string → option (list csv_line)).

Lemma mapM_io_raise {A B} (f : A → io B) l1 x l2 e :
  (∀ y, y ∈ l1 → ∃ b, f y = mret b) → f x = raise e →
  mapM f (l1 ++ x :: l2) = raise e.
Proof.
  intros Hl1 Hx. induction l1 as [|y l1 IH].
  - change (mapM f ([] ++ x :: l2))
      with (b ← f x; k ← mapM f l2; mret (b :: k)).
    by rewrite Hx.
  - change (mapM f ((y :: l1) ++ x :: l2))
      with (b ← f y; k ← mapM f (l1 ++ x :: l2); mret (b :: k)).
    destruct (Hl1 y) as [b ->]; [left|]. rewrite bind_pure.
    rewrite IH by (intros z Hz; apply Hl1; by right). done.
Qed.

Lemma get_loc_lt (index : list cell) x p :
  get_loc index x = Some p → p < length index.
Proof.
  revert p. induction index as [|c index IH]; intros p; [done|]. simpl.
  destruct (equals_int c x); [intros [= <-]; lia|].
  destruct (get_loc index x) as [q|]; [|done]. intros [= <-].
  specialize (IH q eq_refl). lia.
Qed.

Lemma length_groupby_size (c : Categorical) :
  length (groupby_size c) = length (cat_categories c).
Proof. unfold groupby_size. by rewrite length_map, length_seq. Qed.

(** X13: job identifiers read as numbers stop similarity mode.
    [user_count[x]] then looks the item code [x] up among the job labels;
    when the codes are not all labels, the run ends with the [KeyError] of
    the first code that is no label, after training and before the output
    file is opened. *)
Theorem numeric_job_labels_stop_similar_jobs input output name df X m fm x :
  outcome (read_data fs input) = inr (df, X) →
  get_model name = inr m →
  fit (weigh m X).2 (tocsr (weigh m X).1) = Some fm →
  let items := cat_categories (df_job df) in
  existsb numeric items = true →
  x < length items →
  get_loc items x = None →
  (∀ y, y < x → is_Some (get_loc items y)) →
  calculate_similar_jobs fs input output name
  = ([EvReadCsv input; EvFit (weigh m X).2 (tocsr (weigh m X).1)],
     inl (KeyError x)).
Proof.
  intros Hread Hmodel Hfit items Hnum Hx Hnone Hbelow.
  rewrite (calculate_similar_jobs_eq _ _ _ _ _ _ _ Hread Hmodel), Hfit.
  unfold write_similar_jobs. cbv zeta. rewrite fst_enumerate. fold items.
  assert (seq 0 (length items)
          = seq 0 x ++ x :: seq (S x) (length items - S x)) as ->.
  { replace (length items) with (x + S (length items - S x)) at 1 by lia.
    by rewrite seq_app. }
  rewrite (mapM_io_raise _ _ _ _ (KeyError x)); [done|..].
  - intros y Hy%elem_of_seq. unfold popularity_key, series_getitem.
    rewrite Hnum. destruct (Hbelow y) as [p Hp]; [lia|]. rewrite Hp.
    destruct (lookup_lt_is_Some_2 (groupby_size (df_job df)) p) as [n ->].
    { rewrite length_groupby_size. by eapply get_loc_lt. }
    rewrite !bind_pure. eauto.
  - unfold popularity_key, series_getitem. by rewrite Hnum, Hnone.
Qed.
End label_lookup.

(** * The claims on concrete runs *)

Section concrete_runs.
Import Toy.
#[local] Existing Instance numpy.
#[local] Existing Instance implicit.
#[local] Existing Instance pandas.
#[local] Existing Instance ascii_only.

(** C1, the claim as stated fails: [recommend] is not called with the row of
    the user. On the example of the specification both calls receive the
    whole transposed matrix, which differs from the one-row matrix of either
    user. And a history line holds the value [read_csv] gave the job column,
    which for a column of numbers is not the field of the input row: the
    job 007 is written 7. *)
Lemma recommend_is_given_the_whole_matrix :
  recommend_calls (trace (run spec_example (args_for "cosine" true)))
  = [(0, spec_user_applies); (1, spec_user_applies)] ∧
  recommend_calls (trace (run spec_example (args_for "cosine" true)))
  ≠ (λ u, (u, row_matrix spec_user_applies u)) <$> seq 0 2 ∧
  field_job <$> records leading_zero_example = ["007"] ∧
  written (trace (run leading_zero_example (args_for "cosine" true)))
  = [fmt_marker "u1"; fmt_line "7"].
Proof.
  split; [reflexivity|]. split; [|split; reflexivity]. intros Heq.
  assert ((λ c, length (csr_rows c.2)) <$>
            recommend_calls (trace (run spec_example (args_for "cosine" true)))
          = [2; 2]) as Hwhole by reflexivity.
  rewrite Heq in Hwhole. discriminate Hwhole.
Qed.

(** C2, the claim as stated fails: an item that is queried need not be a
    source in the report. On the source with the non-ASCII job both items
    are queried, and every line of the first item is dropped by the writer:
    the report has the one line of the second item. *)
Lemma queried_item_missing_from_report :
  outcome (read cafe_example) = inr (cafe_df, cafe_applies) ∧
  similar_items_calls (trace (run cafe_example (args_for "cosine" false)))
  = [(0, 11); (1, 11)] ∧
  written (trace (run cafe_example (args_for "cosine" false)))
  = [fmt3 "i1" "i1" "1"].
Proof. split_and!; reflexivity. Qed.

(** C3, the claim as stated fails: the approximate variants expose two
    flags, and the script switches off one. In the run with "annoy_als" the
    model that reaches [fit] still has [approximate_similar_items] on. *)
Lemma approximate_similar_items_stays_on :
  dict_get (approximate_flags AnnoyAlternatingLeastSquares)
           "approximate_similar_items" = Some true ∧
  (λ c, (getattr c.1 "approximate_recommend",
         getattr c.1 "approximate_similar_items")) <$>
    fit_calls (trace (run spec_example (args_for "annoy_als" false)))
  = [(Some (PyBool false), Some (PyBool true))].
Proof. split; reflexivity. Qed.

(** C4, the claim as stated fails: the run with the unknown name "svd" has
    read the input file before it stops. *)
Lemma unknown_model_reads_the_input :
  dict_get MODELS "svd" = None ∧
  trace (run spec_example (args_for "svd" false)) = [EvReadCsv "applies.csv"] ∧
  outcome (run spec_example (args_for "svd" false))
  = inl (ValueError_unknown_model "svd").
Proof. split_and!; reflexivity. Qed.

(** C7, the claim as stated fails: a count that is not a number, or a line
    without a count, makes the loader raise. *)
Lemma malformed_count_raises :
  outcome (read malformed_example) = inl (ValueError_float "three") ∧
  outcome (read short_example) = inl (ValueError_float "").
Proof. split; reflexivity. Qed.

(** C10, the claim as stated fails for the factorization family: with the
    same user and item in two records of counts 3 and 4, the matrix that
    reaches [fit] under "als" holds the sum of the two rescaled values, not
    the sum 7 of the counts. *)
Lemma weighted_sum_differs_from_counts :
  (λ c, csr_get c.2 0 0) <$>
    fit_calls (trace (run duplicate_example (args_for "als" false)))
  = [Some (f32 14)] ∧
  f32_sum (count_values (frame duplicate_example) duplicate_df 0 0)
  = Some (f32 7).
Proof. split; reflexivity. Qed.

(** C6, at the failing input: a job identifier that the writer cannot encode.
    In recommendation mode the run stops at the history line of the first
    user and nothing is written for the second user; in similarity mode the
    same input only loses the lines that name the job. *)
Theorem recommendations_abort_on_unencodable_line :
  outcome (run cafe_example (args_for "cosine" true))
  = inl (UnicodeError (fmt_line cafe)) ∧
  written (trace (run cafe_example (args_for "cosine" true)))
  = [fmt3 "u1" "i1" "1"; fmt_marker "u1"] ∧
  outcome (run cafe_example (args_for "cosine" false)) = inr () ∧
  written (trace (run cafe_example (args_for "cosine" false)))
  = [fmt3 "i1" "i1" "1"].
Proof. split_and!; reflexivity. Qed.

(** C8, at the failing input: the run is given [--param K1=5] for the BM25
    recommender, and the model that reaches [fit] was constructed with the
    default K1=100. *)
Theorem param_overrides_are_ignored :
  (λ c, model_kwargs c.1) <$> fit_calls (trace (run spec_example override_args))
  = [[("K1", PyInt 100); ("B", PyFloat (1 # 2))]].
Proof. reflexivity. Qed.

(** The run of the example with the unknown name "svd", in recommendation
    mode. *)
Lemma unknown_model_fails_after_read_witness :
  dict_get MODELS (model_arg (args_for "svd" true)) = None ∧
  trace (run spec_example (args_for "svd" true)) = [EvReadCsv "applies.csv"] ∧
  outcome (run spec_example (args_for "svd" true))
  = inl (ValueError_unknown_model "svd").
Proof.
  split; [reflexivity|].
  destruct (unknown_model_fails_after_read
              (one_file "applies.csv" spec_example) (args_for "svd" true))
    as (Htrace & Hloaded & _); [reflexivity|].
  split; [exact Htrace|].
  apply (Hloaded (spec_df, spec_applies)). reflexivity.
Defined.

(** The same, in similarity mode: no output file is opened. *)
Lemma unknown_model_opens_no_output_witness :
  dict_get MODELS (model_arg (args_for "svd" false)) = None ∧
  (∃ e, outcome (run spec_example (args_for "svd" false)) = inl e) ∧
  ∀ filename, EvOpen filename ∉ trace (run spec_example (args_for "svd" false)).
Proof.
  split; [reflexivity|].
  apply (unknown_model_opens_no_output
           (one_file "applies.csv" spec_example) (args_for "svd" false)).
  reflexivity.
Defined.

(** The run of the example with "als": the matrix is weighted and the one
    attribute is assigned. *)
Lemma weighting_only_for_factorization_witness :
  outcome (read spec_example) = inr (spec_df, spec_applies) ∧
  get_model "als" = inr als ∧
  issubclass_ALS (model_cls als) = true ∧
  ∃ m', fit_calls (trace (run spec_example (args_for "als" false)))
        = [(m', tocsr (bm25_weight spec_applies 100 (4 # 5)))] ∧
        model_setattr m' = [("approximate_recommend", PyBool false)] ∧
        getattr m' "approximate_recommend" = Some (PyBool false).
Proof.
  split; [reflexivity|]. split; [reflexivity|].
  split; [reflexivity|].
  destruct (weighting_only_for_factorization
              (one_file "applies.csv" spec_example) (args_for "als" false)
              spec_df spec_applies als) as [Hals _].
  - reflexivity.
  - reflexivity.
  - destruct Hals as (m' & Hcalls & _ & _ & Hattr & Hget & _); [reflexivity|].
    exists m'. split; [exact Hcalls|]. split; [exact Hattr|exact Hget].
Defined.

(** The loader on the source with a line without a count, and on the
    source with an empty line between two records. *)
Lemma read_data_needs_every_count_witness :
  (one_file "applies.csv" short_example "applies.csv" = Some short_example ∧
   (field_applies <$> records short_example) !! 1 = Some "" ∧
   ∃ s, outcome (read short_example) = inl (ValueError_float s) ∧
        to_float32 s = None) ∧
  (one_file "applies.csv" blank_example "applies.csv" = Some blank_example ∧
   length blank_example = 3 ∧
   ∃ df X, outcome (read blank_example) = inr (df, X) ∧
           length (coo_entries X) = 2).
Proof.
  split.
  - split; [reflexivity|]. split; [reflexivity|].
    destruct (read_data_needs_every_count
                (one_file "applies.csv" short_example) "applies.csv"
                short_example) as (Hmissing & _); [reflexivity|].
    destruct Hmissing as (s & Hs & _ & Hnone).
    + apply (list_elem_of_lookup_2 _ 1). reflexivity.
    + exists s. split; [exact Hs|exact Hnone].
  - split; [reflexivity|]. split; [reflexivity|].
    destruct (read_data_needs_every_count
                (one_file "applies.csv" blank_example) "applies.csv"
                blank_example) as (_ & _ & Hall & _); [reflexivity|].
    destruct Hall as (df & X & Hout & Hlen & _).
    + discriminate.
    + repeat constructor; eexists; reflexivity.
    + exists df, X. split; [exact Hout|]. etrans; [exact Hlen|reflexivity].
Defined.

(** The similarity report of the example with "cosine": i1, with two lines,
    comes before i2, with one. *)
Lemma similar_jobs_by_popularity_witness :
  one_file "applies.csv" spec_example "applies.csv" = Some spec_example ∧
  outcome (read spec_example) = inr (spec_df, spec_applies) ∧
  get_model "cosine" = inr cosine ∧
  fit (weigh cosine spec_applies).2 (tocsr (weigh cosine spec_applies).1)
  = Some (trained (tocsr spec_applies)) ∧
  existsb numeric (cat_categories (df_job spec_df)) = false ∧
  outcome (run spec_example (args_for "cosine" false)) = inr () ∧
  similar_items_calls (trace (run spec_example (args_for "cosine" false)))
  = [(0, 11); (1, 11)] ∧
  written (trace (run spec_example (args_for "cosine" false)))
  = [fmt3 "i1" "i1" "2"; fmt3 "i1" "i2" "1";
     fmt3 "i2" "i1" "2"; fmt3 "i2" "i2" "1"].
Proof.
  split; [reflexivity|]. split; [reflexivity|].
  split; [reflexivity|]. split; [reflexivity|]. split; [reflexivity|].
  destruct (similar_jobs_by_popularity
              (one_file "applies.csv" spec_example) "applies.csv" "out.tsv"
              "cosine" spec_example spec_df spec_applies cosine
              (trained (tocsr spec_applies)))
    as (Hout & Hcalls & Hwritten & _).
  - reflexivity.
  - reflexivity.
  - reflexivity.
  - reflexivity.
  - reflexivity.
  - split; [exact Hout|]. split.
    + etrans; [exact Hcalls|]. reflexivity.
    + etrans; [exact Hwritten|]. reflexivity.
Defined.

(** The matrix of the source with a duplicate, under "als". *)
Lemma fit_matrix_sums_duplicates_witness :
  one_file "applies.csv" duplicate_example "applies.csv"
  = Some duplicate_example ∧
  outcome (read duplicate_example) = inr (duplicate_df, duplicate_applies) ∧
  get_model "als" = inr als ∧
  ∃ m' M,
    fit_calls (trace (run duplicate_example (args_for "als" true))) = [(m', M)] ∧
    (∀ i u, csr_get M i u
            = f32_sum (record_values (frame duplicate_example) duplicate_df als
                                     duplicate_applies i u)) ∧
    (∀ r, r ∈ csr_rows M → NoDup r.*1) ∧
    (∀ u, NoDup (history (enumerate (cat_categories (df_job duplicate_df)))
                         (transpose_tocsr M) u)).
Proof.
  split; [reflexivity|]. split; [reflexivity|].
  split; [reflexivity|].
  destruct (fit_matrix_sums_duplicates
              (one_file "applies.csv" duplicate_example) (args_for "als" true)
              duplicate_example duplicate_df duplicate_applies als)
    as (m' & M & Hcalls & Hsum & Hrows & Hhistory).
  - reflexivity.
  - reflexivity.
  - reflexivity.
  - exists m', M. split; [exact Hcalls|]. split; [exact Hsum|].
    split; [exact Hrows|]. intros u. apply (Hhistory u).
Defined.

(** The recommendation report of the example with "cosine": the block of u1
    and the block of u2, whose history is exactly i1. *)
Lemma recommendation_report_blocks_witness :
  one_file "applies.csv" spec_example "applies.csv" = Some spec_example ∧
  outcome (read spec_example) = inr (spec_df, spec_applies) ∧
  get_model "cosine" = inr cosine ∧
  fit (weigh cosine spec_applies).2 (tocsr (weigh cosine spec_applies).1)
  = Some (trained (tocsr spec_applies)) ∧
  read_as_text (field_user <$> records spec_example) ∧
  read_as_text (field_job <$> records spec_example) ∧
  outcome (run spec_example (args_for "cosine" true)) = inr () ∧
  written (trace (run spec_example (args_for "cosine" true)))
  = [fmt_marker "u1"; fmt_line "i1"; fmt_line "i2";
     fmt3 "u2" "i2" "1"; fmt_marker "u2"; fmt_line "i1"] ∧
  (∀ x, x ∈ history_labels (enumerate [text "i1"; text "i2"])
                           spec_user_applies 1 ↔
        ∃ l, l ∈ records spec_example ∧ field_user l = "u2" ∧ field_job l = x).
Proof.
  split; [reflexivity|]. split; [reflexivity|].
  split; [reflexivity|]. split; [reflexivity|].
  split; [reflexivity|]. split; [reflexivity|].
  destruct (recommendation_report_blocks
              (one_file "applies.csv" spec_example) "applies.csv" "out.tsv"
              "cosine" spec_example spec_df spec_applies cosine
              (trained (tocsr spec_applies)))
    as (Hout & Hwritten & _ & _ & _ & _ & Htext).
  - reflexivity.
  - reflexivity.
  - reflexivity.
  - reflexivity.
  - intros u p Hu Hp. destruct u as [|[|u]]; [..|simpl in Hu; lia].
    + change (p ∈ @nil (nat * Z)) in Hp. by apply elem_of_nil in Hp.
    + change (p ∈ [(1, 1%Z)]) in Hp. apply list_elem_of_singleton in Hp as ->.
      simpl. lia.
  - intros line Hline.
    change (line ∈ [fmt_marker "u1"; fmt_line "i1"; fmt_line "i2";
                    fmt3 "u2" "i2" "1"; fmt_marker "u2"; fmt_line "i1"])
      in Hline.
    repeat (apply elem_of_cons in Hline as [->|Hline]; [reflexivity|]).
    by apply elem_of_nil in Hline.
  - split; [exact Hout|]. split.
    + etrans; [exact Hwritten|]. reflexivity.
    + destruct Htext as [_ Hhistory]; [reflexivity..|].
      apply (Hhistory 1 "u2"). reflexivity.
Defined.

(** The run on the source with the count "three" ends in the loader. *)
Lemma loader_error_is_fatal_witness :
  outcome (read malformed_example) = inl (ValueError_float "three") ∧
  run malformed_example (args_for "cosine" true)
  = ([EvReadCsv "applies.csv"], inl (ValueError_float "three")).
Proof.
  split; [reflexivity|].
  apply (loader_error_is_fatal (one_file "applies.csv" malformed_example)
           (args_for "cosine" true)).
  reflexivity.
Defined.


(** The example of the specification with the model whose training fails. *)
Lemma training_failure_is_fatal_witness :
  outcome (read spec_example) = inr (spec_df, spec_applies) ∧
  get_model "cosine" = inr cosine ∧
  @fit numpy untrainable cosine (tocsr spec_applies) = None ∧
  @main numpy untrainable pandas ascii_only
        (one_file "applies.csv" spec_example) (args_for "cosine" true)
  = ([EvReadCsv "applies.csv"; EvFit cosine (tocsr spec_applies)],
     inl FitError).
Proof.
  split; [reflexivity|]. split; [reflexivity|]. split; [reflexivity|].
  apply (@training_failure_is_fatal numpy untrainable pandas ascii_only
           (one_file "applies.csv" spec_example) (args_for "cosine" true)
           spec_df spec_applies cosine); reflexivity.
Defined.

(** The two runs of the example of the specification with "cosine". *)
Lemma modes_are_exclusive_witness :
  recommend_calls (trace (run spec_example (args_for "cosine" false))) = [] ∧
  similar_items_calls (trace (run spec_example (args_for "cosine" true))) = [].
Proof.
  split.
  - apply (proj1 (modes_are_exclusive (one_file "applies.csv" spec_example)
                    (args_for "cosine" false))).
    reflexivity.
  - apply (proj2 (modes_are_exclusive (one_file "applies.csv" spec_example)
                    (args_for "cosine" true))).
    reflexivity.
Defined.

(** The third line of the example of the specification: user u2, job i1. *)
Lemma codes_round_trip_witness :
  one_file "applies.csv" spec_example "applies.csv" = Some spec_example ∧
  outcome (read spec_example) = inr (spec_df, spec_applies) ∧
  frame spec_example !! 2
  = Some {| row_user := text "u2"; row_job := text "i1";
            row_applies := int64 5 |} ∧
  read_as_text (field_user <$> records spec_example) ∧
  read_as_text (field_job <$> records spec_example) ∧
  (∃ i u v,
     coo_entries spec_applies !! 2 = Some (i, u, v) ∧
     cell_to_float32 (int64 5) = Some v ∧
     cat_codes (df_job spec_df) !! 2 = Some i ∧
     cat_categories (df_job spec_df) !! i = Some (text "i1") ∧
     cat_codes (df_user spec_df) !! 2 = Some u ∧
     cat_categories (df_user spec_df) !! u = Some (text "u2")) ∧
  (∃ l, records spec_example !! 2 = Some l ∧
        text "u2" = CStr (field_user l) ∧ text "i1" = CStr (field_job l)).
Proof.
  split; [reflexivity|]. split; [reflexivity|]. split; [reflexivity|].
  split; [reflexivity|]. split; [reflexivity|].
  destruct (codes_round_trip (one_file "applies.csv" spec_example)
              "applies.csv" spec_example spec_df spec_applies 2
              {| row_user := text "u2"; row_job := text "i1";
                 row_applies := int64 5 |}) as [Hcodes Htext];
    [reflexivity..|].
  split; [exact Hcodes|]. apply Htext; reflexivity.
Defined.

(** The shapes on the source with an empty line, under "als": three lines,
    two entries. *)
Lemma matrix_shapes_witness :
  one_file "applies.csv" blank_example "applies.csv" = Some blank_example ∧
  (∃ df X,
     outcome (read blank_example) = inr (df, X) ∧
     coo_shape X = (1, 2) ∧
     length (coo_entries X) = 2 ∧
     length (csr_rows (tocsr (weigh als X).1)) = 1 ∧
     csr_ncols (transpose_tocsr (tocsr (weigh als X).1)) = 1).
Proof.
  split; [reflexivity|].
  destruct (read_data_needs_every_count
              (one_file "applies.csv" blank_example) "applies.csv"
              blank_example) as (_ & _ & Hall & _); [reflexivity|].
  destruct Hall as (df & X & Hout & _).
  { discriminate. }
  { repeat constructor; eexists; reflexivity. }
  assert (outcome (read blank_example) = inr (df, X)) as Hread by exact Hout.
  assert (length (cat_categories (df_job df)) = 1 ∧
          length (cat_categories (df_user df)) = 2) as [Hj Hu].
  { assert (inr (df, X) = outcome (read blank_example)) as Heq by done.
    split.
    - exact (f_equal (λ o, match o with
                           | inr p => length (cat_categories (df_job p.1))
                           | inl _ => 1
                           end) Heq).
    - exact (f_equal (λ o, match o with
                           | inr p => length (cat_categories (df_user p.1))
                           | inl _ => 2
                           end) Heq). }
  destruct (matrix_shapes (one_file "applies.csv" blank_example) "applies.csv"
              blank_example df X als)
    as (Hshape & Hentries & Hrows & _ & _ & Hcols); [reflexivity|exact Hread|].
  exists df, X. split; [exact Hread|].
  split; [by rewrite Hshape, Hj, Hu|].
  split; [etrans; [exact Hentries|reflexivity]|].
  split; [by rewrite Hrows, Hj|by rewrite Hcols, Hj].
Defined.

(** The count 5 of user u2 for item i1, read from the transposed matrix. *)
Lemma transpose_tocsr_get_witness :
  1 < csr_ncols (tocsr spec_applies) ∧
  csr_get (transpose_tocsr (tocsr spec_applies)) 1 0 = Some (f32 5).
Proof.
  assert (1 < csr_ncols (tocsr spec_applies)) as Hu
    by (change (1 < 2); lia).
  split; [exact Hu|].
  etrans; [exact (transpose_tocsr_get (tocsr spec_applies) 1 0 Hu)|].
  reflexivity.
Defined.

(** Two items with one line each: the item of the smaller code is queried
    first, though its line comes second in the source. *)
Lemma popularity_ties_by_item_code_witness :
  one_file "applies.csv" tied_example "applies.csv" = Some tied_example ∧
  outcome (read tied_example) = inr (tied_df, tied_applies) ∧
  get_model "cosine" = inr cosine ∧
  fit (weigh cosine tied_applies).2 (tocsr (weigh cosine tied_applies).1)
  = Some (trained (tocsr tied_applies)) ∧
  existsb numeric (cat_categories (df_job tied_df)) = false ∧
  (similar_items_calls
     (trace (calculate_similar_jobs (one_file "applies.csv" tied_example)
               "applies.csv" "out.tsv" "cosine"))).*1 = [0; 1] ∧
  StronglySorted
    (more_popular (frame tied_example) (cat_categories (df_job tied_df)))
    (similar_items_calls
       (trace (calculate_similar_jobs (one_file "applies.csv" tied_example)
                 "applies.csv" "out.tsv" "cosine"))).*1.
Proof.
  split; [reflexivity|]. split; [reflexivity|]. split; [reflexivity|].
  split; [reflexivity|]. split; [reflexivity|]. split; [reflexivity|].
  apply (popularity_ties_by_item_code (one_file "applies.csv" tied_example)
           "applies.csv" "out.tsv" "cosine" tied_example tied_df tied_applies
           cosine (trained (tocsr tied_applies))); reflexivity.
Defined.

(** The history of user u1 in the example of the specification. *)
Lemma history_in_code_order_witness :
  one_file "applies.csv" spec_example "applies.csv" = Some spec_example ∧
  outcome (read spec_example) = inr (spec_df, spec_applies) ∧
  read_as_text (field_job <$> records spec_example) ∧
  history_labels (enumerate [text "i1"; text "i2"])
                 (transpose_tocsr (tocsr (weigh cosine spec_applies).1)) 0
  = ["i1"; "i2"] ∧
  StronglySorted String.le
    (history_labels (enumerate (cat_categories (df_job spec_df)))
                    (transpose_tocsr (tocsr (weigh cosine spec_applies).1)) 0).
Proof.
  split; [reflexivity|]. split; [reflexivity|]. split; [reflexivity|].
  split; [reflexivity|].
  destruct (history_in_code_order (one_file "applies.csv" spec_example)
              "applies.csv" spec_example spec_df spec_applies cosine 0)
    as (_ & _ & _ & Htext); [reflexivity..|].
  apply Htext. reflexivity.
Defined.

(** The source with the non-ASCII job in recommendation mode: the report
    breaks at the history line of u1. *)
Lemma recommendations_stop_at_first_unencodable_line_witness :
  one_file "applies.csv" cafe_example "applies.csv" = Some cafe_example ∧
  outcome (read cafe_example) = inr (cafe_df, cafe_applies) ∧
  get_model "cosine" = inr cosine ∧
  recommendation_report cafe_df (trained (tocsr cafe_applies))
                        (tocsr cafe_applies)
  = [fmt3 "u1" "i1" "1"; fmt_marker "u1"] ++ fmt_line cafe
    :: [fmt3 "u2" cafe "1"; fmt_marker "u2"; fmt_line "i1"] ∧
  encodable (fmt_line cafe) = false ∧
  outcome (calculate_recommendations (one_file "applies.csv" cafe_example)
             "applies.csv" "out.tsv" "cosine")
  = inl (UnicodeError (fmt_line cafe)) ∧
  written (trace (calculate_recommendations
                    (one_file "applies.csv" cafe_example)
                    "applies.csv" "out.tsv" "cosine"))
  = [fmt3 "u1" "i1" "1"; fmt_marker "u1"].
Proof.
  split; [reflexivity|]. split; [reflexivity|]. split; [reflexivity|].
  split; [reflexivity|]. split; [reflexivity|].
  apply (recommendations_stop_at_first_unencodable_line
           (one_file "applies.csv" cafe_example) "applies.csv" "out.tsv"
           "cosine" cafe_example cafe_df cafe_applies cosine
           (trained (tocsr cafe_applies))
           [fmt3 "u1" "i1" "1"; fmt_marker "u1"] (fmt_line cafe)
           [fmt3 "u2" cafe "1"; fmt_marker "u2"; fmt_line "i1"]).
  - reflexivity.
  - reflexivity.
  - reflexivity.
  - reflexivity.
  - intros u p Hu Hp. destruct u as [|[|u]]; [..|simpl in Hu; lia].
    + change (p ∈ [(1, 1%Z)]) in Hp. apply list_elem_of_singleton in Hp as ->.
      simpl. lia.
    + change (p ∈ [(0, 1%Z)]) in Hp. apply list_elem_of_singleton in Hp as ->.
      simpl. lia.
  - reflexivity.
  - repeat constructor.
  - reflexivity.
Defined.

(** The source with the jobs 200 and 100: the code 0 is no label, and the
    run in similarity mode stops before it opens the output. *)
Lemma numeric_job_labels_stop_similar_jobs_witness :
  outcome (read numeric_example) = inr (numeric_df, numeric_applies) ∧
  get_model "cosine" = inr cosine ∧
  existsb numeric (cat_categories (df_job numeric_df)) = true ∧
  get_loc (cat_categories (df_job numeric_df)) 0 = None ∧
  calculate_similar_jobs (one_file "applies.csv" numeric_example)
    "applies.csv" "out.tsv" "cosine"
  = ([EvReadCsv "applies.csv"; EvFit cosine (tocsr numeric_applies)],
     inl (KeyError 0)).
Proof.
  split; [reflexivity|]. split; [reflexivity|]. split; [reflexivity|].
  split; [reflexivity|].
  apply (numeric_job_labels_stop_similar_jobs
           (one_file "applies.csv" numeric_example) "applies.csv" "out.tsv"
           "cosine" numeric_df numeric_applies cosine
           (trained (tocsr numeric_applies)) 0).
  - reflexivity.
  - reflexivity.
  - reflexivity.
  - reflexivity.
  - simpl. lia.
  - reflexivity.
  - intros y Hy. lia.
Defined.
End concrete_runs.
